(** * Ring simulator: marker placement, surface camera and picking geometry

    A shallow embedding of the geometric core of the ring simulator
    ([RingSimulator] in the main module, together with the location
    catalogue of [locations.ts]).  JavaScript numbers are modelled by the
    real numbers of the Standard Library, so every statement below is about
    the exact-arithmetic reading of the code: there is no rounding, no NaN
    and no signed zero.  The few functions of three.js and of [Math] that the
    code calls are transcribed from their reference implementations. *)

From Stdlib Require Import Reals Machin Lra Psatz RNsatz String List Bool.
Import ListNotations.

Open Scope R_scope.

(** ** Scalars: [Math] and [THREE.MathUtils] *)

Module MathJS.

(** [Math.max] and [Math.min] on two numbers. *)
Definition max (a b : R) : R := Rmax a b.
Definition min (a b : R) : R := Rmin a b.
Definition abs (a : R) : R := Rabs a.

(** [Math.atan2(y, x)], on real numbers (no signed zero).  The function
    jumps by [2 * PI] across the half line [y = 0], [x < 0]: a point that
    lies on it gives [PI], and one that rounding has put just below it
    gives almost [- PI].  At [x = 0], [y = 0] it gives 0, where rounding
    may leave any direction. *)
Definition atan2 (y x : R) : R :=
  if Rlt_dec 0 x then atan (y / x)
  else if Rlt_dec x 0 then
    (if Rle_dec 0 y then atan (y / x) + PI else atan (y / x) - PI)
  else if Rlt_dec 0 y then PI / 2
  else if Rlt_dec y 0 then - (PI / 2)
  else 0.

(** [THREE.MathUtils.degToRad] and [radToDeg]. *)
Definition DEG2RAD : R := PI / 180.
Definition RAD2DEG : R := 180 / PI.
Definition degToRad (degrees : R) : R := degrees * DEG2RAD.
Definition radToDeg (radians : R) : R := radians * RAD2DEG.

(** [Number.EPSILON]. *)
Definition EPSILON : R := / 2 ^ 52.

End MathJS.

(** ** [THREE.Vector3] *)

Record Vector3 : Type := vec3 { vx : R; vy : R; vz : R }.

Module V3.

Definition zero : Vector3 := vec3 0 0 0.

Definition dot (a b : Vector3) : R :=
  vx a * vx b + vy a * vy b + vz a * vz b.

Definition length (a : Vector3) : R :=
  sqrt (vx a * vx a + vy a * vy a + vz a * vz a).

Definition multiplyScalar (a : Vector3) (s : R) : Vector3 :=
  vec3 (vx a * s) (vy a * s) (vz a * s).

Definition divideScalar (a : Vector3) (s : R) : Vector3 :=
  multiplyScalar a (1 / s).

(** [normalize] divides by [length() || 1]: the zero vector is left as
    it is. *)
Definition normalize (a : Vector3) : Vector3 :=
  divideScalar a (if Req_dec_T (length a) 0 then 1 else length a).

Definition add (a b : Vector3) : Vector3 :=
  vec3 (vx a + vx b) (vy a + vy b) (vz a + vz b).

Definition sub (a b : Vector3) : Vector3 :=
  vec3 (vx a - vx b) (vy a - vy b) (vz a - vz b).

Definition addScaledVector (a v : Vector3) (s : R) : Vector3 :=
  vec3 (vx a + vx v * s) (vy a + vy v * s) (vz a + vz v * s).

Definition crossVectors (a b : Vector3) : Vector3 :=
  vec3 (vy a * vz b - vz a * vy b)
       (vz a * vx b - vx a * vz b)
       (vx a * vy b - vy a * vx b).

End V3.

(** ** [THREE.Matrix4]

  The field [nij] is the entry of row [i] and column [j], the order of
  the arguments of [Matrix4.set]; three.js stores it at
  [elements[4 * (j - 1) + (i - 1)]]. *)

Record Matrix4 : Type := mat4 {
n11 : R; n12 : R; n13 : R; n14 : R;
n21 : R; n22 : R; n23 : R; n24 : R;
n31 : R; n32 : R; n33 : R; n34 : R;
n41 : R; n42 : R; n43 : R; n44 : R }.

Module M4.

Definition makeRotationY (theta : R) : Matrix4 :=
  let c := cos theta in
  let s := sin theta in
  mat4 c 0 s 0
       0 1 0 0
       (- s) 0 c 0
       0 0 0 1.

Definition makeRotationZ (theta : R) : Matrix4 :=
  let c := cos theta in
  let s := sin theta in
  mat4 c (- s) 0 0
       s c 0 0
       0 0 1 0
       0 0 0 1.

Definition multiplyMatrices (a b : Matrix4) : Matrix4 :=
  mat4
    (n11 a * n11 b + n12 a * n21 b + n13 a * n31 b + n14 a * n41 b)
    (n11 a * n12 b + n12 a * n22 b + n13 a * n32 b + n14 a * n42 b)
    (n11 a * n13 b + n12 a * n23 b + n13 a * n33 b + n14 a * n43 b)
    (n11 a * n14 b + n12 a * n24 b + n13 a * n34 b + n14 a * n44 b)
    (n21 a * n11 b + n22 a * n21 b + n23 a * n31 b + n24 a * n41 b)
    (n21 a * n12 b + n22 a * n22 b + n23 a * n32 b + n24 a * n42 b)
    (n21 a * n13 b + n22 a * n23 b + n23 a * n33 b + n24 a * n43 b)
    (n21 a * n14 b + n22 a * n24 b + n23 a * n34 b + n24 a * n44 b)
    (n31 a * n11 b + n32 a * n21 b + n33 a * n31 b + n34 a * n41 b)
    (n31 a * n12 b + n32 a * n22 b + n33 a * n32 b + n34 a * n42 b)
    (n31 a * n13 b + n32 a * n23 b + n33 a * n33 b + n34 a * n43 b)
    (n31 a * n14 b + n32 a * n24 b + n33 a * n34 b + n34 a * n44 b)
    (n41 a * n11 b + n42 a * n21 b + n43 a * n31 b + n44 a * n41 b)
    (n41 a * n12 b + n42 a * n22 b + n43 a * n32 b + n44 a * n42 b)
    (n41 a * n13 b + n42 a * n23 b + n43 a * n33 b + n44 a * n43 b)
    (n41 a * n14 b + n42 a * n24 b + n43 a * n34 b + n44 a * n44 b).

(** [Vector3.applyMatrix4], with its perspective divide. *)
Definition applyMatrix4 (v : Vector3) (m : Matrix4) : Vector3 :=
  let x := vx v in
  let y := vy v in
  let z := vz v in
  let w := 1 / (n41 m * x + n42 m * y + n43 m * z + n44 m) in
  vec3 ((n11 m * x + n12 m * y + n13 m * z + n14 m) * w)
       ((n21 m * x + n22 m * y + n23 m * z + n24 m) * w)
       ((n31 m * x + n32 m * y + n33 m * z + n34 m) * w).

End M4.

(** ** [THREE.Euler] and [THREE.Quaternion] *)

Record Euler : Type := euler { ex : R; ey : R; ez : R }.

Record Quaternion : Type := quat { qx : R; qy : R; qz : R; qw : R }.

Module Rot.

(** [Matrix4.makeRotationFromEuler] for the default order ['XYZ'], the
    order of [Object3D.rotation]: the matrix by which a mesh with this
    rotation, no translation and unit scale is drawn. *)
Definition makeRotationFromEuler (e : Euler) : Matrix4 :=
  let a := cos (ex e) in
  let b := sin (ex e) in
  let c := cos (ey e) in
  let d := sin (ey e) in
  let e' := cos (ez e) in
  let f := sin (ez e) in
  let ae := a * e' in
  let af := a * f in
  let be := b * e' in
  let bf := b * f in
  mat4 (c * e') (- c * f) d 0
       (af + be * d) (ae - bf * d) (- b * c) 0
       (bf - ae * d) (be + af * d) (a * c) 0
       0 0 0 1.

Definition qlength (q : Quaternion) : R :=
  sqrt (qx q * qx q + qy q * qy q + qz q * qz q + qw q * qw q).

Definition qnormalize (q : Quaternion) : Quaternion :=
  let l := qlength q in
  if Req_dec_T l 0 then quat 0 0 0 1
  else
    let l' := 1 / l in
    quat (qx q * l') (qy q * l') (qz q * l') (qw q * l').

(** [Quaternion.setFromUnitVectors]. *)
Definition setFromUnitVectors (vFrom vTo : Vector3) : Quaternion :=
  let r := V3.dot vFrom vTo + 1 in
  if Rlt_dec r MathJS.EPSILON then
    if Rlt_dec (MathJS.abs (vz vFrom)) (MathJS.abs (vx vFrom)) then
      qnormalize (quat (- vy vFrom) (vx vFrom) 0 0)
    else
      qnormalize (quat 0 (- vz vFrom) (vy vFrom) 0)
  else
    qnormalize
      (quat (vy vFrom * vz vTo - vz vFrom * vy vTo)
            (vz vFrom * vx vTo - vx vFrom * vz vTo)
            (vx vFrom * vy vTo - vy vFrom * vx vTo)
            r).

End Rot.

(** ** The location catalogue ([locations.ts]) *)

Record Location : Type := mkLocation {
  name : string;
  loc_latitude : R;
  loc_longitude : R }.

Definition locations : list Location :=
  [ mkLocation "New York" 40.7128 74.0061;
    mkLocation "Tokyo" 35.6833 (-139.7667);
    mkLocation "Rio de Janeiro" (-22.544) 43.1729;
    mkLocation "Sydney" (-33.8688) (-151.2093);
    mkLocation "Cape Town" (-33.9249) (-18.4241);
    mkLocation "Dubai" 25.2048 (-55.2708);
    mkLocation "Reykjavik" 64.1466 21.9426;
    mkLocation "Mount Everest" 27.9881 (-86.925) ].

(** Comparisons of numbers as booleans, for the predicates handed to
    [Array.prototype.find]. *)
Definition Rltb (a b : R) : bool := if Rlt_dec a b then true else false.

(** ** Program state *)

Definition EARTH_RADIUS : R := 6371.

(** The fields of [settings] that the geometry reads or writes.  The
    remaining fields (ring opacity and scale, star visibility, orbit camera
    distance, preview size and position, export size, texture offset) only
    reach the renderer and are left out. *)
Record Settings : Type := mkSettings {
  latitude : R;
  longitude : R;
  selectedLocation : string;
  timeOfDay : R;
  pipEnabled : bool;
  pipFov : R;
  pipHeight : R;
  textureRotation : R;
  earthTilt : R;
  pipRotation : R;
  pipTilt : R }.

(** [locationMarker]: a [THREE.Group], of which the position and the
    quaternion are kept, and the direction last given to the arrow that is
    its child. *)
Record Marker : Type := mkMarker {
  position : Vector3;
  quaternion : Quaternion }.

(** [pipCamera]: position, up vector, field of view and the target of the
    last [lookAt] ([None] before the first call). *)
Record Camera : Type := mkCamera {
  cam_position : Vector3;
  cam_up : Vector3;
  cam_fov : R;
  cam_lookAt : option Vector3 }.

(** The variables captured by the pointer handlers that
    [setupPictureInPicture] installs. *)
Record PipDrag : Type := mkPipDrag {
  isDragging : bool;
  previousMouseX : R;
  previousMouseY : R;
  rotationAngle : R;
  tiltAngle : R }.

Record RingSimulator : Type := mkSim {
  settings : Settings;
  earth_rotation : Euler;
  locationMarker : Marker;
  pipCamera : Camera;
  arrowVisible : bool;
  arrowDirection : Vector3;
  lastPipLocation : R * R;
  isDraggingOrbit : bool;
  dragTotalMovement : R;
  hasDragged : bool;
  (** whether [document.getElementById("pip-container")] finds the element *)
  pipContainer : bool;
  pipDrag : PipDrag }.

(** Field updates. *)

Definition with_location (lat lon : R) (s : Settings) : Settings :=
  mkSettings lat lon (selectedLocation s) (timeOfDay s) (pipEnabled s)
    (pipFov s) (pipHeight s) (textureRotation s) (earthTilt s)
    (pipRotation s) (pipTilt s).

Definition with_latitude (v : R) (s : Settings) : Settings :=
  with_location v (longitude s) s.

Definition with_longitude (v : R) (s : Settings) : Settings :=
  with_location (latitude s) v s.

Definition with_selectedLocation (v : string) (s : Settings) : Settings :=
  mkSettings (latitude s) (longitude s) v (timeOfDay s) (pipEnabled s)
    (pipFov s) (pipHeight s) (textureRotation s) (earthTilt s)
    (pipRotation s) (pipTilt s).

Definition with_timeOfDay (v : R) (s : Settings) : Settings :=
  mkSettings (latitude s) (longitude s) (selectedLocation s) v (pipEnabled s)
    (pipFov s) (pipHeight s) (textureRotation s) (earthTilt s)
    (pipRotation s) (pipTilt s).

Definition with_pipEnabled (v : bool) (s : Settings) : Settings :=
  mkSettings (latitude s) (longitude s) (selectedLocation s) (timeOfDay s) v
    (pipFov s) (pipHeight s) (textureRotation s) (earthTilt s)
    (pipRotation s) (pipTilt s).

Definition with_pipFov (v : R) (s : Settings) : Settings :=
  mkSettings (latitude s) (longitude s) (selectedLocation s) (timeOfDay s)
    (pipEnabled s) v (pipHeight s) (textureRotation s) (earthTilt s)
    (pipRotation s) (pipTilt s).

Definition with_pipHeight (v : R) (s : Settings) : Settings :=
  mkSettings (latitude s) (longitude s) (selectedLocation s) (timeOfDay s)
    (pipEnabled s) (pipFov s) v (textureRotation s) (earthTilt s)
    (pipRotation s) (pipTilt s).

Definition with_textureRotation (v : R) (s : Settings) : Settings :=
  mkSettings (latitude s) (longitude s) (selectedLocation s) (timeOfDay s)
    (pipEnabled s) (pipFov s) (pipHeight s) v (earthTilt s)
    (pipRotation s) (pipTilt s).

Definition with_earthTilt (v : R) (s : Settings) : Settings :=
  mkSettings (latitude s) (longitude s) (selectedLocation s) (timeOfDay s)
    (pipEnabled s) (pipFov s) (pipHeight s) (textureRotation s) v
    (pipRotation s) (pipTilt s).

Definition with_pipRotation (v : R) (s : Settings) : Settings :=
  mkSettings (latitude s) (longitude s) (selectedLocation s) (timeOfDay s)
    (pipEnabled s) (pipFov s) (pipHeight s) (textureRotation s) (earthTilt s)
    v (pipTilt s).

Definition with_pipTilt (v : R) (s : Settings) : Settings :=
  mkSettings (latitude s) (longitude s) (selectedLocation s) (timeOfDay s)
    (pipEnabled s) (pipFov s) (pipHeight s) (textureRotation s) (earthTilt s)
    (pipRotation s) v.

Definition map_settings (f : Settings -> Settings) (sim : RingSimulator)
  : RingSimulator :=
  mkSim (f (settings sim)) (earth_rotation sim) (locationMarker sim)
    (pipCamera sim) (arrowVisible sim) (arrowDirection sim)
    (lastPipLocation sim) (isDraggingOrbit sim) (dragTotalMovement sim)
    (hasDragged sim) (pipContainer sim) (pipDrag sim).

Definition with_earth_rotation (e : Euler) (sim : RingSimulator)
  : RingSimulator :=
  mkSim (settings sim) e (locationMarker sim)
    (pipCamera sim) (arrowVisible sim) (arrowDirection sim)
    (lastPipLocation sim) (isDraggingOrbit sim) (dragTotalMovement sim)
    (hasDragged sim) (pipContainer sim) (pipDrag sim).

Definition with_locationMarker (m : Marker) (sim : RingSimulator)
  : RingSimulator :=
  mkSim (settings sim) (earth_rotation sim) m
    (pipCamera sim) (arrowVisible sim) (arrowDirection sim)
    (lastPipLocation sim) (isDraggingOrbit sim) (dragTotalMovement sim)
    (hasDragged sim) (pipContainer sim) (pipDrag sim).

Definition with_pipCamera (c : Camera) (sim : RingSimulator)
  : RingSimulator :=
  mkSim (settings sim) (earth_rotation sim) (locationMarker sim)
    c (arrowVisible sim) (arrowDirection sim)
    (lastPipLocation sim) (isDraggingOrbit sim) (dragTotalMovement sim)
    (hasDragged sim) (pipContainer sim) (pipDrag sim).

Definition with_orbitDrag (dragging : bool) (total : R) (dragged : bool)
  (sim : RingSimulator) : RingSimulator :=
  mkSim (settings sim) (earth_rotation sim) (locationMarker sim)
    (pipCamera sim) (arrowVisible sim) (arrowDirection sim)
    (lastPipLocation sim) dragging total dragged
    (pipContainer sim) (pipDrag sim).

Definition with_pipDrag (d : PipDrag) (sim : RingSimulator)
  : RingSimulator :=
  mkSim (settings sim) (earth_rotation sim) (locationMarker sim)
    (pipCamera sim) (arrowVisible sim) (arrowDirection sim)
    (lastPipLocation sim) (isDraggingOrbit sim) (dragTotalMovement sim)
    (hasDragged sim) (pipContainer sim) d.

Definition with_pipContainer (b : bool) (sim : RingSimulator)
  : RingSimulator :=
  mkSim (settings sim) (earth_rotation sim) (locationMarker sim)
    (pipCamera sim) (arrowVisible sim) (arrowDirection sim)
    (lastPipLocation sim) (isDraggingOrbit sim) (dragTotalMovement sim)
    (hasDragged sim) b (pipDrag sim).

(** ** The planet mesh: [updateEarthRotation] *)

Definition updateEarthRotation (sim : RingSimulator) : RingSimulator :=
  with_earth_rotation
    (euler 0 (textureRotation (settings sim))
             (MathJS.degToRad (earthTilt (settings sim))))
    sim.

(** The matrix by which the renderer draws the planet mesh. *)
Definition earthMatrix (sim : RingSimulator) : Matrix4 :=
  Rot.makeRotationFromEuler (earth_rotation sim).

(** ** Forward placement: [updateLocationMarker]

    The local constants of the method, each as a function of the settings
    record it reads. *)

Module MarkerPlacement.

Definition phi (s : Settings) : R := MathJS.degToRad (90 - latitude s).
Definition theta (s : Settings) : R := MathJS.degToRad (longitude s).

(** Position on the sphere, before the planet's rotation and tilt. *)
Definition rawPosition (s : Settings) : Vector3 :=
  vec3 (EARTH_RADIUS * sin (phi s) * cos (theta s))
       (EARTH_RADIUS * cos (phi s))
       (EARTH_RADIUS * sin (phi s) * sin (theta s)).

Definition textureRotationMatrix (s : Settings) : Matrix4 :=
  M4.makeRotationY (textureRotation s).

Definition tiltMatrix (s : Settings) : Matrix4 :=
  M4.makeRotationZ (MathJS.degToRad (earthTilt s)).

Definition rotationMatrix (s : Settings) : Matrix4 :=
  M4.multiplyMatrices (tiltMatrix s) (textureRotationMatrix s).

(** [markerPosition] after [applyMatrix4]: the point of the surface, at
    radius [EARTH_RADIUS]. *)
Definition surfacePoint (s : Settings) : Vector3 :=
  M4.applyMatrix4 (rawPosition s) (rotationMatrix s).

Definition normal (s : Settings) : Vector3 := V3.normalize (surfacePoint s).

Definition surfaceOffset : R := 1.02.

(** [markerPosition] as it is copied to the marker. *)
Definition markerPosition (s : Settings) : Vector3 :=
  V3.multiplyScalar (V3.normalize (surfacePoint s))
    (EARTH_RADIUS * surfaceOffset).

Definition upVector : Vector3 := vec3 0 1 0.

Definition markerQuaternion (s : Settings) : Quaternion :=
  Rot.setFromUnitVectors upVector (normal s).

End MarkerPlacement.

Definition updateLocationMarker (sim : RingSimulator) : RingSimulator :=
  with_locationMarker
    (mkMarker (MarkerPlacement.markerPosition (settings sim))
              (MarkerPlacement.markerQuaternion (settings sim)))
    sim.

(** ** Surface camera: [updatePictureInPicture]

    The local constants of the method, as functions of the marker position
    it reads from the scene and of the settings record. *)

Module SurfaceCamera.

Definition surfaceNormal (markerPos : Vector3) : Vector3 :=
  V3.normalize markerPos.

Definition cameraPos (markerPos : Vector3) (s : Settings) : Vector3 :=
  V3.multiplyScalar (surfaceNormal markerPos) (EARTH_RADIUS + pipHeight s).

Definition hourAngle (s : Settings) : R := timeOfDay s / 24 * PI * 2.

(** The world Y axis, or the X axis when the normal is too close to it. *)
Definition referenceVector (markerPos : Vector3) : Vector3 :=
  if Rlt_dec 0.9 (MathJS.abs (vy (surfaceNormal markerPos)))
  then vec3 1 0 0
  else vec3 0 1 0.

Definition eastVector (markerPos : Vector3) : Vector3 :=
  V3.normalize
    (V3.crossVectors (referenceVector markerPos) (surfaceNormal markerPos)).

Definition northVector (markerPos : Vector3) : Vector3 :=
  V3.normalize
    (V3.crossVectors (surfaceNormal markerPos) (eastVector markerPos)).

(** [hourAngle + (pipRotation || 0)]: on numbers other than NaN the
    default [0] only replaces a zero. *)
Definition totalRotation (s : Settings) : R := hourAngle s + pipRotation s.

(** [viewDirection] as first computed, before the perpendicularity check. *)
Definition tangentViewDirection (markerPos : Vector3) (s : Settings)
  : Vector3 :=
  V3.normalize
    (V3.addScaledVector
       (V3.addScaledVector V3.zero (eastVector markerPos)
          (sin (totalRotation s)))
       (northVector markerPos) (cos (totalRotation s))).

Definition dotProduct (markerPos : Vector3) (s : Settings) : R :=
  V3.dot (tangentViewDirection markerPos s) (surfaceNormal markerPos).

(** [viewDirection] after the check, which removes the component along
    the normal when it exceeds [0.001]. *)
Definition viewDirection (markerPos : Vector3) (s : Settings) : Vector3 :=
  if Rlt_dec 0.001 (MathJS.abs (dotProduct markerPos s))
  then
    V3.normalize
      (V3.sub (tangentViewDirection markerPos s)
         (V3.multiplyScalar (surfaceNormal markerPos)
            (dotProduct markerPos s)))
  else tangentViewDirection markerPos s.

Definition tiltRad (s : Settings) : R := MathJS.degToRad (pipTilt s).
Definition tiltFactor (s : Settings) : R := sin (tiltRad s).
Definition planeFactor (s : Settings) : R := cos (tiltRad s).

(** [lookDirection] after [normalize], before it is scaled to the
    target distance. *)
Definition lookDirection (markerPos : Vector3) (s : Settings) : Vector3 :=
  V3.normalize
    (V3.addScaledVector
       (V3.addScaledVector V3.zero (viewDirection markerPos s)
          (planeFactor s))
       (surfaceNormal markerPos) (tiltFactor s)).

Definition targetDistance : R := EARTH_RADIUS * 5.

Definition target (markerPos : Vector3) (s : Settings) : Vector3 :=
  V3.add (cameraPos markerPos s)
    (V3.multiplyScalar (lookDirection markerPos s) targetDistance).

End SurfaceCamera.

Definition updatePictureInPicture (sim : RingSimulator) : RingSimulator :=
  if negb (pipContainer sim) then sim
  else if negb (pipEnabled (settings sim)) then sim
  else
    let s := settings sim in
    let markerPos := position (locationMarker sim) in
    mkSim s (earth_rotation sim) (locationMarker sim)
      (mkCamera (SurfaceCamera.cameraPos markerPos s)
                (SurfaceCamera.surfaceNormal markerPos)
                (pipFov s)
                (Some (SurfaceCamera.target markerPos s)))
      (pipEnabled s)
      (SurfaceCamera.viewDirection markerPos s)
      (latitude s, longitude s)
      (isDraggingOrbit sim) (dragTotalMovement sim) (hasDragged sim)
      (pipContainer sim) (pipDrag sim).

(** ** [updateView] *)

Definition nearLocation (tolerance lat lon : R) (loc : Location) : bool :=
  Rltb (MathJS.abs (loc_latitude loc - lat)) tolerance
  && Rltb (MathJS.abs (loc_longitude loc - lon)) tolerance.

Definition updateView (sim : RingSimulator) : RingSimulator :=
  let sim1 := updateLocationMarker sim in
  let sim2 :=
    if pipEnabled (settings sim1) then updatePictureInPicture sim1
    else sim1 in
  let s := settings sim2 in
  let sim3 :=
    with_earth_rotation
      (euler (ex (earth_rotation sim2))
             (textureRotation s + SurfaceCamera.hourAngle s)
             (ez (earth_rotation sim2)))
      sim2 in
  if negb (String.eqb (selectedLocation s) "Custom") then
    match find (nearLocation 0.1 (latitude s) (longitude s)) locations with
    | Some _ => sim3
    | None => map_settings (with_selectedLocation "Custom") sim3
    end
  else sim3.

(** ** Picking: [onEarthClick] and [findClosestLocation] *)

Definition findClosestLocation (lat lon : R) : option Location :=
  find (nearLocation 2 lat lon) locations.

Module Picking.

Definition tiltMatrix (s : Settings) : Matrix4 :=
  M4.makeRotationZ (- MathJS.degToRad (earthTilt s)).

Definition textureRotationMatrix (s : Settings) : Matrix4 :=
  M4.makeRotationY (- textureRotation s).

Definition untiltedPoint (intersectPoint : Vector3) (s : Settings)
  : Vector3 :=
  M4.applyMatrix4
    (M4.applyMatrix4 intersectPoint (tiltMatrix s))
    (textureRotationMatrix s).

Definition radius (intersectPoint : Vector3) (s : Settings) : R :=
  V3.length (untiltedPoint intersectPoint s).

Definition pickLatitude (intersectPoint : Vector3) (s : Settings) : R :=
  90 - MathJS.radToDeg
         (acos (MathJS.max (-1)
                  (MathJS.min 1
                     (vy (untiltedPoint intersectPoint s)
                      / radius intersectPoint s)))).

(** The longitude of the hit point.  With the exact [atan2] above, a point
    on the meridian of 180 degrees picks 180 and a point on the polar axis
    picks 0; in the running code the first may pick -180 and the second any
    longitude, as rounding leaves the unrotated X and Z coordinates. *)
Definition pickLongitude (intersectPoint : Vector3) (s : Settings) : R :=
  MathJS.radToDeg
    (MathJS.atan2 (vz (untiltedPoint intersectPoint s))
                  (vx (untiltedPoint intersectPoint s))).

End Picking.

(** [onEarthClick]; [hit] is the first intersection of the picking ray
    with the planet mesh, if there is one. *)
Definition onEarthClick (hit : option Vector3) (sim : RingSimulator)
  : RingSimulator :=
  if hasDragged sim then
    with_orbitDrag (isDraggingOrbit sim) (dragTotalMovement sim) false sim
  else
    match hit with
    | None => sim
    | Some intersectPoint =>
        let lat := Picking.pickLatitude intersectPoint (settings sim) in
        let lon := Picking.pickLongitude intersectPoint (settings sim) in
        let sim1 :=
          map_settings
            (fun s => with_selectedLocation "Custom" (with_location lat lon s))
            sim in
        let sim2 := updateView sim1 in
        match findClosestLocation lat lon with
        | Some closestLocation =>
            map_settings (with_selectedLocation (name closestLocation)) sim2
        | None => sim2
        end
    end.

(** ** Event handlers

    The listeners installed by [setupPictureInPicture], [setupGUI] and
    [setupEventListeners], and the frame callback [animate], as one step
    function on the program state. *)

Inductive Key : Type := KeyW | KeyS | KeyQ | KeyE | KeyOther.

Inductive Event : Type :=
| PipMouseDown (clientX clientY : R)
| PipMouseMove (clientX clientY : R)
| PipMouseUp
| PipMouseLeave
| DocumentMouseUp
| PipWheel (deltaY : R)
| KeyDown (key : Key) (inInputField : bool)
| GuiSelectLocation (value : string)
| GuiLatitude (value : R)
| GuiLongitude (value : R)
| GuiTimeOfDay (value : R)
| GuiPipEnabled (value : bool)
| GuiPipFov (value : R)
| GuiPipHeight (value : R)
| GuiTextureRotation (value : R)
| GuiEarthTilt (value : R)
| CanvasMouseDown
| CanvasMouseMove (movementX movementY : R)
| CanvasClick (hit : option Vector3)
| TextureLoaded
| AnimationFrame.

Definition with_cam_fov (v : R) (sim : RingSimulator) : RingSimulator :=
  with_pipCamera
    (mkCamera (cam_position (pipCamera sim)) (cam_up (pipCamera sim)) v
       (cam_lookAt (pipCamera sim)))
    sim.

Definition stopDragging (sim : RingSimulator) : RingSimulator :=
  let d := pipDrag sim in
  if isDragging d then
    with_pipDrag
      (mkPipDrag false (previousMouseX d) (previousMouseY d)
         (rotationAngle d) (tiltAngle d))
      sim
  else sim.

(** The [mousemove] listener of the preview container. *)
Definition onPipMouseMove (clientX clientY : R) (sim : RingSimulator)
  : RingSimulator :=
  let d := pipDrag sim in
  if negb (isDragging d) then sim
  else
    let deltaX := clientX - previousMouseX d in
    let deltaY := clientY - previousMouseY d in
    let rotationAngle' := rotationAngle d + deltaX * 0.01 in
    let tiltAngle' := tiltAngle d - deltaY * 0.2 in
    let tiltAngle'' := MathJS.max 10 (MathJS.min 170 tiltAngle') in
    updatePictureInPicture
      (map_settings
         (fun s => with_pipTilt tiltAngle'' (with_pipRotation rotationAngle' s))
         (with_pipDrag
            (mkPipDrag (isDragging d) clientX clientY rotationAngle'
               tiltAngle'')
            sim)).

(** The [wheel] listener of the preview container. *)
Definition onPipWheel (deltaY : R) (sim : RingSimulator) : RingSimulator :=
  let fovChange := deltaY * 0.05 in
  let fov :=
    MathJS.max 20 (MathJS.min 120 (pipFov (settings sim) + fovChange)) in
  updatePictureInPicture
    (with_cam_fov fov (map_settings (with_pipFov fov) sim)).

(** The [keydown] listener. *)
Definition onKeyDown (key : Key) (inInputField : bool) (sim : RingSimulator)
  : RingSimulator :=
  if negb (pipEnabled (settings sim)) || inInputField then sim
  else
    match key with
    | KeyW =>
        updatePictureInPicture
          (map_settings
             (fun s => with_pipHeight (MathJS.min 5 (pipHeight s * 1.1)) s)
             sim)
    | KeyS =>
        updatePictureInPicture
          (map_settings
             (fun s => with_pipHeight (MathJS.max (-2) (pipHeight s * 0.9)) s)
             sim)
    | KeyQ =>
        let fov := MathJS.max 20 (pipFov (settings sim) - 2) in
        updatePictureInPicture
          (with_cam_fov fov (map_settings (with_pipFov fov) sim))
    | KeyE =>
        let fov := MathJS.min 120 (pipFov (settings sim) + 2) in
        updatePictureInPicture
          (with_cam_fov fov (map_settings (with_pipFov fov) sim))
    | KeyOther => sim
    end.

(** The [onChange] callback of the location selector, after dat.GUI has
    stored the chosen value. *)
Definition onSelectLocation (value : string) (sim : RingSimulator)
  : RingSimulator :=
  let sim1 := map_settings (with_selectedLocation value) sim in
  if String.eqb value "Custom" then sim1
  else
    match find (fun loc => String.eqb (name loc) value) locations with
    | Some location =>
        updateView
          (map_settings
             (with_location (loc_latitude location) (loc_longitude location))
             sim1)
    | None => sim1
    end.

Definition onCanvasMouseMove (movementX movementY : R) (sim : RingSimulator)
  : RingSimulator :=
  if isDraggingOrbit sim then
    let total :=
      dragTotalMovement sim + MathJS.abs movementX + MathJS.abs movementY in
    with_orbitDrag (isDraggingOrbit sim) total
      (if Rlt_dec 10 total then true else hasDragged sim)
      sim
  else sim.

(** [animate], the frame callback: the preview camera is recomputed on
    every frame while the preview is enabled. *)
Definition animate (sim : RingSimulator) : RingSimulator :=
  if pipEnabled (settings sim) then updatePictureInPicture sim else sim.

Definition handle (e : Event) (sim : RingSimulator) : RingSimulator :=
  match e with
  | PipMouseDown clientX clientY =>
      with_pipDrag
        (mkPipDrag true clientX clientY (rotationAngle (pipDrag sim))
           (tiltAngle (pipDrag sim)))
        sim
  | PipMouseMove clientX clientY => onPipMouseMove clientX clientY sim
  | PipMouseUp => stopDragging sim
  | PipMouseLeave => stopDragging sim
  | DocumentMouseUp =>
      stopDragging
        (with_orbitDrag false (dragTotalMovement sim) (hasDragged sim) sim)
  | PipWheel deltaY => onPipWheel deltaY sim
  | KeyDown key inInputField => onKeyDown key inInputField sim
  | GuiSelectLocation value => onSelectLocation value sim
  | GuiLatitude value => updateView (map_settings (with_latitude value) sim)
  | GuiLongitude value => updateView (map_settings (with_longitude value) sim)
  | GuiTimeOfDay value => updateView (map_settings (with_timeOfDay value) sim)
  | GuiPipEnabled value =>
      updatePictureInPicture (map_settings (with_pipEnabled value) sim)
  | GuiPipFov value =>
      updatePictureInPicture
        (with_cam_fov value (map_settings (with_pipFov value) sim))
  | GuiPipHeight value =>
      updatePictureInPicture (map_settings (with_pipHeight value) sim)
  | GuiTextureRotation value =>
      updateView
        (updateEarthRotation
           (map_settings (with_textureRotation value) sim))
  | GuiEarthTilt value =>
      updateView
        (updateEarthRotation (map_settings (with_earthTilt value) sim))
  | CanvasMouseDown => with_orbitDrag true 0 false sim
  | CanvasMouseMove movementX movementY =>
      onCanvasMouseMove movementX movementY sim
  | CanvasClick hit => onEarthClick hit sim
  | TextureLoaded => updateView sim
  | AnimationFrame => animate sim
  end.

(** ** The constructor *)

Definition initialSettings : Settings :=
  mkSettings 0 0 "" 12 true 75 0.2 PI 23.5 0 70.

(** The state before the constructor has run any of its set-up methods:
    three.js defaults for the scene objects. *)
Definition blank : RingSimulator :=
  mkSim initialSettings (euler 0 0 0)
    (mkMarker V3.zero (quat 0 0 0 1))
    (mkCamera V3.zero (vec3 0 1 0) 75 None)
    false (vec3 0 1 0) (0, 0) false 0 false false
    (mkPipDrag false 0 0 0 0).

(** [createEarth], as far as the state goes. *)
Definition createEarth (sim : RingSimulator) : RingSimulator :=
  updateEarthRotation sim.

Definition createLocationMarker (sim : RingSimulator) : RingSimulator :=
  updateLocationMarker sim.

Definition setupPictureInPicture (sim : RingSimulator) : RingSimulator :=
  map_settings (with_pipRotation 0)
    (with_pipDrag (mkPipDrag false 0 0 0 (pipTilt (settings sim)))
       (with_cam_fov (pipFov (settings sim))
          (with_pipContainer true sim))).

(** The state the constructor leaves: earth, marker and preview are set
    up, and the first frame is drawn. *)
Definition constructed : RingSimulator :=
  animate (setupPictureInPicture (createLocationMarker (createEarth blank))).

Inductive reachable : RingSimulator -> Prop :=
| reachable_constructed : reachable constructed
| reachable_handle (e : Event) (sim : RingSimulator) :
    reachable sim -> reachable (handle e sim).

(** The states through which a list of events takes the program. *)
Fixpoint run (events : list Event) (sim : RingSimulator) : RingSimulator :=
  match events with
  | [] => sim
  | e :: rest => run rest (handle e sim)
  end.

(** ** Rings: the texture coordinates of [createRings] *)

Module Rings.

Definition RING_INNER_RADIUS : R := EARTH_RADIUS * 1.5.
Definition RING_OUTER_RADIUS : R := EARTH_RADIUS * 2.5.

(** One pass of the loop of [createRings] and of [createPipRings], for the
    vertex [v3] and the value [ringScale] of the setting of that name:
    [u] from the radius, [v] from the angle. *)
Definition ringU (ringScale : R) (v3 : Vector3) : R :=
  let radius := V3.length v3 in
  (radius - RING_INNER_RADIUS * ringScale)
  / (RING_OUTER_RADIUS * ringScale - RING_INNER_RADIUS * ringScale).

Definition ringV (v3 : Vector3) : R :=
  let angle := MathJS.atan2 (vy v3) (vx v3) in
  (angle + PI) / (PI * 2).

(** The array [uv] after the loop over the vertices [pos]. *)
Fixpoint ringUV (ringScale : R) (pos : list Vector3) : list R :=
  match pos with
  | [] => []
  | v3 :: rest => ringU ringScale v3 :: ringV v3 :: ringUV ringScale rest
  end.

End Rings.

(** ** Stars: [createStars]

    [Math.random] is a sequence [random] of draws together with the number
    of draws made so far. *)

Module Stars.

Definition STARS_COUNT : nat := 2000.

Record Star : Type := mkStar {
  star_position : Vector3;
  star_color : Vector3 }.

(** One pass of the loop, from draw number [k]: the star and the number
    of the next draw. *)
Definition star (random : nat -> R) (k : nat) : Star * nat :=
  let radius := 500000 in
  let theta := random k * PI * 2 in
  let phi := acos (random (k + 1)%nat * 2 - 1) in
  let pos :=
    vec3 (radius * sin phi * cos theta)
         (radius * sin phi * sin theta)
         (radius * cos phi) in
  let colorChoice := random (k + 2)%nat in
  if Rlt_dec 0.9 colorChoice then
    (mkStar pos
       (vec3 (0.8 + random (k + 3)%nat * 0.2)
             (0.8 + random (k + 4)%nat * 0.2)
             0.6),
     (k + 5)%nat)
  else (mkStar pos (vec3 0.8 0.8 1.0), (k + 3)%nat).

Fixpoint stars (random : nat -> R) (count k : nat) : list Star :=
  match count with
  | O => []
  | S count' =>
      let (s, k') := star random k in
      s :: stars random count' k'
  end.

Definition createStars (random : nat -> R) : list Star :=
  stars random STARS_COUNT 0.

End Stars.

(** ** Export sizes: the table of [captureHighResImage] *)

Module ExportSizes.

Definition resolutions : list (string * (Z * Z)) :=
  [ ("HD", (1280, 720));
    ("Full HD", (1920, 1080));
    ("2K", (2560, 1440));
    ("4K", (3840, 2160));
    ("8K", (7680, 4320)) ]%string%Z.

(** What a property lookup on the object literal [resolutions] gives: one
    of its own five entries; a member that the literal inherits from
    [Object.prototype], which has neither [width] nor [height]; or
    [undefined]. *)
Inductive Lookup : Type :=
| Entry (width height : Z)
| Inherited
| Undefined.

(** The names of the members of [Object.prototype] in ECMAScript, those of
    its Annex B included. *)
Definition objectPrototype : list string :=
  [ "constructor"; "hasOwnProperty"; "isPrototypeOf";
    "propertyIsEnumerable"; "toLocaleString"; "toString"; "valueOf";
    "__proto__"; "__defineGetter__"; "__defineSetter__";
    "__lookupGetter__"; "__lookupSetter__" ]%string.

(** [resolutions[pipExportSize]]: the own entries come first, then the
    prototype. *)
Definition resolution (pipExportSize : string) : Lookup :=
  match find (fun entry => String.eqb (fst entry) pipExportSize) resolutions
  with
  | Some entry => Entry (fst (snd entry)) (snd (snd entry))
  | None =>
      if existsb (String.eqb pipExportSize) objectPrototype then Inherited
      else Undefined
  end.

(** The values that the selector of the panel offers, and the initial
    value of the setting. *)
Definition exportSizes : list string :=
  [ "HD"; "Full HD"; "2K"; "4K"; "8K" ]%string.

Definition initialExportSize : string := "4K".

End ExportSizes.

(** ** Orbit camera: the [onChange] callback of the camera distance *)

Definition onCameraDistanceChange (value : R) (isSurfaceView : bool)
  (cameraPosition : Vector3) : Vector3 :=
  if negb isSurfaceView then
    V3.multiplyScalar (V3.normalize cameraPosition) (EARTH_RADIUS * value)
  else cameraPosition.

(** ** How three.js turns a vector by a quaternion

    [Vector3.applyQuaternion], by which the renderer orients the children
    of the marker group. *)

Definition applyQuaternion (v : Vector3) (q : Quaternion) : Vector3 :=
  let tx := 2 * (qy q * vz v - qz q * vy v) in
  let ty := 2 * (qz q * vx v - qx q * vz v) in
  let tz := 2 * (qx q * vy v - qy q * vx v) in
  vec3 (vx v + qw q * tx + qy q * tz - qz q * ty)
       (vy v + qw q * ty + qz q * tx - qx q * tz)
       (vz v + qw q * tz + qx q * ty - qy q * tx).

(** ** Vocabulary of the statements *)

(** The unit vector of polar angle [p] and azimuth [t]. *)
Definition spherical (p t : R) : Vector3 :=
  vec3 (sin p * cos t) (cos p) (sin p * sin t).

(** Two vectors are parallel when their cross product vanishes. *)
Definition parallel (a b : Vector3) : Prop :=
  V3.crossVectors a b = V3.zero.

Definition identity4 : Matrix4 :=
  mat4 1 0 0 0
       0 1 0 0
       0 0 1 0
       0 0 0 1.

Definition transpose (m : Matrix4) : Matrix4 :=
  mat4 (n11 m) (n21 m) (n31 m) (n41 m)
       (n12 m) (n22 m) (n32 m) (n42 m)
       (n13 m) (n23 m) (n33 m) (n43 m)
       (n14 m) (n24 m) (n34 m) (n44 m).

(** The picking inverse as the specification words it: undo the tilt with
    the inverse of the tilt rotation of the placement, then undo the
    texture rotation with the inverse of that rotation (the inverse of a
    rotation matrix being its transpose); latitude from the arc cosine of
    the clamped ratio of the height to the distance of the hit point from
    the origin; longitude from [atan2]. *)
Module PickSpec.

Definition clamp (x lo hi : R) : R := Rmax lo (Rmin hi x).

Definition unrotated (hit : Vector3) (s : Settings) : Vector3 :=
  M4.applyMatrix4
    (M4.applyMatrix4 hit (transpose (MarkerPlacement.tiltMatrix s)))
    (transpose (MarkerPlacement.textureRotationMatrix s)).

Definition latitudeOf (hit : Vector3) (s : Settings) : R :=
  let r := V3.length hit in
  90 - acos (clamp (vy (unrotated hit s) / r) (-1) 1) * (180 / PI).

Definition longitudeOf (hit : Vector3) (s : Settings) : R :=
  MathJS.atan2 (vz (unrotated hit s)) (vx (unrotated hit s)) * (180 / PI).

End PickSpec.

Definition withinTolerance (lat lon : R) (loc : Location) : Prop :=
  Rabs (loc_latitude loc - lat) < 2 /\ Rabs (loc_longitude loc - lon) < 2.

(** Squared distance, in degrees, between a catalogued location and a
    coordinate. *)
Definition distance2 (lat lon : R) (loc : Location) : R :=
  (loc_latitude loc - lat) * (loc_latitude loc - lat)
  + (loc_longitude loc - lon) * (loc_longitude loc - lon).

(** The marker and the surface camera that the settings [s] call for. *)
Definition placedMarker (s : Settings) : Marker :=
  mkMarker (MarkerPlacement.markerPosition s)
           (MarkerPlacement.markerQuaternion s).

Definition surfaceCameraOf (s : Settings) : Camera :=
  let markerPos := MarkerPlacement.markerPosition s in
  mkCamera (SurfaceCamera.cameraPos markerPos s)
           (SurfaceCamera.surfaceNormal markerPos)
           (pipFov s)
           (Some (SurfaceCamera.target markerPos s)).

(** What every handler keeps whether or not it redraws: the preview
    container exists, the camera has the field of view of the settings,
    the variables of the drag listener are those of the settings, and the
    mesh has no rotation about X and the tilt of the settings about Z. *)
Definition base (sim : RingSimulator) : Prop :=
  pipContainer sim = true
  /\ cam_fov (pipCamera sim) = pipFov (settings sim)
  /\ tiltAngle (pipDrag sim) = pipTilt (settings sim)
  /\ rotationAngle (pipDrag sim) = pipRotation (settings sim)
  /\ ex (earth_rotation sim) = 0
  /\ ez (earth_rotation sim) = MathJS.degToRad (earthTilt (settings sim)).

(** The scene agrees with the settings: the marker is the one they call
    for and, while the preview is enabled, so is the surface camera and
    the arrow on the marker. *)
Definition consistent (sim : RingSimulator) : Prop :=
  base sim
  /\ locationMarker sim = placedMarker (settings sim)
  /\ (pipEnabled (settings sim) = true ->
      pipCamera sim = surfaceCameraOf (settings sim)
      /\ arrowVisible sim = true
      /\ arrowDirection sim
         = SurfaceCamera.viewDirection
             (MarkerPlacement.markerPosition (settings sim)) (settings sim)
      /\ lastPipLocation sim
         = (latitude (settings sim), longitude (settings sim))).

(** Two settings records that differ at most in the selected label. *)
Definition sameGeometry (s1 s2 : Settings) : Prop :=
  latitude s1 = latitude s2
  /\ longitude s1 = longitude s2
  /\ timeOfDay s1 = timeOfDay s2
  /\ pipEnabled s1 = pipEnabled s2
  /\ pipFov s1 = pipFov s2
  /\ pipHeight s1 = pipHeight s2
  /\ textureRotation s1 = textureRotation s2
  /\ earthTilt s1 = earthTilt s2
  /\ pipRotation s1 = pipRotation s2
  /\ pipTilt s1 = pipTilt s2.

(** Two states with the same scene, up to the rotation of the mesh about
    Y, the state of the two drags and the selected label. *)
Definition sameScene (sim1 sim2 : RingSimulator) : Prop :=
  sameGeometry (settings sim1) (settings sim2)
  /\ locationMarker sim1 = locationMarker sim2
  /\ pipCamera sim1 = pipCamera sim2
  /\ arrowVisible sim1 = arrowVisible sim2
  /\ arrowDirection sim1 = arrowDirection sim2
  /\ lastPipLocation sim1 = lastPipLocation sim2
  /\ pipContainer sim1 = pipContainer sim2
  /\ tiltAngle (pipDrag sim1) = tiltAngle (pipDrag sim2)
  /\ rotationAngle (pipDrag sim1) = rotationAngle (pipDrag sim2)
  /\ ex (earth_rotation sim1) = ex (earth_rotation sim2)
  /\ ez (earth_rotation sim1) = ez (earth_rotation sim2).

(** The ranges that the panel gives the sliders, for the events that come
    from it (dat.GUI keeps a slider value between its bounds). *)
Definition inPanelRange (e : Event) : Prop :=
  match e with
  | GuiLatitude value => -90 <= value <= 90
  | GuiLongitude value => -180 <= value <= 180
  | GuiTimeOfDay value => 0 <= value <= 24
  | GuiPipFov value => 20 <= value <= 120
  | GuiPipHeight value => -2 <= value <= 5
  | GuiTextureRotation value => 0 <= value <= PI * 2
  | GuiEarthTilt value => -90 <= value <= 90
  | _ => True
  end.

Definition settingsInRange (s : Settings) : Prop :=
  -90 <= latitude s <= 90
  /\ -180 <= longitude s <= 180
  /\ 0 <= timeOfDay s <= 24
  /\ 20 <= pipFov s <= 120
  /\ pipHeight s <= 5
  /\ 0 <= textureRotation s <= PI * 2
  /\ -90 <= earthTilt s <= 90
  /\ 10 <= pipTilt s <= 170.

(** The movement that the [mousemove] listener of the canvas has summed
    at the end of a drag: [|movementX| + |movementY|] of every move, added
    to [dragTotalMovement] in the order of the moves, from the 0 that the
    mouse-down stores. *)
Definition totalMovement (moves : list (R * R)) : R :=
  fold_left
    (fun total m => total + MathJS.abs (fst m) + MathJS.abs (snd m))
    moves 0.

(** * Properties *)

(** ** Vectors and rotations *)

Lemma vec3_eq (a b c a' b' c' : R) :
  a = a' -> b = b' -> c = c' -> vec3 a b c = vec3 a' b' c'.
Proof. intros -> -> ->; reflexivity. Qed.

Lemma mat4_eq (a b : Matrix4) :
  n11 a = n11 b -> n12 a = n12 b -> n13 a = n13 b -> n14 a = n14 b ->
  n21 a = n21 b -> n22 a = n22 b -> n23 a = n23 b -> n24 a = n24 b ->
  n31 a = n31 b -> n32 a = n32 b -> n33 a = n33 b -> n34 a = n34 b ->
  n41 a = n41 b -> n42 a = n42 b -> n43 a = n43 b -> n44 a = n44 b ->
  a = b.
Proof.
  destruct a, b; cbn; intros; subst; reflexivity.
Qed.

Lemma sin2_cos2' (x : R) : sin x * sin x + cos x * cos x = 1.
Proof. exact (sin2_cos2 x). Qed.

Lemma applyMatrix4_makeRotationY (v : Vector3) (t : R) :
  M4.applyMatrix4 v (M4.makeRotationY t)
  = vec3 (cos t * vx v + sin t * vz v) (vy v)
         (cos t * vz v - sin t * vx v).
Proof.
  unfold M4.applyMatrix4, M4.makeRotationY; cbn.
  apply vec3_eq; field.
Qed.

Lemma applyMatrix4_makeRotationZ (v : Vector3) (t : R) :
  M4.applyMatrix4 v (M4.makeRotationZ t)
  = vec3 (cos t * vx v - sin t * vy v) (sin t * vx v + cos t * vy v)
         (vz v).
Proof.
  unfold M4.applyMatrix4, M4.makeRotationZ; cbn.
  apply vec3_eq; field.
Qed.

(** Applying the product [tilt * texture] is applying the texture rotation
    first and the tilt second. *)
Lemma applyMatrix4_rotationMatrix (v : Vector3) (s : Settings) :
  M4.applyMatrix4 v (MarkerPlacement.rotationMatrix s)
  = M4.applyMatrix4
      (M4.applyMatrix4 v (MarkerPlacement.textureRotationMatrix s))
      (MarkerPlacement.tiltMatrix s).
Proof.
  unfold MarkerPlacement.textureRotationMatrix, MarkerPlacement.tiltMatrix.
  rewrite applyMatrix4_makeRotationY, applyMatrix4_makeRotationZ.
  unfold MarkerPlacement.rotationMatrix, MarkerPlacement.tiltMatrix,
    MarkerPlacement.textureRotationMatrix, M4.applyMatrix4,
    M4.multiplyMatrices, M4.makeRotationY, M4.makeRotationZ; cbn.
  apply vec3_eq; field.
Qed.

(** The picking rotations undo the placement rotations. *)
Lemma untiltedPoint_rotated (v : Vector3) (s : Settings) :
  Picking.untiltedPoint
    (M4.applyMatrix4 v (MarkerPlacement.rotationMatrix s)) s
  = v.
Proof.
  rewrite applyMatrix4_rotationMatrix.
  unfold Picking.untiltedPoint, Picking.tiltMatrix,
    Picking.textureRotationMatrix, MarkerPlacement.textureRotationMatrix,
    MarkerPlacement.tiltMatrix.
  rewrite !applyMatrix4_makeRotationY, !applyMatrix4_makeRotationZ; cbn.
  rewrite !cos_neg, !sin_neg.
  pose proof (sin2_cos2' (textureRotation s)) as Ht.
  pose proof (sin2_cos2' (MathJS.degToRad (earthTilt s))) as Hz.
  destruct v as [x y z]; cbn.
  apply vec3_eq; nsatz.
Qed.

Lemma untiltedPoint_scale (v : Vector3) (k : R) (s : Settings) :
  Picking.untiltedPoint (V3.multiplyScalar v k) s
  = V3.multiplyScalar (Picking.untiltedPoint v s) k.
Proof.
  unfold Picking.untiltedPoint, Picking.tiltMatrix,
    Picking.textureRotationMatrix.
  rewrite !applyMatrix4_makeRotationY, !applyMatrix4_makeRotationZ.
  unfold V3.multiplyScalar; cbn.
  apply vec3_eq; ring.
Qed.

Lemma rawPosition_spherical (s : Settings) :
  MarkerPlacement.rawPosition s
  = V3.multiplyScalar
      (spherical (MarkerPlacement.phi s) (MarkerPlacement.theta s))
      EARTH_RADIUS.
Proof.
  unfold MarkerPlacement.rawPosition, spherical, V3.multiplyScalar; cbn.
  apply vec3_eq; ring.
Qed.

Lemma length_scaled_spherical (p t k : R) :
  0 <= k -> V3.length (V3.multiplyScalar (spherical p t) k) = k.
Proof.
  intros Hk. unfold V3.length, V3.multiplyScalar, spherical; cbn.
  apply sqrt_lem_1; [nra | assumption |].
  pose proof (sin2_cos2' p) as Hp.
  pose proof (sin2_cos2' t) as Ht.
  nsatz.
Qed.

(** ** [atan2] recovers the angle of a point given in polar form *)

Lemma cos_pos_range (t : R) :
  - PI < t <= PI -> 0 < cos t -> - (PI / 2) < t < PI / 2.
Proof.
  intros [Hlo Hhi] Hc. pose proof PI_RGT_0 as Hpi. split.
  - destruct (Rlt_le_dec (- (PI / 2)) t) as [H | H]; [assumption | exfalso].
    assert (cos (- t) <= 0) by (apply cos_le_0; lra).
    rewrite cos_neg in *. lra.
  - destruct (Rlt_le_dec t (PI / 2)) as [H | H]; [assumption | exfalso].
    assert (cos t <= 0) by (apply cos_le_0; lra). lra.
Qed.

Lemma cos_neg_sin_nonneg_range (t : R) :
  - PI < t <= PI -> cos t < 0 -> 0 <= sin t -> PI / 2 < t <= PI.
Proof.
  intros [Hlo Hhi] Hc Hs. pose proof PI_RGT_0 as Hpi. split; [| assumption].
  destruct (Rlt_le_dec (PI / 2) t) as [H | H]; [assumption | exfalso].
  destruct (Rlt_le_dec t (- (PI / 2))) as [H' | H'].
  - assert (sin t < 0) by (apply sin_lt_0_var; lra). lra.
  - assert (0 <= cos t) by (apply cos_ge_0; lra). lra.
Qed.

Lemma cos_neg_sin_neg_range (t : R) :
  - PI < t <= PI -> cos t < 0 -> sin t < 0 -> - PI < t < - (PI / 2).
Proof.
  intros [Hlo Hhi] Hc Hs. pose proof PI_RGT_0 as Hpi. split; [assumption |].
  destruct (Rlt_le_dec t (- (PI / 2))) as [H | H]; [assumption | exfalso].
  destruct (Rle_lt_dec t (PI / 2)) as [H' | H'].
  - assert (0 <= cos t) by (apply cos_ge_0; lra). lra.
  - assert (0 <= sin t) by (apply sin_ge_0; lra). lra.
Qed.

Lemma cos_zero_range (t : R) :
  - PI < t <= PI -> cos t = 0 -> t = PI / 2 \/ t = - (PI / 2).
Proof.
  intros [Hlo Hhi] Hc. pose proof PI_RGT_0 as Hpi.
  destruct (Rtotal_order t (PI / 2)) as [H | [H | H]]; [| now left |].
  - destruct (Rtotal_order t (- (PI / 2))) as [H' | [H' | H']];
      [| now right |].
    + assert (cos (- t) < 0) by (apply cos_lt_0; lra).
      rewrite cos_neg in *. lra.
    + assert (0 < cos t) by (apply cos_gt_0; lra). lra.
  - assert (cos t < 0) by (apply cos_lt_0; lra). lra.
Qed.

Lemma atan2_polar (r t : R) :
  0 < r -> - PI < t <= PI -> MathJS.atan2 (r * sin t) (r * cos t) = t.
Proof.
  intros Hr Ht. pose proof PI_RGT_0 as Hpi. unfold MathJS.atan2.
  destruct (Rlt_dec 0 (r * cos t)) as [Hx | Hx].
  - assert (Hc : 0 < cos t) by nra.
    replace (r * sin t / (r * cos t)) with (tan t)
      by (unfold tan; field; lra).
    apply atan_tan. now apply cos_pos_range.
  - destruct (Rlt_dec (r * cos t) 0) as [Hx' | Hx'].
    + assert (Hc : cos t < 0) by nra.
      destruct (Rle_dec 0 (r * sin t)) as [Hy | Hy].
      * assert (Hs : 0 <= sin t) by nra.
        pose proof (cos_neg_sin_nonneg_range t Ht Hc Hs) as Hrange.
        replace (r * sin t / (r * cos t)) with (tan (t - PI)).
        { rewrite atan_tan; lra. }
        unfold tan.
        replace (sin t) with (- sin (t - PI))
          by (rewrite <- neg_sin; f_equal; ring).
        replace (cos t) with (- cos (t - PI))
          by (rewrite <- neg_cos; f_equal; ring).
        assert (cos (t - PI) <> 0).
        { intros H0. replace (cos t) with (- cos (t - PI)) in Hc
            by (rewrite <- neg_cos; f_equal; ring). lra. }
        field. lra.
      * assert (Hs : sin t < 0) by nra.
        pose proof (cos_neg_sin_neg_range t Ht Hc Hs) as Hrange.
        replace (r * sin t / (r * cos t)) with (tan (t + PI)).
        { rewrite atan_tan; lra. }
        unfold tan. rewrite neg_sin, neg_cos. field. lra.
    + assert (Hc : cos t = 0) by nra.
      pose proof (sin2_cos2' t) as Hsc.
      destruct (cos_zero_range t Ht Hc) as [-> | ->].
      * rewrite sin_PI2.
        destruct (Rlt_dec 0 (r * 1)) as [_ | H]; [reflexivity | lra].
      * rewrite sin_neg, sin_PI2.
        destruct (Rlt_dec 0 (r * - (1))) as [H | _]; [lra |].
        destruct (Rlt_dec (r * - (1)) 0) as [_ | H]; [reflexivity | lra].
Qed.

(** The result of [atan2] lies in the half-open interval from [-PI] to
    [PI]. *)
Lemma atan2_range (y x : R) : - PI < MathJS.atan2 y x <= PI.
Proof.
  pose proof PI_RGT_0 as Hpi. unfold MathJS.atan2.
  pose proof (atan_bound (y / x)) as Hb.
  destruct (Rlt_dec 0 x) as [Hx | Hx]; [lra |].
  destruct (Rlt_dec x 0) as [Hx' | Hx'].
  - destruct (Rle_dec 0 y) as [Hy | Hy].
    + assert (y / x <= 0).
      { unfold Rdiv. assert (/ x < 0) by now apply Rinv_lt_0_compat. nra. }
      assert (atan (y / x) <= 0).
      { destruct (Req_dec (y / x) 0) as [-> | Hne];
          [rewrite atan_0; lra |].
        left. rewrite <- atan_0. apply atan_increasing. lra. }
      lra.
    + assert (0 < y / x).
      { unfold Rdiv. assert (/ x < 0) by now apply Rinv_lt_0_compat. nra. }
      assert (0 < atan (y / x)).
      { rewrite <- atan_0. now apply atan_increasing. }
      lra.
  - destruct (Rlt_dec 0 y); [lra |]. destruct (Rlt_dec y 0); lra.
Qed.

(** ** Lengths and normalisation *)

Lemma sum_squares_nonneg (a : Vector3) :
  0 <= vx a * vx a + vy a * vy a + vz a * vz a.
Proof. nra. Qed.

Lemma length_nonneg (a : Vector3) : 0 <= V3.length a.
Proof. apply sqrt_pos. Qed.

Lemma length_sqr (a : Vector3) : V3.length a * V3.length a = V3.dot a a.
Proof. unfold V3.length, V3.dot. apply sqrt_sqrt, sum_squares_nonneg. Qed.

Lemma length_multiplyScalar (a : Vector3) (k : R) :
  0 <= k -> V3.length (V3.multiplyScalar a k) = V3.length a * k.
Proof.
  intros Hk. unfold V3.length at 1, V3.multiplyScalar; cbn.
  apply sqrt_lem_1.
  - nra.
  - pose proof (length_nonneg a). nra.
  - pose proof (length_sqr a) as H. unfold V3.dot in H. nra.
Qed.

Lemma multiplyScalar_multiplyScalar (a : Vector3) (k l : R) :
  V3.multiplyScalar (V3.multiplyScalar a k) l = V3.multiplyScalar a (k * l).
Proof. unfold V3.multiplyScalar; cbn. apply vec3_eq; ring. Qed.

Lemma multiplyScalar_1 (a : Vector3) : V3.multiplyScalar a 1 = a.
Proof. destruct a; unfold V3.multiplyScalar; cbn. apply vec3_eq; ring. Qed.

Lemma normalize_nonzero (a : Vector3) :
  V3.length a <> 0 ->
  V3.normalize a = V3.multiplyScalar a (1 / V3.length a).
Proof.
  intros H. unfold V3.normalize, V3.divideScalar.
  destruct (Req_dec_T (V3.length a) 0); [contradiction | reflexivity].
Qed.

Lemma normalize_unit (a : Vector3) : V3.length a = 1 -> V3.normalize a = a.
Proof.
  intros H. rewrite normalize_nonzero by lra. rewrite H.
  replace (1 / 1) with 1 by field. apply multiplyScalar_1.
Qed.

Lemma length_normalize (a : Vector3) :
  V3.length a <> 0 -> V3.length (V3.normalize a) = 1.
Proof.
  intros H. pose proof (length_nonneg a) as Hn.
  rewrite normalize_nonzero by assumption.
  rewrite length_multiplyScalar.
  - field; assumption.
  - apply Rlt_le. unfold Rdiv. rewrite Rmult_1_l.
    apply Rinv_0_lt_compat. lra.
Qed.

Lemma normalize_scaled_unit (a : Vector3) (k : R) :
  V3.length a = 1 -> 0 < k -> V3.normalize (V3.multiplyScalar a k) = a.
Proof.
  intros Ha Hk.
  assert (Hl : V3.length (V3.multiplyScalar a k) = k)
    by (rewrite length_multiplyScalar, Ha; lra).
  rewrite normalize_nonzero by lra.
  rewrite Hl, multiplyScalar_multiplyScalar.
  replace (k * (1 / k)) with 1 by (field; lra).
  apply multiplyScalar_1.
Qed.

Lemma EARTH_RADIUS_pos : 0 < EARTH_RADIUS.
Proof. unfold EARTH_RADIUS; lra. Qed.

(** The placement rotation keeps lengths. *)
Lemma length_rotated (v : Vector3) (s : Settings) :
  V3.length (M4.applyMatrix4 v (MarkerPlacement.rotationMatrix s))
  = V3.length v.
Proof.
  rewrite applyMatrix4_rotationMatrix.
  unfold MarkerPlacement.textureRotationMatrix, MarkerPlacement.tiltMatrix.
  rewrite applyMatrix4_makeRotationY, applyMatrix4_makeRotationZ.
  unfold V3.length; cbn. f_equal.
  pose proof (sin2_cos2' (textureRotation s)) as Ht.
  pose proof (sin2_cos2' (MathJS.degToRad (earthTilt s))) as Hz.
  nsatz.
Qed.

Lemma length_surfacePoint (s : Settings) :
  V3.length (MarkerPlacement.surfacePoint s) = EARTH_RADIUS.
Proof.
  unfold MarkerPlacement.surfacePoint.
  rewrite length_rotated, rawPosition_spherical.
  apply length_scaled_spherical. pose proof EARTH_RADIUS_pos; lra.
Qed.

Lemma length_normal (s : Settings) : V3.length (MarkerPlacement.normal s) = 1.
Proof.
  unfold MarkerPlacement.normal. apply length_normalize.
  rewrite length_surfacePoint. pose proof EARTH_RADIUS_pos; lra.
Qed.

Lemma markerPosition_normal (s : Settings) :
  MarkerPlacement.markerPosition s
  = V3.multiplyScalar (MarkerPlacement.normal s)
      (EARTH_RADIUS * MarkerPlacement.surfaceOffset).
Proof. reflexivity. Qed.

Lemma offset_radius_pos : 0 < EARTH_RADIUS * MarkerPlacement.surfaceOffset.
Proof. unfold EARTH_RADIUS, MarkerPlacement.surfaceOffset; lra. Qed.

(** The normal that the surface camera derives from the placed marker is
    the normal that the placement computed. *)
Lemma surfaceNormal_markerPosition (s : Settings) :
  SurfaceCamera.surfaceNormal (MarkerPlacement.markerPosition s)
  = MarkerPlacement.normal s.
Proof.
  unfold SurfaceCamera.surfaceNormal. rewrite markerPosition_normal.
  apply normalize_scaled_unit; [apply length_normal | apply offset_radius_pos].
Qed.

(** The unrotated image of the placed marker, and of the surface point
    under it. *)
Lemma untiltedPoint_surfacePoint (s : Settings) :
  Picking.untiltedPoint (MarkerPlacement.surfacePoint s) s
  = V3.multiplyScalar
      (spherical (MarkerPlacement.phi s) (MarkerPlacement.theta s))
      EARTH_RADIUS.
Proof.
  unfold MarkerPlacement.surfacePoint.
  rewrite untiltedPoint_rotated. apply rawPosition_spherical.
Qed.

Lemma untiltedPoint_markerPosition (s : Settings) :
  Picking.untiltedPoint (MarkerPlacement.markerPosition s) s
  = V3.multiplyScalar
      (spherical (MarkerPlacement.phi s) (MarkerPlacement.theta s))
      (EARTH_RADIUS * MarkerPlacement.surfaceOffset).
Proof.
  pose proof EARTH_RADIUS_pos as HR.
  unfold MarkerPlacement.markerPosition.
  rewrite normalize_nonzero by (rewrite length_surfacePoint; lra).
  rewrite length_surfacePoint, multiplyScalar_multiplyScalar.
  rewrite untiltedPoint_scale, untiltedPoint_surfacePoint.
  rewrite multiplyScalar_multiplyScalar. f_equal. field. lra.
Qed.

(** ** Picking a point given in spherical form *)

Lemma radToDeg_degToRad (d : R) : MathJS.radToDeg (MathJS.degToRad d) = d.
Proof.
  unfold MathJS.radToDeg, MathJS.degToRad, MathJS.RAD2DEG, MathJS.DEG2RAD.
  field. apply PI_neq0.
Qed.

Lemma clamp_cos (p : R) : MathJS.max (-1) (MathJS.min 1 (cos p)) = cos p.
Proof.
  pose proof (COS_bound p) as [Hlo Hhi]. unfold MathJS.max, MathJS.min.
  rewrite Rmin_right by assumption. apply Rmax_right; assumption.
Qed.

Lemma pickLatitude_spherical (q : Vector3) (s : Settings) (p t k : R) :
  0 < k -> 0 <= p <= PI ->
  Picking.untiltedPoint q s = V3.multiplyScalar (spherical p t) k ->
  Picking.pickLatitude q s = 90 - MathJS.radToDeg p.
Proof.
  intros Hk Hp Hq. unfold Picking.pickLatitude, Picking.radius.
  rewrite Hq, length_scaled_spherical by lra. cbn.
  replace (cos p * k / k) with (cos p) by (field; lra).
  rewrite clamp_cos, acos_cos by assumption. reflexivity.
Qed.

Lemma pickLongitude_spherical (q : Vector3) (s : Settings) (p t k : R) :
  0 < k -> 0 < p < PI -> - PI < t <= PI ->
  Picking.untiltedPoint q s = V3.multiplyScalar (spherical p t) k ->
  Picking.pickLongitude q s = MathJS.radToDeg t.
Proof.
  intros Hk Hp Ht Hq. unfold Picking.pickLongitude. rewrite Hq; cbn.
  assert (Hs : 0 < sin p) by (apply sin_gt_0; lra).
  replace (sin p * sin t * k) with (sin p * k * sin t) by ring.
  replace (sin p * cos t * k) with (sin p * k * cos t) by ring.
  rewrite atan2_polar; [reflexivity | nra | assumption].
Qed.

Lemma phi_range (s : Settings) :
  -90 <= latitude s <= 90 -> 0 <= MarkerPlacement.phi s <= PI.
Proof.
  intros H. pose proof PI_RGT_0 as Hpi.
  unfold MarkerPlacement.phi, MathJS.degToRad, MathJS.DEG2RAD.
  split.
  - apply Rmult_le_pos; lra.
  - replace PI with (180 * (PI / 180)) at 2 by field.
    apply Rmult_le_compat_r; lra.
Qed.

Lemma phi_range_strict (s : Settings) :
  -90 < latitude s < 90 -> 0 < MarkerPlacement.phi s < PI.
Proof.
  intros H. pose proof PI_RGT_0 as Hpi.
  unfold MarkerPlacement.phi, MathJS.degToRad, MathJS.DEG2RAD.
  split.
  - apply Rmult_lt_0_compat; lra.
  - replace PI with (180 * (PI / 180)) at 2 by field.
    apply Rmult_lt_compat_r; lra.
Qed.

Lemma theta_range (s : Settings) :
  -180 < longitude s <= 180 -> - PI < MarkerPlacement.theta s <= PI.
Proof.
  intros H. pose proof PI_RGT_0 as Hpi.
  unfold MarkerPlacement.theta, MathJS.degToRad, MathJS.DEG2RAD.
  split.
  - replace (- PI) with (-180 * (PI / 180)) by field.
    apply Rmult_lt_compat_r; lra.
  - replace PI with (180 * (PI / 180)) at 2 by field.
    apply Rmult_le_compat_r; lra.
Qed.

(** Picking any point on the ray from the centre through the placed
    marker gives back the coordinates of the settings, exactly. *)
Lemma pick_placed_exact (q : Vector3) (s : Settings) (k : R) :
  0 < k ->
  -90 < latitude s < 90 -> -180 < longitude s <= 180 ->
  Picking.untiltedPoint q s
  = V3.multiplyScalar
      (spherical (MarkerPlacement.phi s) (MarkerPlacement.theta s)) k ->
  Picking.pickLatitude q s = latitude s
  /\ Picking.pickLongitude q s = longitude s.
Proof.
  intros Hk Hlat Hlon Hq. split.
  - rewrite (pickLatitude_spherical q s _ _ k Hk
               (phi_range s ltac:(lra)) Hq).
    unfold MarkerPlacement.phi. rewrite radToDeg_degToRad. ring.
  - rewrite (pickLongitude_spherical q s _ _ k Hk
               (phi_range_strict s Hlat) (theta_range s Hlon) Hq).
    unfold MarkerPlacement.theta. apply radToDeg_degToRad.
Qed.

(** Picking reads only the texture rotation and the tilt of the settings. *)
Lemma pick_ext (q : Vector3) (s s' : Settings) :
  textureRotation s' = textureRotation s ->
  earthTilt s' = earthTilt s ->
  Picking.pickLatitude q s' = Picking.pickLatitude q s
  /\ Picking.pickLongitude q s' = Picking.pickLongitude q s.
Proof.
  intros Htex Htilt.
  unfold Picking.pickLatitude, Picking.pickLongitude, Picking.radius,
    Picking.untiltedPoint, Picking.tiltMatrix, Picking.textureRotationMatrix.
  rewrite Htex, Htilt. split; reflexivity.
Qed.






(** ** What the update methods leave alone *)

Lemma settings_updatePictureInPicture (sim : RingSimulator) :
  settings (updatePictureInPicture sim) = settings sim.
Proof.
  unfold updatePictureInPicture.
  destruct (negb (pipContainer sim)); [reflexivity |].
  destruct (negb (pipEnabled (settings sim))); reflexivity.
Qed.

Lemma locationMarker_updatePictureInPicture (sim : RingSimulator) :
  locationMarker (updatePictureInPicture sim) = locationMarker sim.
Proof.
  unfold updatePictureInPicture.
  destruct (negb (pipContainer sim)); [reflexivity |].
  destruct (negb (pipEnabled (settings sim))); reflexivity.
Qed.

Lemma earth_rotation_updatePictureInPicture (sim : RingSimulator) :
  earth_rotation (updatePictureInPicture sim) = earth_rotation sim.
Proof.
  unfold updatePictureInPicture.
  destruct (negb (pipContainer sim)); [reflexivity |].
  destruct (negb (pipEnabled (settings sim))); reflexivity.
Qed.

(** [updateView] changes no setting but, possibly, the selected label. *)
Lemma settings_updateView (sim : RingSimulator) :
  settings (updateView sim) = settings sim
  \/ settings (updateView sim)
     = with_selectedLocation "Custom" (settings sim).
Proof.
  unfold updateView. cbv zeta.
  set (sim2 := if pipEnabled (settings (updateLocationMarker sim))
               then updatePictureInPicture (updateLocationMarker sim)
               else updateLocationMarker sim).
  assert (Hs : settings sim2 = settings sim).
  { unfold sim2. destruct (pipEnabled (settings (updateLocationMarker sim)));
      [rewrite settings_updatePictureInPicture |]; reflexivity. }
  destruct (negb (selectedLocation (settings sim2) =? "Custom")%string);
    [| left; exact Hs].
  destruct (find _ locations); [left; exact Hs |].
  right. cbn. rewrite Hs. reflexivity.
Qed.

Lemma locationMarker_updateView (sim : RingSimulator) :
  locationMarker (updateView sim)
  = mkMarker (MarkerPlacement.markerPosition (settings sim))
             (MarkerPlacement.markerQuaternion (settings sim)).
Proof.
  unfold updateView. cbv zeta.
  set (sim2 := if pipEnabled (settings (updateLocationMarker sim))
               then updatePictureInPicture (updateLocationMarker sim)
               else updateLocationMarker sim).
  assert (Hm : locationMarker sim2
               = mkMarker (MarkerPlacement.markerPosition (settings sim))
                          (MarkerPlacement.markerQuaternion (settings sim))).
  { unfold sim2. destruct (pipEnabled (settings (updateLocationMarker sim)));
      [rewrite locationMarker_updatePictureInPicture |]; reflexivity. }
  destruct (negb (selectedLocation (settings sim2) =? "Custom")%string);
    [| exact Hm].
  destruct (find _ locations); exact Hm.
Qed.

Lemma earth_rotation_updateView (sim : RingSimulator) :
  earth_rotation (updateView sim)
  = euler (ex (earth_rotation sim))
          (textureRotation (settings sim)
           + SurfaceCamera.hourAngle (settings sim))
          (ez (earth_rotation sim)).
Proof.
  unfold updateView. cbv zeta.
  set (sim2 := if pipEnabled (settings (updateLocationMarker sim))
               then updatePictureInPicture (updateLocationMarker sim)
               else updateLocationMarker sim).
  assert (Hs : settings sim2 = settings sim).
  { unfold sim2. destruct (pipEnabled (settings (updateLocationMarker sim)));
      [rewrite settings_updatePictureInPicture |]; reflexivity. }
  assert (He : earth_rotation sim2 = earth_rotation sim).
  { unfold sim2. destruct (pipEnabled (settings (updateLocationMarker sim)));
      [rewrite earth_rotation_updatePictureInPicture |]; reflexivity. }
  destruct (negb (selectedLocation (settings sim2) =? "Custom")%string);
    [destruct (find _ locations) |]; cbn; rewrite Hs, He; reflexivity.
Qed.

(** ** The planet mesh and the marker *)

(** The mesh matrix after the texture rotation or the tilt was changed in
    the panel: rotation about Y by texture rotation plus hour angle,
    applied after the tilt about Z. *)
Lemma earthMatrix_updateView (sim : RingSimulator) :
  earthMatrix (updateView (updateEarthRotation sim))
  = M4.multiplyMatrices
      (M4.makeRotationY
         (textureRotation (settings sim)
          + SurfaceCamera.hourAngle (settings sim)))
      (M4.makeRotationZ (MathJS.degToRad (earthTilt (settings sim)))).
Proof.
  unfold earthMatrix. rewrite earth_rotation_updateView. cbn.
  unfold Rot.makeRotationFromEuler, M4.multiplyMatrices, M4.makeRotationY,
    M4.makeRotationZ; cbn.
  rewrite cos_0, sin_0. apply mat4_eq; cbn; ring.
Qed.

Lemma cos_default_tilt_pos : 0 < cos (MathJS.degToRad 23.5).
Proof.
  pose proof PI_RGT_0 as Hpi.
  apply cos_gt_0; unfold MathJS.degToRad, MathJS.DEG2RAD; lra.
Qed.

(** The two compositions differ in their order as well: with no hour
    angle, a texture rotation of a quarter turn and a tilt of 90 degrees
    the mesh matrix, rotation about Y after the tilt, and the marker
    matrix, tilt after the rotation about Y, differ in their third entry
    of the first row. *)
Lemma rotation_order_differs :
  let s := mkSettings 0 0 "" 0 true 75 0.2 (PI / 2) 90 0 70 in
  let sim :=
    updateView
      (updateEarthRotation (map_settings (fun _ => s) constructed)) in
  n13 (earthMatrix sim) = 1
  /\ n13 (MarkerPlacement.rotationMatrix s) = 0.
Proof.
  cbv zeta. rewrite earthMatrix_updateView.
  cbn [settings map_settings textureRotation earthTilt].
  unfold SurfaceCamera.hourAngle, MarkerPlacement.rotationMatrix,
    MarkerPlacement.tiltMatrix, MarkerPlacement.textureRotationMatrix.
  cbn [timeOfDay textureRotation earthTilt].
  replace (MathJS.degToRad 90) with (PI / 2)
    by (unfold MathJS.degToRad, MathJS.DEG2RAD; field).
  replace (PI / 2 + 0 / 24 * PI * 2) with (PI / 2) by field.
  unfold M4.multiplyMatrices, M4.makeRotationY, M4.makeRotationZ.
  cbn [n11 n12 n13 n14 n21 n22 n23 n24 n31 n32 n33 n34 n41 n42 n43 n44].
  rewrite cos_PI2, sin_PI2. split; ring.
Qed.

(** C2.  With the settings the program starts from (texture rotation [PI],
    tilt 23.5 degrees, noon), once the view has been updated the matrix of
    the planet mesh and the rotation matrix applied to the marker differ:
    their first entries are the cosine of the tilt and its opposite. *)
Theorem marker_rotation_differs_from_mesh :
  let sim := updateView (updateEarthRotation constructed) in
  n11 (earthMatrix sim) = cos (MathJS.degToRad 23.5)
  /\ n11 (MarkerPlacement.rotationMatrix (settings constructed))
     = - cos (MathJS.degToRad 23.5)
  /\ earthMatrix sim <> MarkerPlacement.rotationMatrix (settings constructed).
Proof.
  cbv zeta. rewrite earthMatrix_updateView.
  assert (H1 : n11 (M4.multiplyMatrices
                      (M4.makeRotationY
                         (textureRotation (settings constructed)
                          + SurfaceCamera.hourAngle (settings constructed)))
                      (M4.makeRotationZ
                         (MathJS.degToRad (earthTilt (settings constructed)))))
               = cos (MathJS.degToRad 23.5)).
  { cbn. unfold SurfaceCamera.hourAngle; cbn.
    replace (PI + 12 / 24 * PI * 2) with (2 * PI) by field.
    rewrite cos_2PI. ring. }
  assert (H2 : n11 (MarkerPlacement.rotationMatrix (settings constructed))
               = - cos (MathJS.degToRad 23.5)).
  { cbn. rewrite cos_PI. ring. }
  split; [exact H1 |]. split; [exact H2 |].
  intros Heq. rewrite Heq, H2 in H1.
  pose proof cos_default_tilt_pos. lra.
Qed.

(** ** The tangent basis of the surface camera *)

Lemma dot_multiplyScalar_l (a b : Vector3) (k : R) :
  V3.dot (V3.multiplyScalar a k) b = V3.dot a b * k.
Proof. unfold V3.dot, V3.multiplyScalar; cbn. ring. Qed.

Lemma dot_normalize_l (a b : Vector3) :
  V3.dot a b = 0 -> V3.dot (V3.normalize a) b = 0.
Proof.
  intros H. unfold V3.normalize, V3.divideScalar.
  rewrite dot_multiplyScalar_l, H. ring.
Qed.

Lemma dot_cross_r (a b : Vector3) : V3.dot (V3.crossVectors a b) b = 0.
Proof. unfold V3.dot, V3.crossVectors; cbn. ring. Qed.

Lemma dot_cross_l (a b : Vector3) : V3.dot (V3.crossVectors a b) a = 0.
Proof. unfold V3.dot, V3.crossVectors; cbn. ring. Qed.

Lemma dot_comm (a b : Vector3) : V3.dot a b = V3.dot b a.
Proof. unfold V3.dot. ring. Qed.

(** Lagrange's identity. *)
Lemma dot_cross_cross (a b : Vector3) :
  V3.dot (V3.crossVectors a b) (V3.crossVectors a b)
  = V3.dot a a * V3.dot b b - V3.dot a b * V3.dot a b.
Proof. unfold V3.dot, V3.crossVectors; cbn. ring. Qed.

Lemma length_eq_1 (a : Vector3) : V3.dot a a = 1 -> V3.length a = 1.
Proof.
  intros H. unfold V3.length. unfold V3.dot in H. rewrite H. apply sqrt_1.
Qed.

Lemma dot_self_unit (a : Vector3) : V3.length a = 1 -> V3.dot a a = 1.
Proof. intros H. rewrite <- length_sqr, H. ring. Qed.

Lemma length_nonzero (a : Vector3) : 0 < V3.dot a a -> V3.length a <> 0.
Proof.
  intros H Hl. rewrite <- length_sqr, Hl in H. lra.
Qed.

Lemma east_dot_normal (markerPos : Vector3) :
  V3.dot (SurfaceCamera.eastVector markerPos)
         (SurfaceCamera.surfaceNormal markerPos) = 0.
Proof. apply dot_normalize_l, dot_cross_r. Qed.

Lemma north_dot_normal (markerPos : Vector3) :
  V3.dot (SurfaceCamera.northVector markerPos)
         (SurfaceCamera.surfaceNormal markerPos) = 0.
Proof. apply dot_normalize_l, dot_cross_l. Qed.

Lemma north_dot_east (markerPos : Vector3) :
  V3.dot (SurfaceCamera.northVector markerPos)
         (SurfaceCamera.eastVector markerPos) = 0.
Proof. apply dot_normalize_l, dot_cross_r. Qed.

(** The view direction first computed is perpendicular to the normal,
    whatever the marker position. *)
Lemma dotProduct_zero (markerPos : Vector3) (s : Settings) :
  SurfaceCamera.dotProduct markerPos s = 0.
Proof.
  unfold SurfaceCamera.dotProduct, SurfaceCamera.tangentViewDirection.
  apply dot_normalize_l.
  pose proof (east_dot_normal markerPos) as He.
  pose proof (north_dot_normal markerPos) as Hn.
  unfold V3.dot in *; cbn. nra.
Qed.

(** So the corrective branch is not taken. *)
Lemma viewDirection_tangent (markerPos : Vector3) (s : Settings) :
  SurfaceCamera.viewDirection markerPos s
  = SurfaceCamera.tangentViewDirection markerPos s.
Proof.
  unfold SurfaceCamera.viewDirection. rewrite dotProduct_zero.
  unfold MathJS.abs. rewrite Rabs_R0.
  destruct (Rlt_dec 0.001 0) as [H | _]; [lra | reflexivity].
Qed.

Section UnitNormal.

Variable markerPos : Vector3.
Hypothesis normal_unit :
  V3.length (SurfaceCamera.surfaceNormal markerPos) = 1.

(** The cross product of the reference axis and the normal does not
    vanish: the axis chosen is never parallel to the normal. *)
Lemma reference_cross_nonzero :
  V3.length
    (V3.crossVectors (SurfaceCamera.referenceVector markerPos)
       (SurfaceCamera.surfaceNormal markerPos)) <> 0.
Proof.
  apply length_nonzero. rewrite dot_cross_cross.
  pose proof (dot_self_unit _ normal_unit) as Hn.
  unfold SurfaceCamera.referenceVector, MathJS.abs.
  set (n := SurfaceCamera.surfaceNormal markerPos) in *. clearbody n.
  destruct (Rlt_dec 0.9 (Rabs (vy n))) as [H | H];
    unfold V3.dot in *; cbn;
    unfold Rabs in H; destruct (Rcase_abs (vy n)); nra.
Qed.

Lemma east_unit : V3.length (SurfaceCamera.eastVector markerPos) = 1.
Proof. apply length_normalize, reference_cross_nonzero. Qed.

Lemma normal_cross_east_unit :
  V3.length
    (V3.crossVectors (SurfaceCamera.surfaceNormal markerPos)
       (SurfaceCamera.eastVector markerPos)) = 1.
Proof.
  apply length_eq_1. rewrite dot_cross_cross.
  rewrite (dot_self_unit _ normal_unit), (dot_self_unit _ east_unit).
  rewrite (dot_comm (SurfaceCamera.surfaceNormal markerPos)).
  rewrite east_dot_normal. ring.
Qed.

Lemma north_unit : V3.length (SurfaceCamera.northVector markerPos) = 1.
Proof.
  unfold SurfaceCamera.northVector.
  rewrite normalize_unit; apply normal_cross_east_unit.
Qed.

Lemma tangentViewDirection_unit (s : Settings) :
  V3.length (SurfaceCamera.tangentViewDirection markerPos s) = 1.
Proof.
  unfold SurfaceCamera.tangentViewDirection.
  apply length_normalize, length_nonzero.
  pose proof (dot_self_unit _ east_unit) as He.
  pose proof (dot_self_unit _ north_unit) as Hn.
  pose proof (north_dot_east markerPos) as Hne.
  pose proof (sin2_cos2' (SurfaceCamera.totalRotation s)) as Hsc.
  set (e := SurfaceCamera.eastVector markerPos) in *.
  set (m := SurfaceCamera.northVector markerPos) in *.
  set (sn := sin (SurfaceCamera.totalRotation s)) in *.
  set (cs := cos (SurfaceCamera.totalRotation s)) in *.
  clearbody e m sn cs.
  unfold V3.dot in *; cbn.
  replace ((0 + vx e * sn + vx m * cs) * (0 + vx e * sn + vx m * cs) +
           (0 + vy e * sn + vy m * cs) * (0 + vy e * sn + vy m * cs) +
           (0 + vz e * sn + vz m * cs) * (0 + vz e * sn + vz m * cs))
    with 1 by nsatz.
  lra.
Qed.

Lemma viewDirection_unit (s : Settings) :
  V3.length (SurfaceCamera.viewDirection markerPos s) = 1.
Proof. rewrite viewDirection_tangent. apply tangentViewDirection_unit. Qed.

(** The blend of view direction and normal has length one before it is
    normalised. *)
Lemma blend_unit (s : Settings) :
  V3.length
    (V3.addScaledVector
       (V3.addScaledVector V3.zero (SurfaceCamera.viewDirection markerPos s)
          (SurfaceCamera.planeFactor s))
       (SurfaceCamera.surfaceNormal markerPos)
       (SurfaceCamera.tiltFactor s)) = 1.
Proof.
  apply length_eq_1.
  pose proof (dot_self_unit _ (viewDirection_unit s)) as Hv.
  pose proof (dot_self_unit _ normal_unit) as Hn.
  pose proof (dotProduct_zero markerPos s) as Hd.
  unfold SurfaceCamera.dotProduct in Hd.
  rewrite <- viewDirection_tangent in Hd.
  pose proof (sin2_cos2' (SurfaceCamera.tiltRad s)) as Hsc.
  unfold SurfaceCamera.planeFactor, SurfaceCamera.tiltFactor.
  set (n := SurfaceCamera.surfaceNormal markerPos) in *.
  set (v := SurfaceCamera.viewDirection markerPos s) in *.
  set (sn := sin (SurfaceCamera.tiltRad s)) in *.
  set (cs := cos (SurfaceCamera.tiltRad s)) in *.
  clearbody n v sn cs.
  unfold V3.dot in *; cbn.
  nsatz.
Qed.

Lemma lookDirection_unit (s : Settings) :
  V3.length (SurfaceCamera.lookDirection markerPos s) = 1.
Proof.
  unfold SurfaceCamera.lookDirection.
  rewrite normalize_unit; apply blend_unit.
Qed.

End UnitNormal.

Lemma parallel_refl (a : Vector3) : parallel a a.
Proof.
  unfold parallel, V3.crossVectors, V3.zero. apply vec3_eq; ring.
Qed.

(** C3.  Normal invariant: when the preview is enabled and its container
    exists, the up vector that [updatePictureInPicture] gives the surface
    camera, computed after [updateLocationMarker], is the normalised marker
    position, which is the outward normal computed by the placement; in
    particular the two are parallel.  The statement holds for every
    latitude, longitude, texture rotation, tilt, time of day, height,
    rotation and tilt of the preview. *)
Theorem up_parallel_to_marker_normal (sim : RingSimulator) :
  pipContainer sim = true ->
  pipEnabled (settings sim) = true ->
  let sim' := updatePictureInPicture (updateLocationMarker sim) in
  cam_up (pipCamera sim') = V3.normalize (position (locationMarker sim'))
  /\ cam_up (pipCamera sim') = MarkerPlacement.normal (settings sim)
  /\ parallel (cam_up (pipCamera sim'))
       (V3.normalize (position (locationMarker sim'))).
Proof.
  intros Hc He sim'.
  assert (Hup : cam_up (pipCamera sim')
                = V3.normalize (position (locationMarker sim'))).
  { unfold sim'. rewrite locationMarker_updatePictureInPicture.
    unfold updatePictureInPicture. cbn. rewrite Hc, He. reflexivity. }
  split; [exact Hup |]. split.
  - rewrite Hup. unfold sim'.
    rewrite locationMarker_updatePictureInPicture. cbn.
    apply surfaceNormal_markerPosition.
  - rewrite Hup. apply parallel_refl.
Qed.

Lemma up_parallel_to_marker_normal_witness :
  let sim' := updatePictureInPicture (updateLocationMarker constructed) in
  cam_up (pipCamera sim') = V3.normalize (position (locationMarker sim'))
  /\ cam_up (pipCamera sim') = MarkerPlacement.normal (settings constructed)
  /\ parallel (cam_up (pipCamera sim'))
       (V3.normalize (position (locationMarker sim'))).
Proof.
  apply (up_parallel_to_marker_normal constructed); reflexivity.
Defined.

(** C7.  Tilt blend: the look direction is the normalised sum of the view
    direction in the tangent plane weighted by the cosine of the tilt and of
    the surface normal weighted by its sine, for every marker position and
    every tilt; and with a tilt of 90 degrees the look direction computed
    for the placed marker is the surface normal itself. *)
Theorem lookDirection_tilt_blend (markerPos : Vector3) (s : Settings) :
  SurfaceCamera.lookDirection markerPos s
  = V3.normalize
      (V3.add
         (V3.multiplyScalar (SurfaceCamera.viewDirection markerPos s)
            (cos (MathJS.degToRad (pipTilt s))))
         (V3.multiplyScalar (SurfaceCamera.surfaceNormal markerPos)
            (sin (MathJS.degToRad (pipTilt s)))))
  /\ SurfaceCamera.lookDirection (MarkerPlacement.markerPosition s)
       (with_pipTilt 90 s)
     = SurfaceCamera.surfaceNormal (MarkerPlacement.markerPosition s).
Proof.
  split.
  - unfold SurfaceCamera.lookDirection, SurfaceCamera.planeFactor,
      SurfaceCamera.tiltFactor, SurfaceCamera.tiltRad.
    f_equal. unfold V3.addScaledVector, V3.add, V3.multiplyScalar; cbn.
    apply vec3_eq; ring.
  - unfold SurfaceCamera.lookDirection, SurfaceCamera.planeFactor,
      SurfaceCamera.tiltFactor, SurfaceCamera.tiltRad; cbn [pipTilt with_pipTilt].
    replace (MathJS.degToRad 90) with (PI / 2)
      by (unfold MathJS.degToRad, MathJS.DEG2RAD; field).
    rewrite cos_PI2, sin_PI2.
    set (v := SurfaceCamera.viewDirection _ _).
    assert (Hn : V3.length
                   (SurfaceCamera.surfaceNormal
                      (MarkerPlacement.markerPosition s)) = 1)
      by (rewrite surfaceNormal_markerPosition; apply length_normal).
    set (n := SurfaceCamera.surfaceNormal _) in *. clearbody v n.
    replace (V3.addScaledVector (V3.addScaledVector V3.zero v 0) n 1) with n.
    + now apply normalize_unit.
    + destruct n. unfold V3.addScaledVector; cbn. apply vec3_eq; ring.
Qed.

(** C8.  Perpendicularity: for every marker position and every settings
    record, the dot product of the surface normal with the view direction
    in the tangent plane, sine of the heading times east plus cosine times
    north, is within a thousandth of zero, before the corrective
    re-projection and after it. *)
Theorem viewDirection_perpendicular (markerPos : Vector3) (s : Settings) :
  SurfaceCamera.tangentViewDirection markerPos s
  = V3.normalize
      (V3.add
         (V3.multiplyScalar (SurfaceCamera.eastVector markerPos)
            (sin (SurfaceCamera.hourAngle s + pipRotation s)))
         (V3.multiplyScalar (SurfaceCamera.northVector markerPos)
            (cos (SurfaceCamera.hourAngle s + pipRotation s))))
  /\ Rabs (V3.dot (SurfaceCamera.tangentViewDirection markerPos s)
             (SurfaceCamera.surfaceNormal markerPos)) <= 0.001
  /\ Rabs (V3.dot (SurfaceCamera.viewDirection markerPos s)
             (SurfaceCamera.surfaceNormal markerPos)) <= 0.001.
Proof.
  pose proof (dotProduct_zero markerPos s) as Hd.
  unfold SurfaceCamera.dotProduct in Hd.
  split; [| split].
  - unfold SurfaceCamera.tangentViewDirection, SurfaceCamera.totalRotation.
    f_equal. unfold V3.addScaledVector, V3.add, V3.multiplyScalar; cbn.
    apply vec3_eq; ring.
  - rewrite Hd, Rabs_R0. lra.
  - rewrite viewDirection_tangent, Hd, Rabs_R0. lra.
Qed.

(** ** The poles *)

Lemma normal_scaled_surfacePoint (s : Settings) :
  MarkerPlacement.normal s
  = V3.multiplyScalar (MarkerPlacement.surfacePoint s) (1 / EARTH_RADIUS).
Proof.
  pose proof EARTH_RADIUS_pos as HR.
  unfold MarkerPlacement.normal.
  rewrite normalize_nonzero by (rewrite length_surfacePoint; lra).
  now rewrite length_surfacePoint.
Qed.

Lemma surfacePoint_components (s : Settings) :
  MarkerPlacement.surfacePoint s
  = let a := textureRotation s in
    let t := MathJS.degToRad (earthTilt s) in
    let p := MarkerPlacement.rawPosition s in
    vec3 (cos t * (cos a * vx p + sin a * vz p) - sin t * vy p)
         (sin t * (cos a * vx p + sin a * vz p) + cos t * vy p)
         (cos a * vz p - sin a * vx p).
Proof.
  unfold MarkerPlacement.surfacePoint.
  rewrite applyMatrix4_rotationMatrix.
  unfold MarkerPlacement.textureRotationMatrix, MarkerPlacement.tiltMatrix.
  rewrite applyMatrix4_makeRotationY, applyMatrix4_makeRotationZ.
  reflexivity.
Qed.

Lemma normal_north_pole (s : Settings) :
  latitude s = 90 ->
  MarkerPlacement.normal s
  = vec3 (- sin (MathJS.degToRad (earthTilt s)))
         (cos (MathJS.degToRad (earthTilt s))) 0.
Proof.
  intros Hlat. pose proof EARTH_RADIUS_pos as HR.
  rewrite normal_scaled_surfacePoint, surfacePoint_components.
  unfold MarkerPlacement.rawPosition, MarkerPlacement.phi. rewrite Hlat.
  replace (MathJS.degToRad (90 - 90)) with 0
    by (unfold MathJS.degToRad; ring).
  rewrite sin_0, cos_0. unfold V3.multiplyScalar; cbn.
  apply vec3_eq; field; lra.
Qed.

Lemma normal_south_pole (s : Settings) :
  latitude s = -90 ->
  MarkerPlacement.normal s
  = vec3 (sin (MathJS.degToRad (earthTilt s)))
         (- cos (MathJS.degToRad (earthTilt s))) 0.
Proof.
  intros Hlat. pose proof EARTH_RADIUS_pos as HR.
  rewrite normal_scaled_surfacePoint, surfacePoint_components.
  unfold MarkerPlacement.rawPosition, MarkerPlacement.phi. rewrite Hlat.
  replace (MathJS.degToRad (90 - -90)) with PI
    by (unfold MathJS.degToRad, MathJS.DEG2RAD; field).
  rewrite sin_PI, cos_PI. unfold V3.multiplyScalar; cbn.
  apply vec3_eq; field; lra.
Qed.

Lemma normal_y_pole (s : Settings) :
  latitude s = 90 \/ latitude s = -90 ->
  Rabs (vy (SurfaceCamera.surfaceNormal (MarkerPlacement.markerPosition s)))
  = Rabs (cos (MathJS.degToRad (earthTilt s))).
Proof.
  rewrite surfaceNormal_markerPosition. intros [H | H].
  - rewrite (normal_north_pole s H). reflexivity.
  - rewrite (normal_south_pole s H). cbn. apply Rabs_Ropp.
Qed.

Lemma surfaceNormal_markerPosition_unit (s : Settings) :
  V3.length
    (SurfaceCamera.surfaceNormal (MarkerPlacement.markerPosition s)) = 1.
Proof. rewrite surfaceNormal_markerPosition. apply length_normal. Qed.

(** C6, amended to what the code does.  At latitude 90 or -90 the normal has the
    cosine of the tilt as the absolute value of its Y component, so the
    reference axis is X exactly when that cosine is above 0.9 in absolute
    value, and is the world Y axis otherwise; in both cases the cross
    product with the normal does not vanish and the east, north, view and
    look vectors all have length one. *)
Theorem pole_reference_axis (s : Settings) :
  latitude s = 90 \/ latitude s = -90 ->
  let markerPos := MarkerPlacement.markerPosition s in
  SurfaceCamera.referenceVector markerPos
  = (if Rlt_dec 0.9 (Rabs (cos (MathJS.degToRad (earthTilt s))))
     then vec3 1 0 0 else vec3 0 1 0)
  /\ V3.length
       (V3.crossVectors (SurfaceCamera.referenceVector markerPos)
          (SurfaceCamera.surfaceNormal markerPos)) <> 0
  /\ V3.length (SurfaceCamera.surfaceNormal markerPos) = 1
  /\ V3.length (SurfaceCamera.eastVector markerPos) = 1
  /\ V3.length (SurfaceCamera.northVector markerPos) = 1
  /\ V3.length (SurfaceCamera.viewDirection markerPos s) = 1
  /\ V3.length (SurfaceCamera.lookDirection markerPos s) = 1.
Proof.
  intros Hpole markerPos.
  pose proof (surfaceNormal_markerPosition_unit s) as Hn. fold markerPos in Hn.
  split.
  - unfold SurfaceCamera.referenceVector, MathJS.abs, markerPos.
    rewrite (normal_y_pole s Hpole). reflexivity.
  - repeat split.
    + now apply reference_cross_nonzero.
    + exact Hn.
    + now apply east_unit.
    + now apply north_unit.
    + now apply viewDirection_unit.
    + now apply lookDirection_unit.
Qed.

Lemma pole_reference_axis_witness :
  let s := mkSettings 90 0 "" 12 true 75 0.2 PI 23.5 0 70 in
  let markerPos := MarkerPlacement.markerPosition s in
  SurfaceCamera.referenceVector markerPos
  = (if Rlt_dec 0.9 (Rabs (cos (MathJS.degToRad (earthTilt s))))
     then vec3 1 0 0 else vec3 0 1 0)
  /\ V3.length
       (V3.crossVectors (SurfaceCamera.referenceVector markerPos)
          (SurfaceCamera.surfaceNormal markerPos)) <> 0
  /\ V3.length (SurfaceCamera.surfaceNormal markerPos) = 1
  /\ V3.length (SurfaceCamera.eastVector markerPos) = 1
  /\ V3.length (SurfaceCamera.northVector markerPos) = 1
  /\ V3.length (SurfaceCamera.viewDirection markerPos s) = 1
  /\ V3.length (SurfaceCamera.lookDirection markerPos s) = 1.
Proof.
  intros s. apply (pole_reference_axis s). left. reflexivity.
Defined.

(** Numeric bounds for the default tilt. *)
Lemma PI_upper : PI <= 3.3.
Proof.
  pose proof (PI_2_3_7_ineq 0) as [_ H].
  unfold sum_f_R0, tg_alt, PI_2_3_7_tg, Ratan_seq in H. simpl in H. lra.
Qed.

Lemma cos_lower (a : R) :
  - PI / 2 <= a -> a <= PI / 2 -> 1 - a * a / 2 <= cos a.
Proof.
  intros H1 H2. pose proof (cos_bound a 0 H1 H2) as [H _].
  unfold cos_approx, cos_term in H. simpl in H. lra.
Qed.

Lemma cos_default_tilt : 0.9 < cos (MathJS.degToRad 23.5).
Proof.
  pose proof PI_upper. pose proof PI_RGT_0.
  unfold MathJS.degToRad, MathJS.DEG2RAD.
  eapply Rlt_le_trans; [| apply cos_lower; lra].
  nra.
Qed.

(** With the default tilt of 23.5 degrees the fallback does engage at both
    poles. *)
Lemma pole_fallback_default_tilt (s : Settings) :
  latitude s = 90 \/ latitude s = -90 ->
  earthTilt s = 23.5 ->
  SurfaceCamera.referenceVector (MarkerPlacement.markerPosition s)
  = vec3 1 0 0.
Proof.
  intros Hpole Htilt.
  unfold SurfaceCamera.referenceVector, MathJS.abs.
  rewrite (normal_y_pole s Hpole), Htilt.
  pose proof cos_default_tilt as Hc.
  destruct (Rlt_dec 0.9 (Rabs (cos (MathJS.degToRad 23.5)))) as [_ | H];
    [reflexivity |].
  exfalso. apply H. rewrite Rabs_pos_eq; lra.
Qed.

(** C6, as the claim words it, fails: at the north pole with a tilt of 90
    degrees the normal lies along the X axis, its Y component is zero, not
    above 0.9, and the reference axis stays the world Y axis. *)
Lemma pole_fallback_not_engaged :
  let s := mkSettings 90 0 "" 12 true 75 0.2 PI 90 0 70 in
  let markerPos := MarkerPlacement.markerPosition s in
  ~ (0.9 < Rabs (vy (SurfaceCamera.surfaceNormal markerPos))
     /\ SurfaceCamera.referenceVector markerPos = vec3 1 0 0).
Proof.
  intros s markerPos [H _]. revert H. unfold markerPos.
  rewrite (normal_y_pole s) by (left; reflexivity).
  cbn [earthTilt s].
  replace (MathJS.degToRad 90) with (PI / 2)
    by (unfold MathJS.degToRad, MathJS.DEG2RAD; field).
  rewrite cos_PI2, Rabs_R0. lra.
Qed.

(** ** The tilt of the preview over the life of the program *)

Lemma pipTilt_updateView (sim : RingSimulator) :
  pipTilt (settings (updateView sim)) = pipTilt (settings sim).
Proof.
  destruct (settings_updateView sim) as [-> | ->]; reflexivity.
Qed.

Lemma pipTilt_onEarthClick (hit : option Vector3) (sim : RingSimulator) :
  pipTilt (settings (onEarthClick hit sim)) = pipTilt (settings sim).
Proof.
  unfold onEarthClick.
  destruct (hasDragged sim); [reflexivity |].
  destruct hit as [p |]; [| reflexivity].
  destruct (findClosestLocation _ _); cbn [settings map_settings];
    try (cbn [pipTilt with_selectedLocation]);
    rewrite pipTilt_updateView; reflexivity.
Qed.

Lemma pipTilt_stopDragging (sim : RingSimulator) :
  pipTilt (settings (stopDragging sim)) = pipTilt (settings sim).
Proof.
  unfold stopDragging. destruct (isDragging (pipDrag sim)); reflexivity.
Qed.

Lemma pipTilt_onKeyDown (key : Key) (b : bool) (sim : RingSimulator) :
  pipTilt (settings (onKeyDown key b sim)) = pipTilt (settings sim).
Proof.
  unfold onKeyDown.
  destruct (negb (pipEnabled (settings sim)) || b); [reflexivity |].
  destruct key; try rewrite settings_updatePictureInPicture; reflexivity.
Qed.

Lemma pipTilt_onSelectLocation (value : string) (sim : RingSimulator) :
  pipTilt (settings (onSelectLocation value sim)) = pipTilt (settings sim).
Proof.
  unfold onSelectLocation.
  destruct (value =? "Custom")%string; [reflexivity |].
  destruct (find _ locations); [| reflexivity].
  rewrite pipTilt_updateView. reflexivity.
Qed.

Lemma pipTilt_onCanvasMouseMove (mx my : R) (sim : RingSimulator) :
  pipTilt (settings (onCanvasMouseMove mx my sim)) = pipTilt (settings sim).
Proof.
  unfold onCanvasMouseMove. destruct (isDraggingOrbit sim); reflexivity.
Qed.

(** The clamp of the [mousemove] listener. *)
Lemma clamp_10_170 (x : R) :
  10 <= MathJS.max 10 (MathJS.min 170 x) <= 170.
Proof.
  unfold MathJS.max, MathJS.min. split.
  - apply Rmax_l.
  - apply Rmax_lub; [lra | apply Rmin_l].
Qed.

(** A handler keeps the tilt, or stores a clamped value. *)
Lemma pipTilt_handle (e : Event) (sim : RingSimulator) :
  pipTilt (settings (handle e sim)) = pipTilt (settings sim)
  \/ exists x : R,
       pipTilt (settings (handle e sim))
       = MathJS.max 10 (MathJS.min 170 x).
Proof.
  destruct e; cbn [handle];
    try (left;
         first [ apply pipTilt_onEarthClick
               | apply pipTilt_onKeyDown
               | apply pipTilt_onSelectLocation
               | apply pipTilt_onCanvasMouseMove
               | rewrite pipTilt_stopDragging; reflexivity
               | rewrite pipTilt_updateView; reflexivity
               | rewrite settings_updatePictureInPicture; reflexivity
               | reflexivity ]).
  - unfold onPipMouseMove.
    destruct (negb (isDragging (pipDrag sim))); [left; reflexivity |].
    right. eexists. rewrite settings_updatePictureInPicture. reflexivity.
  - unfold onPipWheel. left.
    rewrite settings_updatePictureInPicture. reflexivity.
  - left. unfold animate. destruct (pipEnabled (settings sim));
      [rewrite settings_updatePictureInPicture |]; reflexivity.
Qed.

(** C4.  In every state the program can reach from its constructor through
    any sequence of events, the tilt read by [updatePictureInPicture] for
    the look-direction blend lies between 10 and 170 degrees, so it is
    neither 0 nor 180: the only handler that writes it clamps the value
    before storing it. *)
Theorem reachable_pipTilt_clamped (sim : RingSimulator) :
  reachable sim ->
  SurfaceCamera.tiltRad (settings sim)
  = MathJS.degToRad (pipTilt (settings sim))
  /\ 10 <= pipTilt (settings sim) <= 170
  /\ pipTilt (settings sim) <> 0
  /\ pipTilt (settings sim) <> 180.
Proof.
  intros Hr. split; [reflexivity |].
  assert (H : 10 <= pipTilt (settings sim) <= 170).
  { induction Hr as [| e sim Hr IH].
    - cbn. lra.
    - destruct (pipTilt_handle e sim) as [-> | [x ->]];
        [exact IH | apply clamp_10_170]. }
  split; [exact H |]. split; lra.
Qed.

Lemma reachable_pipTilt_clamped_witness :
  let sim := run [PipMouseDown 0 0; PipMouseMove 0 1000] constructed in
  SurfaceCamera.tiltRad (settings sim)
  = MathJS.degToRad (pipTilt (settings sim))
  /\ 10 <= pipTilt (settings sim) <= 170
  /\ pipTilt (settings sim) <> 0
  /\ pipTilt (settings sim) <> 180.
Proof.
  intros sim. apply (reachable_pipTilt_clamped sim).
  unfold sim. cbn [run].
  apply reachable_handle, reachable_handle, reachable_constructed.
Defined.

(** ** The picking inverse against its description *)

Lemma transpose_tiltMatrix (s : Settings) :
  transpose (MarkerPlacement.tiltMatrix s) = Picking.tiltMatrix s.
Proof.
  unfold transpose, MarkerPlacement.tiltMatrix, Picking.tiltMatrix,
    M4.makeRotationZ; cbn.
  rewrite cos_neg, sin_neg. apply mat4_eq; cbn; ring.
Qed.

Lemma transpose_textureRotationMatrix (s : Settings) :
  transpose (MarkerPlacement.textureRotationMatrix s)
  = Picking.textureRotationMatrix s.
Proof.
  unfold transpose, MarkerPlacement.textureRotationMatrix,
    Picking.textureRotationMatrix, M4.makeRotationY; cbn.
  rewrite cos_neg, sin_neg. apply mat4_eq; cbn; ring.
Qed.

Lemma tiltMatrix_inverse (s : Settings) :
  M4.multiplyMatrices (Picking.tiltMatrix s) (MarkerPlacement.tiltMatrix s)
  = identity4.
Proof.
  pose proof (sin2_cos2' (MathJS.degToRad (earthTilt s))) as H.
  unfold Picking.tiltMatrix, MarkerPlacement.tiltMatrix, M4.multiplyMatrices,
    M4.makeRotationZ, identity4; cbn.
  rewrite cos_neg, sin_neg. apply mat4_eq; cbn; nsatz.
Qed.

Lemma textureRotationMatrix_inverse (s : Settings) :
  M4.multiplyMatrices (Picking.textureRotationMatrix s)
    (MarkerPlacement.textureRotationMatrix s)
  = identity4.
Proof.
  pose proof (sin2_cos2' (textureRotation s)) as H.
  unfold Picking.textureRotationMatrix, MarkerPlacement.textureRotationMatrix,
    M4.multiplyMatrices, M4.makeRotationY, identity4; cbn.
  rewrite cos_neg, sin_neg. apply mat4_eq; cbn; nsatz.
Qed.

Lemma length_untiltedPoint (q : Vector3) (s : Settings) :
  V3.length (Picking.untiltedPoint q s) = V3.length q.
Proof.
  unfold Picking.untiltedPoint, Picking.tiltMatrix,
    Picking.textureRotationMatrix.
  rewrite applyMatrix4_makeRotationY, applyMatrix4_makeRotationZ.
  unfold V3.length; cbn. f_equal.
  pose proof (sin2_cos2' (- textureRotation s)) as Ht.
  pose proof (sin2_cos2' (- MathJS.degToRad (earthTilt s))) as Hz.
  nsatz.
Qed.

Lemma radToDeg_range (x : R) :
  - PI < x <= PI -> -180 < MathJS.radToDeg x <= 180.
Proof.
  intros [Hlo Hhi]. pose proof PI_RGT_0 as Hpi.
  unfold MathJS.radToDeg, MathJS.RAD2DEG.
  assert (Hk : 0 < 180 / PI)
    by (apply Rdiv_lt_0_compat; lra).
  assert (Hpk : PI * (180 / PI) = 180) by (field; lra).
  set (k := 180 / PI) in *. clearbody k. split; nra.
Qed.

(** C5.  For a hit point at a nonzero distance from the origin, the point
    that the picking code converts is the hit point with the tilt undone
    first and the texture rotation undone second, each by the inverse of
    the rotation the placement applied; the latitude is 90 degrees minus
    the arc cosine, in degrees, of the ratio of the height to the distance
    from the origin clamped between -1 and 1; the longitude is [atan2] of
    the Z and X coordinates in degrees, above -180 and at most 180. *)
Theorem pick_matches_description (q : Vector3) (s : Settings) :
  V3.length q <> 0 ->
  M4.multiplyMatrices (transpose (MarkerPlacement.tiltMatrix s))
    (MarkerPlacement.tiltMatrix s) = identity4
  /\ M4.multiplyMatrices (transpose (MarkerPlacement.textureRotationMatrix s))
       (MarkerPlacement.textureRotationMatrix s) = identity4
  /\ Picking.untiltedPoint q s = PickSpec.unrotated q s
  /\ Picking.radius q s = V3.length q
  /\ Picking.radius q s <> 0
  /\ Picking.pickLatitude q s = PickSpec.latitudeOf q s
  /\ Picking.pickLongitude q s = PickSpec.longitudeOf q s
  /\ -180 < Picking.pickLongitude q s <= 180.
Proof.
  intros Hq.
  assert (Hu : Picking.untiltedPoint q s = PickSpec.unrotated q s).
  { unfold PickSpec.unrotated.
    rewrite transpose_tiltMatrix, transpose_textureRotationMatrix.
    reflexivity. }
  repeat split.
  - rewrite transpose_tiltMatrix. apply tiltMatrix_inverse.
  - rewrite transpose_textureRotationMatrix.
    apply textureRotationMatrix_inverse.
  - exact Hu.
  - apply length_untiltedPoint.
  - unfold Picking.radius. rewrite length_untiltedPoint. exact Hq.
  - unfold Picking.pickLatitude, PickSpec.latitudeOf, Picking.radius.
    rewrite length_untiltedPoint, Hu. reflexivity.
  - unfold Picking.pickLongitude, PickSpec.longitudeOf. rewrite Hu.
    reflexivity.
  - apply radToDeg_range, atan2_range.
  - apply radToDeg_range, atan2_range.
Qed.

Lemma pick_matches_description_witness :
  let q := vec3 0 0 6371 in
  let s := initialSettings in
  M4.multiplyMatrices (transpose (MarkerPlacement.tiltMatrix s))
    (MarkerPlacement.tiltMatrix s) = identity4
  /\ M4.multiplyMatrices (transpose (MarkerPlacement.textureRotationMatrix s))
       (MarkerPlacement.textureRotationMatrix s) = identity4
  /\ Picking.untiltedPoint q s = PickSpec.unrotated q s
  /\ Picking.radius q s = V3.length q
  /\ Picking.radius q s <> 0
  /\ Picking.pickLatitude q s = PickSpec.latitudeOf q s
  /\ Picking.pickLongitude q s = PickSpec.longitudeOf q s
  /\ -180 < Picking.pickLongitude q s <= 180.
Proof.
  intros q s. apply (pick_matches_description q s).
  unfold q, V3.length; cbn.
  replace (0 * 0 + 0 * 0 + 6371 * 6371) with (6371 * 6371) by ring.
  rewrite sqrt_square; lra.
Defined.

(** ** The label after a click *)

Lemma Rltb_true (a b : R) : Rltb a b = true <-> a < b.
Proof.
  unfold Rltb. destruct (Rlt_dec a b); split; intros; try assumption;
    try reflexivity; try discriminate; contradiction.
Qed.

Lemma nearLocation_withinTolerance (lat lon : R) (loc : Location) :
  nearLocation 2 lat lon loc = true <-> withinTolerance lat lon loc.
Proof.
  unfold nearLocation, withinTolerance, MathJS.abs.
  rewrite andb_true_iff, !Rltb_true. reflexivity.
Qed.

(** No two catalogued locations are within the tolerance of one
    coordinate: their longitudes are more than four degrees apart. *)
Lemma withinTolerance_unique (lat lon : R) (loc loc' : Location) :
  In loc locations -> In loc' locations ->
  withinTolerance lat lon loc -> withinTolerance lat lon loc' ->
  loc = loc'.
Proof.
  intros Hin Hin' [_ Hlon] [_ Hlon'].
  apply Rabs_def2 in Hlon. apply Rabs_def2 in Hlon'.
  unfold locations in Hin, Hin'. cbn [In] in Hin, Hin'.
  repeat (destruct Hin as [<- | Hin]); try contradiction;
    repeat (destruct Hin' as [<- | Hin']); try contradiction;
    cbn [loc_longitude] in Hlon, Hlon';
    first [reflexivity | exfalso; lra].
Qed.

Lemma selectedLocation_updateView_Custom (sim : RingSimulator) :
  selectedLocation (settings sim) = "Custom"%string ->
  selectedLocation (settings (updateView sim)) = "Custom"%string.
Proof.
  intros H. destruct (settings_updateView sim) as [-> | ->];
    [exact H | reflexivity].
Qed.

Lemma findClosestLocation_Tokyo :
  findClosestLocation 35.6833 (-139.7667)
  = Some (mkLocation "Tokyo" 35.6833 (-139.7667)).
Proof.
  unfold findClosestLocation, locations. cbn [find].
  assert (H1 : nearLocation 2 35.6833 (-139.7667)
                 (mkLocation "New York" 40.7128 74.0061) = false).
  { apply not_true_is_false. rewrite nearLocation_withinTolerance.
    intros [H _]. apply Rabs_def2 in H. cbn [loc_latitude] in H. lra. }
  assert (H2 : nearLocation 2 35.6833 (-139.7667)
                 (mkLocation "Tokyo" 35.6833 (-139.7667)) = true).
  { rewrite nearLocation_withinTolerance. unfold withinTolerance.
    cbn [loc_latitude loc_longitude].
    split; apply Rabs_def1; lra. }
  rewrite H1, H2. reflexivity.
Qed.

(** C9.  Label rule.  After a click that hits the planet (and is not the
    end of a drag): if some catalogued location is within two degrees of the
    picked coordinate in latitude and in longitude, the selected label is
    the name of such a location, and that location is the nearest of those
    within the tolerance; if none is, the label is "Custom".  And a click
    on the position of the marker placed at Tokyo's coordinates, for any
    texture rotation and tilt, picks those coordinates and is labelled
    "Tokyo". *)
Theorem click_label (sim : RingSimulator) (p : Vector3) :
  hasDragged sim = false ->
  let lat := Picking.pickLatitude p (settings sim) in
  let lon := Picking.pickLongitude p (settings sim) in
  let sim' := onEarthClick (Some p) sim in
  ((exists loc, In loc locations /\ withinTolerance lat lon loc) ->
   exists loc,
     In loc locations /\ withinTolerance lat lon loc
     /\ (forall loc', In loc' locations -> withinTolerance lat lon loc' ->
         distance2 lat lon loc <= distance2 lat lon loc')
     /\ selectedLocation (settings sim') = name loc)
  /\ ((forall loc, In loc locations -> ~ withinTolerance lat lon loc) ->
      selectedLocation (settings sim') = "Custom"%string)
  /\ (let tokyo :=
        MarkerPlacement.markerPosition
          (with_location 35.6833 (-139.7667) (settings sim)) in
      let simT := onEarthClick (Some tokyo) sim in
      latitude (settings simT) = 35.6833
      /\ longitude (settings simT) = -139.7667
      /\ selectedLocation (settings simT) = "Tokyo"%string).
Proof.
  intros Hdrag lat lon sim'.
  assert (Hcustom : forall q,
             findClosestLocation (Picking.pickLatitude q (settings sim))
               (Picking.pickLongitude q (settings sim)) = None ->
             selectedLocation (settings (onEarthClick (Some q) sim))
             = "Custom"%string).
  { intros q E. unfold onEarthClick. rewrite Hdrag, E.
    apply selectedLocation_updateView_Custom. reflexivity. }
  assert (Hnamed : forall q loc,
             findClosestLocation (Picking.pickLatitude q (settings sim))
               (Picking.pickLongitude q (settings sim)) = Some loc ->
             settings (onEarthClick (Some q) sim)
             = with_selectedLocation (name loc)
                 (settings
                    (updateView
                       (map_settings
                          (fun s =>
                             with_selectedLocation "Custom"
                               (with_location
                                  (Picking.pickLatitude q (settings sim))
                                  (Picking.pickLongitude q (settings sim))
                                  s))
                          sim)))).
  { intros q loc E. unfold onEarthClick. rewrite Hdrag, E. reflexivity. }
  split; [| split].
  - intros [loc0 [Hin0 Hw0]].
    destruct (findClosestLocation lat lon) as [loc |] eqn:E.
    + pose proof E as E'. unfold findClosestLocation in E'.
      apply find_some in E'. destruct E' as [Hin Hnear].
      apply nearLocation_withinTolerance in Hnear.
      exists loc. repeat split; try assumption; try apply Hnear.
      * intros loc' Hin' Hw'.
        rewrite (withinTolerance_unique lat lon loc loc' Hin Hin' Hnear Hw').
        apply Rle_refl.
      * unfold sim'. rewrite (Hnamed p loc E). reflexivity.
    + unfold findClosestLocation in E.
      pose proof (find_none _ _ E loc0 Hin0) as Hf.
      apply nearLocation_withinTolerance in Hw0. congruence.
  - intros Hnone.
    destruct (findClosestLocation lat lon) as [loc |] eqn:E.
    + pose proof E as E'. unfold findClosestLocation in E'.
      apply find_some in E'. destruct E' as [Hin Hnear].
      apply nearLocation_withinTolerance in Hnear.
      exfalso. exact (Hnone loc Hin Hnear).
    + apply (Hcustom p E).
  - intros tokyo simT.
    set (sT := with_location 35.6833 (-139.7667) (settings sim)).
    assert (Hpick : Picking.pickLatitude tokyo sT = latitude sT
                    /\ Picking.pickLongitude tokyo sT = longitude sT).
    { apply (pick_placed_exact tokyo sT
               (EARTH_RADIUS * MarkerPlacement.surfaceOffset)).
      - apply offset_radius_pos.
      - cbn [sT latitude with_location]. lra.
      - cbn [sT longitude with_location]. lra.
      - apply untiltedPoint_markerPosition. }
    change (Picking.pickLatitude tokyo sT)
      with (Picking.pickLatitude tokyo (settings sim)) in Hpick.
    change (Picking.pickLongitude tokyo sT)
      with (Picking.pickLongitude tokyo (settings sim)) in Hpick.
    cbn [sT latitude longitude with_location] in Hpick.
    destruct Hpick as [Hlat Hlon].
    assert (E : findClosestLocation
                  (Picking.pickLatitude tokyo (settings sim))
                  (Picking.pickLongitude tokyo (settings sim))
                = Some (mkLocation "Tokyo" 35.6833 (-139.7667)))
      by (rewrite Hlat, Hlon; apply findClosestLocation_Tokyo).
    unfold simT. rewrite (Hnamed tokyo _ E).
    cbn [latitude longitude selectedLocation with_selectedLocation name].
    destruct (settings_updateView
                (map_settings
                   (fun s =>
                      with_selectedLocation "Custom"
                        (with_location
                           (Picking.pickLatitude tokyo (settings sim))
                           (Picking.pickLongitude tokyo (settings sim)) s))
                   sim)) as [-> | ->];
      cbn [settings map_settings latitude longitude with_selectedLocation
             with_location];
      repeat split; assumption.
Qed.

Lemma click_label_witness :
  let sim := constructed in
  let p := vec3 0 0 6371 in
  let lat := Picking.pickLatitude p (settings sim) in
  let lon := Picking.pickLongitude p (settings sim) in
  let sim' := onEarthClick (Some p) sim in
  ((exists loc, In loc locations /\ withinTolerance lat lon loc) ->
   exists loc,
     In loc locations /\ withinTolerance lat lon loc
     /\ (forall loc', In loc' locations -> withinTolerance lat lon loc' ->
         distance2 lat lon loc <= distance2 lat lon loc')
     /\ selectedLocation (settings sim') = name loc)
  /\ ((forall loc, In loc locations -> ~ withinTolerance lat lon loc) ->
      selectedLocation (settings sim') = "Custom"%string)
  /\ (let tokyo :=
        MarkerPlacement.markerPosition
          (with_location 35.6833 (-139.7667) (settings sim)) in
      let simT := onEarthClick (Some tokyo) sim in
      latitude (settings simT) = 35.6833
      /\ longitude (settings simT) = -139.7667
      /\ selectedLocation (settings simT) = "Tokyo"%string).
Proof.
  intros sim p. apply (click_label sim p). reflexivity.
Defined.

(** ** What the marker depends on *)

Lemma marker_depends_on_four (s1 s2 : Settings) :
  latitude s1 = latitude s2 ->
  longitude s1 = longitude s2 ->
  textureRotation s1 = textureRotation s2 ->
  earthTilt s1 = earthTilt s2 ->
  MarkerPlacement.markerPosition s1 = MarkerPlacement.markerPosition s2
  /\ MarkerPlacement.markerQuaternion s1 = MarkerPlacement.markerQuaternion s2.
Proof.
  intros Hlat Hlon Htex Htilt.
  assert (Hp : MarkerPlacement.surfacePoint s1
               = MarkerPlacement.surfacePoint s2).
  { unfold MarkerPlacement.surfacePoint, MarkerPlacement.rawPosition,
      MarkerPlacement.rotationMatrix, MarkerPlacement.tiltMatrix,
      MarkerPlacement.textureRotationMatrix, MarkerPlacement.phi,
      MarkerPlacement.theta.
    rewrite Hlat, Hlon, Htex, Htilt. reflexivity. }
  unfold MarkerPlacement.markerPosition, MarkerPlacement.markerQuaternion,
    MarkerPlacement.normal.
  rewrite Hp. split; reflexivity.
Qed.

(** C10.  Frame property: two program states whose settings agree on
    latitude, longitude, texture rotation and tilt get the same marker
    position and the same marker quaternion from [updateLocationMarker],
    and from [updateView], whatever their time of day, preview height,
    rotation, tilt and field of view (and whatever the rest of the
    state). *)
Theorem marker_frame (sim1 sim2 : RingSimulator) :
  latitude (settings sim1) = latitude (settings sim2) ->
  longitude (settings sim1) = longitude (settings sim2) ->
  textureRotation (settings sim1) = textureRotation (settings sim2) ->
  earthTilt (settings sim1) = earthTilt (settings sim2) ->
  position (locationMarker (updateLocationMarker sim1))
  = position (locationMarker (updateLocationMarker sim2))
  /\ quaternion (locationMarker (updateLocationMarker sim1))
     = quaternion (locationMarker (updateLocationMarker sim2))
  /\ locationMarker (updateView sim1) = locationMarker (updateView sim2).
Proof.
  intros Hlat Hlon Htex Htilt.
  destruct (marker_depends_on_four _ _ Hlat Hlon Htex Htilt) as [Hp Hq].
  split; [exact Hp |]. split; [exact Hq |].
  rewrite !locationMarker_updateView, Hp, Hq. reflexivity.
Qed.

Lemma marker_frame_witness :
  let sim1 := constructed in
  let sim2 :=
    map_settings
      (fun s =>
         with_timeOfDay 6
           (with_pipHeight 3
              (with_pipRotation 1 (with_pipTilt 120 (with_pipFov 40 s)))))
      constructed in
  position (locationMarker (updateLocationMarker sim1))
  = position (locationMarker (updateLocationMarker sim2))
  /\ quaternion (locationMarker (updateLocationMarker sim1))
     = quaternion (locationMarker (updateLocationMarker sim2))
  /\ locationMarker (updateView sim1) = locationMarker (updateView sim2).
Proof.
  intros sim1 sim2. apply (marker_frame sim1 sim2); reflexivity.
Defined.

(** * Further properties of the code *)

(** ** The placed marker *)

(** X1.  Whatever the settings, [updateLocationMarker] puts the marker at
    distance [EARTH_RADIUS * 1.02] from the centre of the planet. *)
Theorem marker_distance (sim : RingSimulator) :
  V3.length (position (locationMarker (updateLocationMarker sim)))
  = EARTH_RADIUS * 1.02.
Proof.
  cbn [updateLocationMarker with_locationMarker locationMarker position].
  rewrite markerPosition_normal, length_multiplyScalar, length_normal.
  - unfold MarkerPlacement.surfaceOffset. ring.
  - pose proof offset_radius_pos. lra.
Qed.

Lemma qlength_sqr (q : Quaternion) :
  Rot.qlength q * Rot.qlength q
  = qx q * qx q + qy q * qy q + qz q * qz q + qw q * qw q.
Proof. unfold Rot.qlength. apply sqrt_sqrt. nra. Qed.

Lemma qlength_qnormalize (q : Quaternion) :
  Rot.qlength (Rot.qnormalize q) = 1.
Proof.
  unfold Rot.qnormalize.
  destruct (Req_dec_T (Rot.qlength q) 0) as [H0 | Hne].
  - unfold Rot.qlength; cbn.
    replace (0 * 0 + 0 * 0 + 0 * 0 + 1 * 1) with 1 by ring. apply sqrt_1.
  - pose proof (qlength_sqr q) as Hq.
    unfold Rot.qlength at 1; cbn.
    set (l := Rot.qlength q) in *. clearbody l.
    apply sqrt_lem_1; [nra | lra |].
    replace (qx q * (1 / l) * (qx q * (1 / l))
             + qy q * (1 / l) * (qy q * (1 / l))
             + qz q * (1 / l) * (qz q * (1 / l))
             + qw q * (1 / l) * (qw q * (1 / l)))
      with ((qx q * qx q + qy q * qy q + qz q * qz q + qw q * qw q)
            / (l * l)) by (field; assumption).
    rewrite <- Hq. field. assumption.
Qed.

Lemma qlength_setFromUnitVectors (a b : Vector3) :
  Rot.qlength (Rot.setFromUnitVectors a b) = 1.
Proof.
  unfold Rot.setFromUnitVectors.
  destruct (Rlt_dec _ _); [destruct (Rlt_dec _ _) |];
    apply qlength_qnormalize.
Qed.

(** X2.  Whatever the settings, the quaternion that [updateLocationMarker]
    gives the marker has length one, in the branch for opposite vectors
    too. *)
Theorem marker_quaternion_unit (sim : RingSimulator) :
  Rot.qlength (quaternion (locationMarker (updateLocationMarker sim))) = 1.
Proof.
  cbn [updateLocationMarker with_locationMarker locationMarker quaternion].
  apply qlength_setFromUnitVectors.
Qed.

Lemma EPSILON_pos : 0 < MathJS.EPSILON.
Proof.
  unfold MathJS.EPSILON. apply Rinv_0_lt_compat, pow_lt. lra.
Qed.

(** Turning the Y axis by the quaternion from the Y axis to a unit vector
    [n] gives [n], outside the branch for opposite vectors. *)
Lemma applyQuaternion_setFromUnitVectors_up (n : Vector3) :
  V3.length n = 1 ->
  MathJS.EPSILON <= 1 + vy n ->
  applyQuaternion MarkerPlacement.upVector
    (Rot.setFromUnitVectors MarkerPlacement.upVector n) = n.
Proof.
  intros Hn Hr. pose proof EPSILON_pos as He.
  apply dot_self_unit in Hn. unfold V3.dot in Hn.
  unfold Rot.setFromUnitVectors, MarkerPlacement.upVector, V3.dot.
  cbn [vx vy vz].
  destruct (Rlt_dec (0 * vx n + 1 * vy n + 0 * vz n + 1) MathJS.EPSILON)
    as [H | _]; [lra |].
  match goal with
  | |- applyQuaternion _ (Rot.qnormalize ?q) = _ =>
      pose proof (qlength_sqr q) as Hq; cbn [qx qy qz qw] in Hq;
      unfold Rot.qnormalize; cbv zeta;
      set (l := Rot.qlength q) in *
  end.
  clearbody l.
  destruct n as [x y z]; cbn [vx vy vz] in *.
  assert (Hl2 : l * l = 2 * (1 + y)) by nra.
  assert (Hl : l <> 0) by (intros H0; rewrite H0 in Hl2; lra).
  destruct (Req_dec_T l 0) as [H0 | _]; [contradiction |].
  unfold applyQuaternion. cbn [qx qy qz qw vx vy vz].
  assert (Hinv : 1 / l * (1 / l) = / (2 * (1 + y))).
  { rewrite <- Hl2. field. assumption. }
  set (k := 1 / l) in *. clearbody k.
  assert (Hk : k * k * (2 * (1 + y)) = 1) by (rewrite Hinv; field; lra).
  apply vec3_eq; nsatz.
Qed.

(** X3.  Unless the normal points within [Number.EPSILON] of straight
    down, the quaternion of the marker turns the Y axis of the marker group
    onto the surface normal. *)
Theorem marker_quaternion_aligns (sim : RingSimulator) :
  MathJS.EPSILON <= 1 + vy (MarkerPlacement.normal (settings sim)) ->
  applyQuaternion (vec3 0 1 0)
    (quaternion (locationMarker (updateLocationMarker sim)))
  = MarkerPlacement.normal (settings sim).
Proof.
  intros H.
  cbn [updateLocationMarker with_locationMarker locationMarker quaternion].
  apply applyQuaternion_setFromUnitVectors_up;
    [apply length_normal | exact H].
Qed.

Lemma marker_quaternion_aligns_witness :
  let sim := map_settings (with_earthTilt 0) (map_settings (with_latitude 90) constructed) in
  applyQuaternion (vec3 0 1 0)
    (quaternion (locationMarker (updateLocationMarker sim)))
  = MarkerPlacement.normal (settings sim).
Proof.
  intros sim. apply (marker_quaternion_aligns sim).
  rewrite normal_north_pole by reflexivity.
  cbn [vy]. unfold sim. cbn [settings map_settings earthTilt with_earthTilt].
  replace (MathJS.degToRad 0) with 0 by (unfold MathJS.degToRad; ring).
  rewrite cos_0.
  assert (MathJS.EPSILON <= 1); [| lra].
  unfold MathJS.EPSILON. rewrite <- Rinv_1.
  apply Rinv_le_contravar; [lra |].
  apply pow_R1_Rle. lra.
Defined.

(** ** The scene follows the settings *)

Lemma updatePictureInPicture_on (sim : RingSimulator) :
  pipContainer sim = true ->
  pipEnabled (settings sim) = true ->
  updatePictureInPicture sim
  = mkSim (settings sim) (earth_rotation sim) (locationMarker sim)
      (mkCamera
         (SurfaceCamera.cameraPos (position (locationMarker sim))
            (settings sim))
         (SurfaceCamera.surfaceNormal (position (locationMarker sim)))
         (pipFov (settings sim))
         (Some
            (SurfaceCamera.target (position (locationMarker sim))
               (settings sim))))
      true
      (SurfaceCamera.viewDirection (position (locationMarker sim))
         (settings sim))
      (latitude (settings sim), longitude (settings sim))
      (isDraggingOrbit sim) (dragTotalMovement sim) (hasDragged sim)
      (pipContainer sim) (pipDrag sim).
Proof.
  intros Hc He. unfold updatePictureInPicture. rewrite Hc, He. reflexivity.
Qed.

Lemma updatePictureInPicture_off (sim : RingSimulator) :
  pipEnabled (settings sim) = false ->
  updatePictureInPicture sim = sim.
Proof.
  intros He. unfold updatePictureInPicture. rewrite He.
  destruct (negb (pipContainer sim)); reflexivity.
Qed.

Lemma sameGeometry_refl (s : Settings) : sameGeometry s s.
Proof. unfold sameGeometry. repeat (split; [reflexivity |]). reflexivity. Qed.

Lemma placedMarker_ext (s1 s2 : Settings) :
  latitude s1 = latitude s2 ->
  longitude s1 = longitude s2 ->
  textureRotation s1 = textureRotation s2 ->
  earthTilt s1 = earthTilt s2 ->
  placedMarker s1 = placedMarker s2.
Proof.
  intros Hlat Hlon Htex Htilt.
  destruct (marker_depends_on_four _ _ Hlat Hlon Htex Htilt) as [Hp Hq].
  unfold placedMarker. rewrite Hp, Hq. reflexivity.
Qed.

(** The marker, the surface camera and the arrow that the settings call
    for do not depend on the selected label. *)
Lemma sameGeometry_scene (s1 s2 : Settings) :
  sameGeometry s1 s2 ->
  placedMarker s1 = placedMarker s2
  /\ surfaceCameraOf s1 = surfaceCameraOf s2
  /\ SurfaceCamera.viewDirection (MarkerPlacement.markerPosition s1) s1
     = SurfaceCamera.viewDirection (MarkerPlacement.markerPosition s2) s2.
Proof.
  intros (Hlat & Hlon & Htod & Hen & Hfov & Hh & Htex & Htilt & Hrot & Hpt).
  destruct (marker_depends_on_four _ _ Hlat Hlon Htex Htilt) as [Hp Hq].
  split; [now apply placedMarker_ext |].
  assert (Hv : SurfaceCamera.viewDirection (MarkerPlacement.markerPosition s1)
                 s1
               = SurfaceCamera.viewDirection
                   (MarkerPlacement.markerPosition s2) s2).
  { rewrite !viewDirection_tangent.
    unfold SurfaceCamera.tangentViewDirection, SurfaceCamera.totalRotation,
      SurfaceCamera.hourAngle.
    rewrite Hp, Htod, Hrot. reflexivity. }
  split; [| exact Hv].
  unfold surfaceCameraOf, SurfaceCamera.target, SurfaceCamera.lookDirection,
    SurfaceCamera.cameraPos, SurfaceCamera.planeFactor,
    SurfaceCamera.tiltFactor, SurfaceCamera.tiltRad.
  cbv zeta. rewrite Hv, Hp, Hh, Hfov, Hpt. reflexivity.
Qed.

Lemma consistent_sameScene (sim1 sim2 : RingSimulator) :
  sameScene sim1 sim2 -> consistent sim1 -> consistent sim2.
Proof.
  intros (Hg & Hm & Hcam & Hav & Had & Hlp & Hpc & Hta & Hra & Hex & Hez).
  intros [(Hc & Hf & Ht & Hr & Hx & Hz) [Hmk Hpip]].
  pose proof Hg as
    (Hlat & Hlon & Htod & Hen & Hfov & Hh & Htex & Htilt & Hrot & Hpt).
  destruct (sameGeometry_scene _ _ Hg) as (Hpm & Hsc & Hvd).
  unfold consistent, base.
  split; [| split].
  - split; [congruence |]. split; [congruence |]. split; [congruence |].
    split; [congruence |]. split; congruence.
  - congruence.
  - intros He. rewrite <- Hen in He. destruct (Hpip He) as (H1 & H2 & H3 & H4).
    split; [congruence |]. split; [congruence |]. split; congruence.
Qed.

(** Redrawing the preview makes a state that is consistent but for the
    camera consistent. *)
Lemma consistent_updatePictureInPicture (sim : RingSimulator) :
  base sim ->
  locationMarker sim = placedMarker (settings sim) ->
  consistent (updatePictureInPicture sim).
Proof.
  intros Hb Hm. pose proof Hb as (Hc & Hf & Ht & Hr & Hx & Hz).
  destruct (pipEnabled (settings sim)) eqn:He.
  - rewrite (updatePictureInPicture_on sim Hc He), Hm.
    unfold consistent, base.
    cbn [settings earth_rotation locationMarker pipCamera arrowVisible
           arrowDirection lastPipLocation pipContainer pipDrag cam_fov
           placedMarker position].
    split; [| split; [reflexivity |]].
    + split; [assumption |]. split; [reflexivity |].
      split; [assumption |]. split; [assumption |]. split; assumption.
    + intros _. unfold surfaceCameraOf.
      split; [reflexivity |]. split; [reflexivity |].
      split; reflexivity.
  - rewrite (updatePictureInPicture_off sim He).
    unfold consistent. split; [exact Hb |]. split; [exact Hm |].
    intros H. congruence.
Qed.

Lemma updateView_cases (sim : RingSimulator) :
  let sim2 :=
    if pipEnabled (settings sim)
    then updatePictureInPicture (updateLocationMarker sim)
    else updateLocationMarker sim in
  let sim3 :=
    with_earth_rotation
      (euler (ex (earth_rotation sim))
             (textureRotation (settings sim)
              + SurfaceCamera.hourAngle (settings sim))
             (ez (earth_rotation sim)))
      sim2 in
  updateView sim = sim3
  \/ updateView sim = map_settings (with_selectedLocation "Custom") sim3.
Proof.
  cbv zeta. unfold updateView. cbv zeta.
  change (settings (updateLocationMarker sim)) with (settings sim).
  set (sim2 := if pipEnabled (settings sim)
               then updatePictureInPicture (updateLocationMarker sim)
               else updateLocationMarker sim).
  assert (Hs : settings sim2 = settings sim).
  { unfold sim2. destruct (pipEnabled (settings sim));
      [rewrite settings_updatePictureInPicture |]; reflexivity. }
  assert (He : earth_rotation sim2 = earth_rotation sim).
  { unfold sim2. destruct (pipEnabled (settings sim));
      [rewrite earth_rotation_updatePictureInPicture |]; reflexivity. }
  rewrite Hs, He.
  destruct (negb (selectedLocation (settings sim) =? "Custom")%string);
    [| left; reflexivity].
  destruct (find _ locations); [left | right]; reflexivity.
Qed.

Ltac same_scene :=
  unfold sameScene, sameGeometry;
  repeat match goal with |- _ /\ _ => split end; reflexivity.

(** [updateView] makes the scene consistent. *)
Lemma consistent_updateView (sim : RingSimulator) :
  base sim -> consistent (updateView sim).
Proof.
  intros Hb.
  set (sim2 := if pipEnabled (settings sim)
               then updatePictureInPicture (updateLocationMarker sim)
               else updateLocationMarker sim).
  assert (H2 : consistent sim2).
  { unfold sim2. destruct (pipEnabled (settings sim)) eqn:He.
    - apply consistent_updatePictureInPicture; [exact Hb | reflexivity].
    - unfold consistent. split; [exact Hb |]. split; [reflexivity |].
      cbn [settings updateLocationMarker with_locationMarker].
      intros H. congruence. }
  assert (He : earth_rotation sim2 = earth_rotation sim).
  { unfold sim2. destruct (pipEnabled (settings sim));
      [rewrite earth_rotation_updatePictureInPicture |]; reflexivity. }
  pose proof (updateView_cases sim) as Hcases. cbv zeta in Hcases.
  fold sim2 in Hcases. rewrite <- He in Hcases.
  destruct Hcases as [-> | ->];
    (apply (consistent_sameScene sim2); [same_scene | exact H2]).
Qed.

Ltac reduce_state :=
  cbn [handle settings earth_rotation locationMarker pipCamera arrowVisible
         arrowDirection lastPipLocation isDraggingOrbit dragTotalMovement
         hasDragged pipContainer pipDrag
         map_settings with_earth_rotation with_locationMarker with_pipCamera
         with_orbitDrag with_pipDrag with_pipContainer with_cam_fov
         updateEarthRotation updateLocationMarker
         latitude longitude selectedLocation timeOfDay pipEnabled pipFov
         pipHeight textureRotation earthTilt pipRotation pipTilt
         with_location with_latitude with_longitude with_selectedLocation
         with_timeOfDay with_pipEnabled with_pipFov with_pipHeight
         with_textureRotation with_earthTilt with_pipRotation with_pipTilt
         cam_position cam_up cam_fov cam_lookAt
         isDragging previousMouseX previousMouseY rotationAngle tiltAngle
         ex ey ez].

Ltac base_goal :=
  unfold base; reduce_state;
  repeat match goal with |- _ /\ _ => split end;
  first [reflexivity | assumption].

Ltac marker_goal Hmk :=
  reduce_state;
  refine (eq_trans Hmk (placedMarker_ext _ _ _ _ _ _)); reflexivity.

Ltac by_same_scene H :=
  eapply consistent_sameScene; [| exact H]; same_scene.

Lemma consistent_constructed : consistent constructed.
Proof.
  unfold constructed, animate.
  change (pipEnabled
            (settings
               (setupPictureInPicture
                  (createLocationMarker (createEarth blank))))) with true.
  cbv iota.
  apply consistent_updatePictureInPicture.
  - unfold setupPictureInPicture, createLocationMarker, createEarth, blank.
    base_goal.
  - unfold setupPictureInPicture, createLocationMarker, createEarth, blank.
    reduce_state. apply placedMarker_ext; reflexivity.
Qed.

(** Every handler keeps the scene consistent. *)
Lemma consistent_handle (e : Event) (sim : RingSimulator) :
  consistent sim -> consistent (handle e sim).
Proof.
  intros H. pose proof H as [(Hc & Hf & Ht & Hr & Hx & Hz) [Hmk Hpip]].
  destruct e; cbn [handle].
  - (* PipMouseDown *) by_same_scene H.
  - (* PipMouseMove *)
    unfold onPipMouseMove.
    destruct (negb (isDragging (pipDrag sim))); [exact H |].
    apply consistent_updatePictureInPicture; [base_goal | marker_goal Hmk].
  - (* PipMouseUp *)
    unfold stopDragging. destruct (isDragging (pipDrag sim));
      [by_same_scene H | exact H].
  - (* PipMouseLeave *)
    unfold stopDragging. destruct (isDragging (pipDrag sim));
      [by_same_scene H | exact H].
  - (* DocumentMouseUp *)
    unfold stopDragging. reduce_state.
    destruct (isDragging (pipDrag sim)); by_same_scene H.
  - (* PipWheel *)
    unfold onPipWheel.
    apply consistent_updatePictureInPicture; [base_goal | marker_goal Hmk].
  - (* KeyDown *)
    unfold onKeyDown.
    destruct (negb (pipEnabled (settings sim)) || inInputField);
      [exact H |].
    destruct key; try exact H;
      (apply consistent_updatePictureInPicture;
       [base_goal | marker_goal Hmk]).
  - (* GuiSelectLocation *)
    unfold onSelectLocation.
    destruct (value =? "Custom")%string; [by_same_scene H |].
    destruct (find _ locations); [| by_same_scene H].
    apply consistent_updateView. base_goal.
  - apply consistent_updateView. base_goal.
  - apply consistent_updateView. base_goal.
  - apply consistent_updateView. base_goal.
  - (* GuiPipEnabled *)
    apply consistent_updatePictureInPicture; [base_goal | marker_goal Hmk].
  - apply consistent_updatePictureInPicture; [base_goal | marker_goal Hmk].
  - apply consistent_updatePictureInPicture; [base_goal | marker_goal Hmk].
  - apply consistent_updateView. base_goal.
  - apply consistent_updateView. base_goal.
  - (* CanvasMouseDown *) by_same_scene H.
  - (* CanvasMouseMove *)
    unfold onCanvasMouseMove.
    destruct (isDraggingOrbit sim); [by_same_scene H | exact H].
  - (* CanvasClick *)
    unfold onEarthClick.
    destruct (hasDragged sim); [by_same_scene H |].
    destruct hit as [p |]; [| exact H].
    assert (Hv : consistent
                   (updateView
                      (map_settings
                         (fun s =>
                            with_selectedLocation "Custom"
                              (with_location
                                 (Picking.pickLatitude p (settings sim))
                                 (Picking.pickLongitude p (settings sim)) s))
                         sim)))
      by (apply consistent_updateView; base_goal).
    destruct (findClosestLocation _ _); [by_same_scene Hv | exact Hv].
  - (* TextureLoaded *) apply consistent_updateView. exact (proj1 H).
  - (* AnimationFrame *)
    unfold animate. destruct (pipEnabled (settings sim)); [| exact H].
    apply consistent_updatePictureInPicture; [exact (proj1 H) | exact Hmk].
Qed.

Lemma reachable_consistent (sim : RingSimulator) :
  reachable sim -> consistent sim.
Proof.
  induction 1 as [| e sim _ IH];
    [apply consistent_constructed | now apply consistent_handle].
Qed.

(** X4.  In every state the program can reach, the marker in the scene is
    the one that the current settings call for: its position and quaternion
    are those computed from the current latitude, longitude, texture
    rotation and tilt, so no handler leaves a stale marker behind. *)
Theorem reachable_marker_current (sim : RingSimulator) :
  reachable sim ->
  position (locationMarker sim)
  = MarkerPlacement.markerPosition (settings sim)
  /\ quaternion (locationMarker sim)
     = MarkerPlacement.markerQuaternion (settings sim).
Proof.
  intros Hr. destruct (reachable_consistent sim Hr) as [_ [Hmk _]].
  rewrite Hmk. split; reflexivity.
Qed.

Lemma reachable_marker_current_witness :
  let sim :=
    run [GuiLatitude 45; GuiPipEnabled false; GuiEarthTilt 10;
         CanvasClick (Some (vec3 0 0 6371))] constructed in
  position (locationMarker sim)
  = MarkerPlacement.markerPosition (settings sim)
  /\ quaternion (locationMarker sim)
     = MarkerPlacement.markerQuaternion (settings sim).
Proof.
  intros sim. apply (reachable_marker_current sim).
  unfold sim. cbn [run].
  repeat apply reachable_handle. apply reachable_constructed.
Defined.

(** X5.  In every state the program can reach with the preview enabled,
    the surface camera is the one that the current settings call for: its
    position, up vector, field of view and look target are those computed
    from the current settings, its up vector is the surface normal of the
    placement, and the arrow on the marker points along the current view
    direction. *)
Theorem reachable_camera_current (sim : RingSimulator) :
  reachable sim ->
  pipEnabled (settings sim) = true ->
  pipCamera sim = surfaceCameraOf (settings sim)
  /\ cam_up (pipCamera sim) = MarkerPlacement.normal (settings sim)
  /\ arrowDirection sim
     = SurfaceCamera.viewDirection
         (MarkerPlacement.markerPosition (settings sim)) (settings sim).
Proof.
  intros Hr He.
  destruct (reachable_consistent sim Hr) as [_ [_ Hpip]].
  destruct (Hpip He) as (Hcam & _ & Harrow & _).
  split; [exact Hcam |]. split; [| exact Harrow].
  rewrite Hcam. unfold surfaceCameraOf. cbn [cam_up].
  apply surfaceNormal_markerPosition.
Qed.

Lemma reachable_camera_current_witness :
  let sim :=
    run [GuiPipEnabled false; GuiLatitude 45; GuiTimeOfDay 3;
         GuiPipEnabled true] constructed in
  pipCamera sim = surfaceCameraOf (settings sim)
  /\ cam_up (pipCamera sim) = MarkerPlacement.normal (settings sim)
  /\ arrowDirection sim
     = SurfaceCamera.viewDirection
         (MarkerPlacement.markerPosition (settings sim)) (settings sim).
Proof.
  intros sim. apply (reachable_camera_current sim).
  - unfold sim. cbn [run].
    repeat apply reachable_handle. apply reachable_constructed.
  - unfold sim. cbn [run handle].
    rewrite settings_updatePictureInPicture. reflexivity.
Defined.

(** X6.  In every state the program can reach, the variables that the drag
    listener of the preview keeps for itself hold the rotation and the tilt
    of the settings, and the camera of the preview has the field of view of
    the settings (also while the preview is disabled). *)
Theorem reachable_listener_in_step (sim : RingSimulator) :
  reachable sim ->
  tiltAngle (pipDrag sim) = pipTilt (settings sim)
  /\ rotationAngle (pipDrag sim) = pipRotation (settings sim)
  /\ cam_fov (pipCamera sim) = pipFov (settings sim).
Proof.
  intros Hr.
  destruct (reachable_consistent sim Hr) as [(_ & Hf & Ht & Hro & _) _].
  split; [exact Ht |]. split; [exact Hro | exact Hf].
Qed.

Lemma reachable_listener_in_step_witness :
  let sim :=
    run [PipMouseDown 10 10; PipMouseMove 50 30; PipWheel 100;
         GuiPipEnabled false; PipMouseMove 60 0; KeyDown KeyQ false]
      constructed in
  tiltAngle (pipDrag sim) = pipTilt (settings sim)
  /\ rotationAngle (pipDrag sim) = pipRotation (settings sim)
  /\ cam_fov (pipCamera sim) = pipFov (settings sim).
Proof.
  intros sim. apply (reachable_listener_in_step sim).
  unfold sim. cbn [run].
  repeat apply reachable_handle. apply reachable_constructed.
Defined.

(** X7.  In every state the program can reach, the planet mesh has no
    rotation about X and has the tilt of the settings, in radians, as its
    rotation about Z. *)
Theorem reachable_mesh_tilt (sim : RingSimulator) :
  reachable sim ->
  ex (earth_rotation sim) = 0
  /\ ez (earth_rotation sim) = MathJS.degToRad (earthTilt (settings sim)).
Proof.
  intros Hr.
  destruct (reachable_consistent sim Hr) as [(_ & _ & _ & _ & Hx & Hz) _].
  split; [exact Hx | exact Hz].
Qed.

Lemma reachable_mesh_tilt_witness :
  let sim :=
    run [GuiEarthTilt 45; GuiTimeOfDay 3; TextureLoaded] constructed in
  ex (earth_rotation sim) = 0
  /\ ez (earth_rotation sim) = MathJS.degToRad (earthTilt (settings sim)).
Proof.
  intros sim. apply (reachable_mesh_tilt sim).
  unfold sim. cbn [run].
  repeat apply reachable_handle. apply reachable_constructed.
Defined.

(** ** The pose of the surface camera *)

Lemma lookDirection_blend_eq (s : Settings) :
  let markerPos := MarkerPlacement.markerPosition s in
  SurfaceCamera.lookDirection markerPos s
  = V3.addScaledVector
      (V3.addScaledVector V3.zero (SurfaceCamera.viewDirection markerPos s)
         (SurfaceCamera.planeFactor s))
      (SurfaceCamera.surfaceNormal markerPos) (SurfaceCamera.tiltFactor s).
Proof.
  cbv zeta. unfold SurfaceCamera.lookDirection.
  apply normalize_unit, blend_unit, surfaceNormal_markerPosition_unit.
Qed.

(** X8.  For every settings record whose height is not below minus the
    radius of the planet (the panel allows -2 to 5), the surface camera is
    placed on the line from the centre through the marker, at distance
    [EARTH_RADIUS + pipHeight] from the centre, and it looks at a target at
    distance [5 * EARTH_RADIUS] from itself. *)
Theorem surface_camera_placement (s : Settings) :
  - EARTH_RADIUS <= pipHeight s ->
  let cam := surfaceCameraOf s in
  cam_position cam
  = V3.multiplyScalar (MarkerPlacement.normal s) (EARTH_RADIUS + pipHeight s)
  /\ V3.length (cam_position cam) = EARTH_RADIUS + pipHeight s
  /\ exists target,
       cam_lookAt cam = Some target
       /\ V3.length (V3.sub target (cam_position cam)) = EARTH_RADIUS * 5.
Proof.
  intros Hh cam. unfold cam, surfaceCameraOf. cbn [cam_position cam_lookAt].
  unfold SurfaceCamera.cameraPos. rewrite surfaceNormal_markerPosition.
  split; [reflexivity |]. split.
  - rewrite length_multiplyScalar, length_normal; lra.
  - eexists. split; [reflexivity |].
    unfold SurfaceCamera.target, SurfaceCamera.cameraPos,
      SurfaceCamera.targetDistance.
    rewrite surfaceNormal_markerPosition.
    set (a := V3.multiplyScalar (MarkerPlacement.normal s) _).
    set (b := V3.multiplyScalar (SurfaceCamera.lookDirection _ _) _).
    replace (V3.sub (V3.add a b) a) with b
      by (destruct a, b; unfold V3.sub, V3.add; cbn [vx vy vz];
          apply vec3_eq; ring).
    unfold b. rewrite length_multiplyScalar.
    + rewrite lookDirection_unit by apply surfaceNormal_markerPosition_unit.
      ring.
    + pose proof EARTH_RADIUS_pos. lra.
Qed.

Lemma surface_camera_placement_witness :
  let cam := surfaceCameraOf initialSettings in
  cam_position cam
  = V3.multiplyScalar (MarkerPlacement.normal initialSettings)
      (EARTH_RADIUS + pipHeight initialSettings)
  /\ V3.length (cam_position cam)
     = EARTH_RADIUS + pipHeight initialSettings
  /\ exists target,
       cam_lookAt cam = Some target
       /\ V3.length (V3.sub target (cam_position cam)) = EARTH_RADIUS * 5.
Proof.
  apply (surface_camera_placement initialSettings).
  unfold initialSettings, EARTH_RADIUS. cbn [pipHeight]. lra.
Defined.

Lemma reachable_pipTilt_range (sim : RingSimulator) :
  reachable sim -> 10 <= pipTilt (settings sim) <= 170.
Proof.
  induction 1 as [| e sim Hr IH].
  - unfold constructed, animate.
    destruct (pipEnabled _);
      [rewrite settings_updatePictureInPicture |];
      cbn [pipTilt settings setupPictureInPicture map_settings
             with_pipRotation with_pipDrag with_cam_fov with_pipCamera
             with_pipContainer createLocationMarker updateLocationMarker
             with_locationMarker createEarth updateEarthRotation
             with_earth_rotation blank initialSettings]; lra.
  - destruct (pipTilt_handle e sim) as [-> | [x ->]];
      [exact IH | apply clamp_10_170].
Qed.

Lemma look_dot_normal (s : Settings) :
  let markerPos := MarkerPlacement.markerPosition s in
  V3.dot (SurfaceCamera.lookDirection markerPos s)
         (SurfaceCamera.surfaceNormal markerPos)
  = sin (SurfaceCamera.tiltRad s)
  /\ V3.dot (SurfaceCamera.lookDirection markerPos s)
            (SurfaceCamera.viewDirection markerPos s)
     = cos (SurfaceCamera.tiltRad s).
Proof.
  cbv zeta. rewrite lookDirection_blend_eq. cbv zeta.
  pose proof (surfaceNormal_markerPosition_unit s) as Hn.
  pose proof (dot_self_unit _ (viewDirection_unit _ Hn s)) as Hv.
  pose proof (dotProduct_zero (MarkerPlacement.markerPosition s) s) as Hd.
  unfold SurfaceCamera.dotProduct in Hd.
  rewrite <- viewDirection_tangent in Hd.
  apply dot_self_unit in Hn.
  unfold SurfaceCamera.planeFactor, SurfaceCamera.tiltFactor.
  set (n := SurfaceCamera.surfaceNormal _) in *.
  set (v := SurfaceCamera.viewDirection _ _) in *.
  set (sn := sin _). set (cs := cos _).
  clearbody n v sn cs.
  unfold V3.dot, V3.addScaledVector, V3.zero in *; cbn [vx vy vz] in *.
  split; nsatz.
Qed.

(** X9.  In every state the program can reach, the look direction of the
    surface camera makes with the surface normal an angle whose cosine is
    the sine of the tilt, and with the view direction in the tangent plane
    an angle whose cosine is the cosine of the tilt; as the tilt stays
    between 10 and 170 degrees, the camera always looks above the
    horizon plane. *)
Theorem reachable_look_above_horizon (sim : RingSimulator) :
  reachable sim ->
  let s := settings sim in
  let markerPos := MarkerPlacement.markerPosition s in
  V3.dot (SurfaceCamera.lookDirection markerPos s)
         (SurfaceCamera.surfaceNormal markerPos)
  = sin (MathJS.degToRad (pipTilt s))
  /\ V3.dot (SurfaceCamera.lookDirection markerPos s)
            (SurfaceCamera.viewDirection markerPos s)
     = cos (MathJS.degToRad (pipTilt s))
  /\ 0 < V3.dot (SurfaceCamera.lookDirection markerPos s)
               (SurfaceCamera.surfaceNormal markerPos).
Proof.
  intros Hr s markerPos.
  destruct (look_dot_normal s) as [Hn Hv].
  split; [exact Hn |]. split; [exact Hv |].
  fold markerPos in Hn. rewrite Hn. unfold SurfaceCamera.tiltRad.
  pose proof (reachable_pipTilt_range sim Hr) as Ht. fold s in Ht.
  pose proof PI_RGT_0 as Hpi.
  apply sin_gt_0; unfold MathJS.degToRad, MathJS.DEG2RAD; nra.
Qed.

Lemma reachable_look_above_horizon_witness :
  let sim := run [PipMouseDown 0 0; PipMouseMove 30 (-2000)] constructed in
  let s := settings sim in
  let markerPos := MarkerPlacement.markerPosition s in
  V3.dot (SurfaceCamera.lookDirection markerPos s)
         (SurfaceCamera.surfaceNormal markerPos)
  = sin (MathJS.degToRad (pipTilt s))
  /\ V3.dot (SurfaceCamera.lookDirection markerPos s)
            (SurfaceCamera.viewDirection markerPos s)
     = cos (MathJS.degToRad (pipTilt s))
  /\ 0 < V3.dot (SurfaceCamera.lookDirection markerPos s)
               (SurfaceCamera.surfaceNormal markerPos).
Proof.
  intros sim. apply (reachable_look_above_horizon sim).
  unfold sim. cbn [run].
  repeat apply reachable_handle. apply reachable_constructed.
Defined.

(** X10.  For every settings record, the east vector, the north vector and
    the surface normal that the surface camera computes at the placed
    marker are three unit vectors, perpendicular to one another, and
    right-handed: the cross product of east and north is the normal.  This
    holds at every latitude and for every tilt, with either reference
    axis. *)
Theorem tangent_frame_orthonormal (s : Settings) :
  let markerPos := MarkerPlacement.markerPosition s in
  let e := SurfaceCamera.eastVector markerPos in
  let m := SurfaceCamera.northVector markerPos in
  let n := SurfaceCamera.surfaceNormal markerPos in
  V3.length e = 1 /\ V3.length m = 1 /\ V3.length n = 1
  /\ V3.dot e n = 0 /\ V3.dot m n = 0 /\ V3.dot e m = 0
  /\ V3.crossVectors e m = n.
Proof.
  intros markerPos e m n.
  pose proof (surfaceNormal_markerPosition_unit s) as Hn.
  fold markerPos n in Hn.
  pose proof (east_unit markerPos Hn) as He. fold e in He.
  pose proof (north_unit markerPos Hn) as Hm. fold m in Hm.
  pose proof (east_dot_normal markerPos) as Hen. fold e n in Hen.
  pose proof (north_dot_normal markerPos) as Hmn. fold m n in Hmn.
  pose proof (north_dot_east markerPos) as Hme. fold m e in Hme.
  repeat match goal with |- _ /\ _ => split end; try assumption.
  - rewrite dot_comm. exact Hme.
  - assert (Hm' : m = V3.crossVectors n e).
    { unfold m, SurfaceCamera.northVector. fold n e.
      apply normalize_unit, normal_cross_east_unit. exact Hn. }
    rewrite Hm'. apply dot_self_unit in He.
    clear Hm Hmn Hme Hm' m. clearbody e n. clear markerPos.
    destruct e as [ex' ey' ez'], n as [nx ny nz].
    unfold V3.dot, V3.crossVectors in *; cbn [vx vy vz] in *.
    apply vec3_eq; nsatz.
Qed.

(** ** From a click to the marker *)

Lemma degToRad_radToDeg (x : R) : MathJS.degToRad (MathJS.radToDeg x) = x.
Proof.
  unfold MathJS.radToDeg, MathJS.degToRad, MathJS.RAD2DEG, MathJS.DEG2RAD.
  field. apply PI_neq0.
Qed.

Lemma sqrt_1_plus_sqr_pos (t : R) : 0 < sqrt (1 + t²).
Proof. apply sqrt_lt_R0. unfold Rsqr. nra. Qed.

(** [atan2 y x] is the angle of the point [(x, y)]: its cosine and sine,
    scaled by the distance of the point from the origin, give back [x] and
    [y]. *)
Lemma atan2_cos_sin (y x : R) :
  sqrt (x * x + y * y) * cos (MathJS.atan2 y x) = x
  /\ sqrt (x * x + y * y) * sin (MathJS.atan2 y x) = y.
Proof.
  unfold MathJS.atan2.
  pose proof (sqrt_1_plus_sqr_pos (y / x)) as Ht.
  pose proof (sqrt_sqrt (1 + (y / x)²)) as Ht2.
  destruct (Rlt_dec 0 x) as [Hx | Hx].
  - rewrite cos_atan, sin_atan.
    set (t := sqrt (1 + (y / x)²)) in *.
    assert (Hrho : sqrt (x * x + y * y) = x * t).
    { apply sqrt_lem_1; [nra | nra |].
      replace (x * t * (x * t)) with (x * x * (t * t)) by ring.
      rewrite Ht2 by (unfold Rsqr; nra). unfold Rsqr. field. lra. }
    rewrite Hrho. split; field; lra.
  - destruct (Rlt_dec x 0) as [Hx' | Hx'].
    + set (t := sqrt (1 + (y / x)²)) in *.
      assert (Hrho : sqrt (x * x + y * y) = - x * t).
      { apply sqrt_lem_1; [nra | nra |].
        replace (- x * t * (- x * t)) with (x * x * (t * t)) by ring.
        rewrite Ht2 by (unfold Rsqr; nra). unfold Rsqr. field. lra. }
      rewrite Hrho.
      assert (Hc : forall a, cos (a - PI) = - cos a).
      { intros a. replace (cos a) with (cos (a - PI + PI))
          by (f_equal; ring).
        rewrite neg_cos. ring. }
      assert (Hs : forall a, sin (a - PI) = - sin a).
      { intros a. replace (sin a) with (sin (a - PI + PI))
          by (f_equal; ring).
        rewrite neg_sin. ring. }
      destruct (Rle_dec 0 y).
      * rewrite neg_cos, neg_sin, cos_atan, sin_atan. fold t.
        split; field; lra.
      * rewrite Hc, Hs, cos_atan, sin_atan. fold t.
        split; field; lra.
    + assert (x = 0) by lra. subst x.
      replace (0 * 0 + y * y) with (y * y) by ring.
      destruct (Rlt_dec 0 y) as [Hy | Hy].
      * rewrite cos_PI2, sin_PI2, sqrt_square by lra. split; ring.
      * destruct (Rlt_dec y 0) as [Hy' | Hy'].
        -- rewrite cos_neg, sin_neg, cos_PI2, sin_PI2.
           replace (y * y) with (- y * - y) by ring.
           rewrite sqrt_square by lra. split; ring.
        -- assert (y = 0) by lra. subst y.
           replace (0 * 0) with 0 by ring. rewrite sqrt_0. split; ring.
Qed.

Lemma applyMatrix4_rotationMatrix_scale (v : Vector3) (k : R) (s : Settings) :
  M4.applyMatrix4 (V3.multiplyScalar v k) (MarkerPlacement.rotationMatrix s)
  = V3.multiplyScalar
      (M4.applyMatrix4 v (MarkerPlacement.rotationMatrix s)) k.
Proof.
  rewrite !applyMatrix4_rotationMatrix.
  unfold MarkerPlacement.textureRotationMatrix, MarkerPlacement.tiltMatrix.
  rewrite !applyMatrix4_makeRotationY, !applyMatrix4_makeRotationZ.
  unfold V3.multiplyScalar; cbn [vx vy vz].
  apply vec3_eq; ring.
Qed.

(** The placement rotations redo what the picking rotations undid. *)
Lemma rotated_untiltedPoint (q : Vector3) (s : Settings) :
  M4.applyMatrix4 (Picking.untiltedPoint q s)
    (MarkerPlacement.rotationMatrix s) = q.
Proof.
  rewrite applyMatrix4_rotationMatrix.
  unfold Picking.untiltedPoint, Picking.tiltMatrix,
    Picking.textureRotationMatrix, MarkerPlacement.textureRotationMatrix,
    MarkerPlacement.tiltMatrix.
  rewrite !applyMatrix4_makeRotationY, !applyMatrix4_makeRotationZ.
  cbn [vx vy vz].
  rewrite !cos_neg, !sin_neg.
  pose proof (sin2_cos2' (textureRotation s)) as Ht.
  pose proof (sin2_cos2' (MathJS.degToRad (earthTilt s))) as Hz.
  destruct q as [x y z]; cbn [vx vy vz].
  apply vec3_eq; nsatz.
Qed.

Lemma normalize_scale (a : Vector3) (k : R) :
  0 < k -> V3.length a <> 0 ->
  V3.normalize (V3.multiplyScalar a k) = V3.normalize a.
Proof.
  intros Hk Ha.
  assert (Hl : V3.length (V3.multiplyScalar a k) = V3.length a * k)
    by (apply length_multiplyScalar; lra).
  rewrite (normalize_nonzero (V3.multiplyScalar a k))
    by (rewrite Hl; apply Rmult_integral_contrapositive_currified; lra).
  rewrite (normalize_nonzero a Ha), Hl, multiplyScalar_multiplyScalar.
  f_equal. field. split; first [assumption | lra].
Qed.

(** The point of the unit sphere with the picked latitude and longitude is
    the unrotated hit point, scaled to length one. *)
Lemma spherical_of_pick (q : Vector3) (s : Settings) :
  V3.length q <> 0 ->
  spherical (MathJS.degToRad (90 - Picking.pickLatitude q s))
            (MathJS.degToRad (Picking.pickLongitude q s))
  = V3.multiplyScalar (Picking.untiltedPoint q s) (1 / V3.length q).
Proof.
  intros Hq.
  unfold Picking.pickLatitude, Picking.pickLongitude, Picking.radius.
  rewrite length_untiltedPoint.
  replace (90 - (90 - MathJS.radToDeg
                        (acos (MathJS.max (-1)
                                 (MathJS.min 1
                                    (vy (Picking.untiltedPoint q s)
                                     / V3.length q))))))
    with (MathJS.radToDeg
            (acos (MathJS.max (-1)
                     (MathJS.min 1
                        (vy (Picking.untiltedPoint q s) / V3.length q)))))
    by ring.
  rewrite !degToRad_radToDeg.
  pose proof (length_untiltedPoint q s) as Hlen.
  pose proof (length_sqr (Picking.untiltedPoint q s)) as Hsq.
  rewrite Hlen in Hsq. unfold V3.dot in Hsq.
  pose proof (length_nonneg q) as Hnn.
  set (u := Picking.untiltedPoint q s) in *.
  set (r := V3.length q) in *.
  clearbody u r. clear Hlen q s.
  destruct u as [x y z]; cbn [vx vy vz] in *.
  assert (Hr : 0 < r) by lra.
  assert (Hc : -1 <= y / r <= 1).
  { assert (Hy : - r <= y <= r) by (split; nra).
    split.
    - apply (Rmult_le_reg_r r); [lra |]. unfold Rdiv.
      rewrite Rmult_assoc, Rinv_l by lra. lra.
    - apply (Rmult_le_reg_r r); [lra |]. unfold Rdiv.
      rewrite Rmult_assoc, Rinv_l by lra. lra. }
  unfold MathJS.max, MathJS.min.
  rewrite (Rmin_right 1 (y / r)) by lra.
  rewrite (Rmax_right (-1) (y / r)) by lra.
  unfold spherical. rewrite cos_acos, sin_acos by assumption.
  destruct (atan2_cos_sin z x) as [Hcos Hsin].
  set (rho := sqrt (x * x + z * z)) in *.
  assert (Hrho : sqrt (1 - (y / r)²) = rho / r).
  { apply sqrt_lem_1.
    - unfold Rsqr. destruct Hc. nra.
    - apply Rmult_le_pos; [apply sqrt_pos |].
      apply Rlt_le, Rinv_0_lt_compat. exact Hr.
    - unfold rho, Rsqr.
      replace (sqrt (x * x + z * z) / r * (sqrt (x * x + z * z) / r))
        with (sqrt (x * x + z * z) * sqrt (x * x + z * z) / (r * r))
        by (field; lra).
      rewrite sqrt_sqrt by nra.
      replace (x * x + z * z) with (r * r - y * y) by lra.
      field. lra. }
  rewrite Hrho. unfold V3.multiplyScalar; cbn [vx vy vz].
  apply vec3_eq.
  - replace (rho / r * cos (MathJS.atan2 z x))
      with (rho * cos (MathJS.atan2 z x) * (1 / r)) by (field; lra).
    rewrite Hcos. reflexivity.
  - field. lra.
  - replace (rho / r * sin (MathJS.atan2 z x))
      with (rho * sin (MathJS.atan2 z x) * (1 / r)) by (field; lra).
    rewrite Hsin. reflexivity.
Qed.

Lemma surfacePoint_of_pick (q : Vector3) (s : Settings) :
  V3.length q <> 0 ->
  MarkerPlacement.surfacePoint
    (with_location (Picking.pickLatitude q s) (Picking.pickLongitude q s) s)
  = V3.multiplyScalar q (EARTH_RADIUS / V3.length q).
Proof.
  intros Hq.
  set (s' := with_location (Picking.pickLatitude q s)
               (Picking.pickLongitude q s) s).
  unfold MarkerPlacement.surfacePoint.
  rewrite rawPosition_spherical.
  unfold MarkerPlacement.phi, MarkerPlacement.theta.
  change (latitude s') with (Picking.pickLatitude q s).
  change (longitude s') with (Picking.pickLongitude q s).
  rewrite (spherical_of_pick q s Hq).
  assert (Hm : MarkerPlacement.rotationMatrix s'
               = MarkerPlacement.rotationMatrix s) by reflexivity.
  rewrite Hm, multiplyScalar_multiplyScalar.
  rewrite applyMatrix4_rotationMatrix_scale, rotated_untiltedPoint.
  f_equal. field. exact Hq.
Qed.

(** The marker placed at the picked coordinates sits on the ray from the
    centre through the hit point. *)
Lemma markerPosition_of_pick (q : Vector3) (s : Settings) :
  V3.length q <> 0 ->
  MarkerPlacement.markerPosition
    (with_location (Picking.pickLatitude q s) (Picking.pickLongitude q s) s)
  = V3.multiplyScalar (V3.normalize q)
      (EARTH_RADIUS * MarkerPlacement.surfaceOffset).
Proof.
  intros Hq. unfold MarkerPlacement.markerPosition.
  rewrite (surfacePoint_of_pick q s Hq).
  rewrite normalize_scale; [reflexivity | | exact Hq].
  apply Rdiv_lt_0_compat; [apply EARTH_RADIUS_pos |].
  pose proof (length_nonneg q). lra.
Qed.

(** The settings after a click that is handled: the picked coordinates and
    some label. *)
Lemma settings_onEarthClick (p : Vector3) (sim : RingSimulator) :
  hasDragged sim = false ->
  exists l : string,
    settings (onEarthClick (Some p) sim)
    = with_selectedLocation l
        (with_location (Picking.pickLatitude p (settings sim))
           (Picking.pickLongitude p (settings sim)) (settings sim)).
Proof.
  intros Hd. unfold onEarthClick. rewrite Hd.
  set (sim1 := map_settings _ sim).
  destruct (findClosestLocation _ _) as [loc |].
  - exists (name loc). cbn [settings map_settings].
    destruct (settings_updateView sim1) as [-> | ->]; reflexivity.
  - exists "Custom"%string.
    destruct (settings_updateView sim1) as [-> | ->]; reflexivity.
Qed.

Lemma locationMarker_onEarthClick (p : Vector3) (sim : RingSimulator) :
  hasDragged sim = false ->
  locationMarker (onEarthClick (Some p) sim)
  = placedMarker
      (with_location (Picking.pickLatitude p (settings sim))
         (Picking.pickLongitude p (settings sim)) (settings sim)).
Proof.
  intros Hd. unfold onEarthClick. rewrite Hd.
  set (sim1 := map_settings _ sim).
  assert (H : locationMarker (updateView sim1)
              = placedMarker
                  (with_location (Picking.pickLatitude p (settings sim))
                     (Picking.pickLongitude p (settings sim))
                     (settings sim))).
  { rewrite locationMarker_updateView. fold (placedMarker (settings sim1)).
    apply placedMarker_ext; reflexivity. }
  destruct (findClosestLocation _ _); exact H.
Qed.

(** X11.  A click that is handled puts the marker under the pointer: for a
    hit point away from the centre, the marker position after the click is
    the hit point scaled to the distance [EARTH_RADIUS * 1.02], for every
    texture rotation and tilt; for a hit point on the sphere of radius
    [EARTH_RADIUS] it is 1.02 times the hit point. *)
Theorem click_places_marker_on_hit (p : Vector3) (sim : RingSimulator) :
  hasDragged sim = false ->
  V3.length p <> 0 ->
  let sim' := onEarthClick (Some p) sim in
  position (locationMarker sim')
  = V3.multiplyScalar (V3.normalize p) (EARTH_RADIUS * 1.02)
  /\ (V3.length p = EARTH_RADIUS ->
      position (locationMarker sim') = V3.multiplyScalar p 1.02).
Proof.
  intros Hd Hp sim'.
  assert (H : position (locationMarker sim')
              = V3.multiplyScalar (V3.normalize p) (EARTH_RADIUS * 1.02)).
  { unfold sim'. rewrite (locationMarker_onEarthClick p sim Hd).
    unfold placedMarker. cbn [position].
    apply markerPosition_of_pick. exact Hp. }
  split; [exact H |].
  intros Hr. rewrite H, (normalize_nonzero p Hp), Hr.
  rewrite multiplyScalar_multiplyScalar. f_equal.
  unfold EARTH_RADIUS. field.
Qed.

Lemma click_places_marker_on_hit_witness :
  let p := vec3 0 0 6371 in
  let sim' := onEarthClick (Some p) constructed in
  position (locationMarker sim')
  = V3.multiplyScalar (V3.normalize p) (EARTH_RADIUS * 1.02)
  /\ (V3.length p = EARTH_RADIUS ->
      position (locationMarker sim') = V3.multiplyScalar p 1.02).
Proof.
  intros p. apply (click_places_marker_on_hit p constructed).
  - reflexivity.
  - unfold p, V3.length; cbn [vx vy vz].
    replace (0 * 0 + 0 * 0 + 6371 * 6371) with (6371 * 6371) by ring.
    rewrite sqrt_square; lra.
Defined.

(** The coordinates after a click that is handled are the picked ones. *)
Lemma picked_coordinates_stored (p : Vector3) (sim : RingSimulator) :
  hasDragged sim = false ->
  latitude (settings (onEarthClick (Some p) sim))
  = Picking.pickLatitude p (settings sim)
  /\ longitude (settings (onEarthClick (Some p) sim))
     = Picking.pickLongitude p (settings sim).
Proof.
  intros Hd. destruct (settings_onEarthClick p sim Hd) as [l ->].
  split; reflexivity.
Qed.

Lemma pickLatitude_range (q : Vector3) (s : Settings) :
  -90 <= Picking.pickLatitude q s <= 90.
Proof.
  unfold Picking.pickLatitude, MathJS.radToDeg, MathJS.RAD2DEG.
  pose proof PI_RGT_0 as Hpi.
  match goal with |- _ <= 90 - acos ?c * _ <= _ =>
    pose proof (acos_bound c) as [Hlo Hhi]; set (a := acos c) in *
  end.
  clearbody a.
  assert (Hk : 0 < 180 / PI) by (apply Rdiv_lt_0_compat; lra).
  assert (Hpk : PI * (180 / PI) = 180) by (field; lra).
  set (k := 180 / PI) in *. clearbody k. split; nra.
Qed.

(** X12.  A click that is handled leaves coordinates within the ranges of
    the panel: the latitude between -90 and 90 degrees, the longitude above
    -180 and at most 180 degrees, whatever point is hit. *)
Theorem click_coordinates_in_range (p : Vector3) (sim : RingSimulator) :
  hasDragged sim = false ->
  let sim' := onEarthClick (Some p) sim in
  latitude (settings sim') = Picking.pickLatitude p (settings sim)
  /\ longitude (settings sim') = Picking.pickLongitude p (settings sim)
  /\ -90 <= latitude (settings sim') <= 90
  /\ -180 < longitude (settings sim') <= 180.
Proof.
  intros Hd sim'. unfold sim'.
  destruct (settings_onEarthClick p sim Hd) as [l ->].
  cbn [latitude longitude with_selectedLocation with_location].
  split; [reflexivity |]. split; [reflexivity |]. split.
  - apply pickLatitude_range.
  - apply radToDeg_range, atan2_range.
Qed.

Lemma click_coordinates_in_range_witness :
  let p := vec3 1 2 3 in
  let sim' := onEarthClick (Some p) constructed in
  latitude (settings sim') = Picking.pickLatitude p (settings constructed)
  /\ longitude (settings sim')
     = Picking.pickLongitude p (settings constructed)
  /\ -90 <= latitude (settings sim') <= 90
  /\ -180 < longitude (settings sim') <= 180.
Proof.
  intros p. apply (click_coordinates_in_range p constructed). reflexivity.
Defined.

Lemma run_app (events1 events2 : list Event) (sim : RingSimulator) :
  run (events1 ++ events2) sim = run events2 (run events1 sim).
Proof.
  revert sim. induction events1 as [| e rest IH]; intros sim.
  - reflexivity.
  - cbn [app run]. apply IH.
Qed.

(** The state of the drag of the main view after a run of moves: the
    movement is summed, and the flag is set from the moment the sum has
    passed ten pixels. *)
Lemma canvas_moves (moves : list (R * R)) (sim : RingSimulator) :
  isDraggingOrbit sim = true ->
  (hasDragged sim = true <-> 10 < dragTotalMovement sim) ->
  let sim' :=
    run (map (fun m => CanvasMouseMove (fst m) (snd m)) moves) sim in
  isDraggingOrbit sim' = true
  /\ dragTotalMovement sim'
     = fold_left
         (fun total m => total + MathJS.abs (fst m) + MathJS.abs (snd m))
         moves (dragTotalMovement sim)
  /\ (hasDragged sim' = true <-> 10 < dragTotalMovement sim')
  /\ settings sim' = settings sim
  /\ locationMarker sim' = locationMarker sim.
Proof.
  revert sim. induction moves as [| [x y] rest IH]; intros sim Hd Hflag.
  - cbn [map run fold_left]. repeat split; try assumption;
      apply Hflag.
  - cbn [map run fold_left fst snd]. cbv zeta.
    set (sim1 := handle (CanvasMouseMove x y) sim).
    assert (H1 : isDraggingOrbit sim1 = true
                 /\ dragTotalMovement sim1
                    = dragTotalMovement sim + MathJS.abs x + MathJS.abs y
                 /\ (hasDragged sim1 = true <-> 10 < dragTotalMovement sim1)
                 /\ settings sim1 = settings sim
                 /\ locationMarker sim1 = locationMarker sim).
    { unfold sim1. cbn [handle]. unfold onCanvasMouseMove. rewrite Hd.
      cbn [isDraggingOrbit dragTotalMovement hasDragged settings
             locationMarker with_orbitDrag].
      split; [reflexivity |]. split; [reflexivity |].
      split; [| split; reflexivity].
      pose proof (Rabs_pos x) as Hx. pose proof (Rabs_pos y) as Hy.
      unfold MathJS.abs.
      destruct (Rlt_dec 10 (dragTotalMovement sim + Rabs x + Rabs y))
        as [Hgt | Hle].
      - split; [intros _; exact Hgt | reflexivity].
      - split.
        + intros Ht. apply Hflag in Ht. exfalso. lra.
        + intros Hgt. exfalso. exact (Hle Hgt). }
    destruct H1 as (Ha & Hb & Hc & Hs & Hm).
    specialize (IH sim1 Ha Hc). cbv zeta in IH.
    destruct IH as (Ia & Ib & Ic & Is & Im).
    split; [exact Ia |]. split; [rewrite Ib, Hb; reflexivity |].
    split; [exact Ic |]. split; congruence.
Qed.

(** The state that a whole drag of the main view leaves: a mouse-down, a
    run of moves and the mouse-up. *)
Lemma canvas_drag (moves : list (R * R)) (sim : RingSimulator) :
  let sim0 :=
    run (CanvasMouseDown
         :: map (fun m => CanvasMouseMove (fst m) (snd m)) moves
         ++ [DocumentMouseUp]) sim in
  isDraggingOrbit sim0 = false
  /\ dragTotalMovement sim0 = totalMovement moves
  /\ (hasDragged sim0 = true <-> 10 < totalMovement moves)
  /\ settings sim0 = settings sim
  /\ locationMarker sim0 = locationMarker sim.
Proof.
  intros sim0. unfold sim0. cbn [run]. rewrite run_app.
  set (simd := handle CanvasMouseDown sim).
  destruct (canvas_moves moves simd) as (_ & Hb & Hc & Hs & Hm).
  - reflexivity.
  - unfold simd. cbn [handle hasDragged dragTotalMovement with_orbitDrag].
    split; [discriminate | lra].
  - cbv zeta in Hb, Hc, Hs, Hm.
    set (simm := run _ simd) in *.
    change (dragTotalMovement simd) with 0 in Hb.
    change (settings simd) with (settings sim) in Hs.
    change (locationMarker simd) with (locationMarker sim) in Hm.
    fold (totalMovement moves) in Hb.
    cbn [run handle]. unfold stopDragging.
    cbn [pipDrag with_orbitDrag].
    destruct (isDragging (pipDrag simm));
      cbn [isDraggingOrbit dragTotalMovement hasDragged settings
             locationMarker with_orbitDrag with_pipDrag];
      rewrite <- Hb; repeat split; try assumption; apply Hc.
Qed.

(** X13.  A drag of the main view swallows one click, and a press without
    a drag does not.  A drag is a mouse-down on the canvas, any run of moves
    and the mouse-up; the listener sums the movement of all its moves,
    [|movementX| + |movementY|] of each.  The drag itself changes neither
    the settings nor the marker.  If the sum is above ten pixels, however
    it is spread over the moves, the click that follows changes neither
    the settings nor the marker, whatever it hits, and clears the flag, and
    a second click on the planet is handled and stores the picked
    coordinates.  If the sum is at most ten pixels, the click that follows
    is handled at once. *)
Theorem drag_swallows_one_click
  (moves : list (R * R)) (hit : option Vector3) (p : Vector3)
  (sim : RingSimulator) :
  let sim0 :=
    run (CanvasMouseDown
         :: map (fun m => CanvasMouseMove (fst m) (snd m)) moves
         ++ [DocumentMouseUp]) sim in
  let sim1 := handle (CanvasClick hit) sim0 in
  let sim2 := handle (CanvasClick (Some p)) sim1 in
  let sim1' := handle (CanvasClick (Some p)) sim0 in
  settings sim0 = settings sim
  /\ locationMarker sim0 = locationMarker sim
  /\ dragTotalMovement sim0 = totalMovement moves
  /\ (10 < totalMovement moves ->
      settings sim1 = settings sim
      /\ locationMarker sim1 = locationMarker sim
      /\ hasDragged sim1 = false
      /\ latitude (settings sim2) = Picking.pickLatitude p (settings sim)
      /\ longitude (settings sim2) = Picking.pickLongitude p (settings sim))
  /\ (totalMovement moves <= 10 ->
      latitude (settings sim1') = Picking.pickLatitude p (settings sim)
      /\ longitude (settings sim1')
         = Picking.pickLongitude p (settings sim)).
Proof.
  intros sim0 sim1 sim2 sim1'.
  destruct (canvas_drag moves sim) as (_ & Htot & Hflag & Hs & Hm).
  cbv zeta in Htot, Hflag, Hs, Hm. fold sim0 in Htot, Hflag, Hs, Hm.
  split; [exact Hs |]. split; [exact Hm |]. split; [exact Htot |]. split.
  - intros Hmove. apply Hflag in Hmove.
    assert (H1 : sim1
                 = with_orbitDrag (isDraggingOrbit sim0)
                     (dragTotalMovement sim0) false sim0).
    { unfold sim1. cbn [handle]. unfold onEarthClick. rewrite Hmove.
      reflexivity. }
    assert (Hs1 : settings sim1 = settings sim) by (rewrite H1; exact Hs).
    split; [exact Hs1 |].
    split; [rewrite H1; exact Hm |].
    split; [rewrite H1; reflexivity |].
    assert (Hd1 : hasDragged sim1 = false) by (rewrite H1; reflexivity).
    destruct (picked_coordinates_stored p sim1 Hd1) as [Hlat Hlon].
    unfold sim2. cbn [handle]. rewrite Hlat, Hlon, Hs1. split; reflexivity.
  - intros Hstill.
    assert (Hd0 : hasDragged sim0 = false).
    { destruct (hasDragged sim0); [| reflexivity].
      exfalso. destruct Hflag as [Hflag _].
      specialize (Hflag eq_refl). lra. }
    destruct (picked_coordinates_stored p sim0 Hd0) as [Hlat Hlon].
    unfold sim1'. cbn [handle]. rewrite Hlat, Hlon, Hs. split; reflexivity.
Qed.

Lemma drag_swallows_one_click_witness :
  let sim := constructed in
  let p := vec3 6371 0 0 in
  let drag (moves : list (R * R)) :=
    run (CanvasMouseDown
         :: map (fun m => CanvasMouseMove (fst m) (snd m)) moves
         ++ [DocumentMouseUp]) sim in
  let dragged := drag [(4, -3); (0, 2); (-1, 3)] in
  let pressed := drag [(3, -1); (0, 2)] in
  let sim1 := handle (CanvasClick (Some (vec3 0 0 6371))) dragged in
  let sim2 := handle (CanvasClick (Some p)) sim1 in
  let sim1' := handle (CanvasClick (Some p)) pressed in
  (settings sim1 = settings sim
   /\ locationMarker sim1 = locationMarker sim
   /\ hasDragged sim1 = false
   /\ latitude (settings sim2) = Picking.pickLatitude p (settings sim)
   /\ longitude (settings sim2) = Picking.pickLongitude p (settings sim))
  /\ latitude (settings sim1') = Picking.pickLatitude p (settings sim)
  /\ longitude (settings sim1') = Picking.pickLongitude p (settings sim).
Proof.
  intros sim p drag dragged pressed sim1 sim2 sim1'.
  assert (Hneg : forall x : R, x < 0 -> Rabs x = - x)
    by (intros x Hx; apply Rabs_left; exact Hx).
  assert (Hpos : forall x : R, 0 <= x -> Rabs x = x)
    by (intros x Hx; apply Rabs_pos_eq; exact Hx).
  split.
  - apply (drag_swallows_one_click [(4, -3); (0, 2); (-1, 3)]
             (Some (vec3 0 0 6371)) p constructed).
    unfold totalMovement, MathJS.abs. cbn [fold_left fst snd].
    rewrite (Hpos 4), (Hneg (-3)), (Hpos 0), (Hpos 2), (Hneg (-1)),
      (Hpos 3) by lra.
    lra.
  - apply (drag_swallows_one_click [(3, -1); (0, 2)] None p constructed).
    unfold totalMovement, MathJS.abs. cbn [fold_left fst snd].
    rewrite (Hpos 3), (Hneg (-1)), (Hpos 0), (Hpos 2) by lra.
    lra.
Defined.

(** ** The catalogue and the label *)

Lemma selectedLocation_updateView (sim : RingSimulator) :
  selectedLocation (settings (updateView sim))
  = if negb (selectedLocation (settings sim) =? "Custom")%string then
      match find (nearLocation 0.1 (latitude (settings sim))
                    (longitude (settings sim))) locations with
      | Some _ => selectedLocation (settings sim)
      | None => "Custom"%string
      end
    else selectedLocation (settings sim).
Proof.
  unfold updateView. cbv zeta.
  change (settings (updateLocationMarker sim)) with (settings sim).
  set (sim2 := if pipEnabled (settings sim)
               then updatePictureInPicture (updateLocationMarker sim)
               else updateLocationMarker sim).
  assert (Hs : settings sim2 = settings sim).
  { unfold sim2. destruct (pipEnabled (settings sim));
      [rewrite settings_updatePictureInPicture |]; reflexivity. }
  rewrite Hs.
  destruct (negb (selectedLocation (settings sim) =? "Custom")%string);
    [destruct (find _ locations) |];
    cbn [settings map_settings with_earth_rotation selectedLocation
           with_selectedLocation];
    try rewrite Hs; reflexivity.
Qed.

Lemma find_not_None {A : Type} (f : A -> bool) (l : list A) (x : A) :
  In x l -> f x = true -> find f l <> None.
Proof.
  intros Hin Hf Hnone. pose proof (find_none f l Hnone x Hin). congruence.
Qed.

Lemma nearLocation_self (tolerance : R) (loc : Location) :
  0 < tolerance ->
  nearLocation tolerance (loc_latitude loc) (loc_longitude loc) loc = true.
Proof.
  intros Ht. unfold nearLocation, MathJS.abs.
  rewrite andb_true_iff, !Rltb_true.
  replace (loc_latitude loc - loc_latitude loc) with 0 by ring.
  replace (loc_longitude loc - loc_longitude loc) with 0 by ring.
  rewrite Rabs_R0. split; exact Ht.
Qed.

(** The names of the catalogue are distinct, and none is "Custom". *)
Lemma find_by_name (loc : Location) :
  In loc locations ->
  find (fun l => (name l =? name loc)%string) locations = Some loc
  /\ (name loc =? "Custom")%string = false.
Proof.
  unfold locations. cbn [In]. intros H.
  repeat (destruct H as [<- | H]; [split; reflexivity |]).
  contradiction.
Qed.

Lemma catalogue_in_range (loc : Location) :
  In loc locations ->
  -90 < loc_latitude loc < 90 /\ -180 < loc_longitude loc <= 180.
Proof.
  unfold locations. cbn [In]. intros H.
  repeat (destruct H as [<- | H];
          [cbn [loc_latitude loc_longitude]; lra |]).
  contradiction.
Qed.

Lemma settings_onSelectLocation (loc : Location) (sim : RingSimulator) :
  In loc locations ->
  settings (onSelectLocation (name loc) sim)
  = with_location (loc_latitude loc) (loc_longitude loc)
      (with_selectedLocation (name loc) (settings sim)).
Proof.
  intros Hin. destruct (find_by_name loc Hin) as [Hfind Hcustom].
  unfold onSelectLocation. rewrite Hcustom, Hfind.
  set (sim1 := map_settings _ (map_settings _ sim)).
  pose proof (selectedLocation_updateView sim1) as Hl.
  change (selectedLocation (settings sim1)) with (name loc) in Hl.
  change (latitude (settings sim1)) with (loc_latitude loc) in Hl.
  change (longitude (settings sim1)) with (loc_longitude loc) in Hl.
  rewrite Hcustom in Hl. cbn [negb] in Hl.
  destruct (find (nearLocation 0.1 (loc_latitude loc) (loc_longitude loc))
              locations) eqn:E.
  - destruct (settings_updateView sim1) as [-> | Hs]; [reflexivity |].
    rewrite Hs in Hl. cbn [selectedLocation with_selectedLocation] in Hl.
    rewrite Hs. unfold sim1.
    cbn [settings map_settings with_selectedLocation with_location
           latitude longitude selectedLocation timeOfDay pipEnabled pipFov
           pipHeight textureRotation earthTilt pipRotation pipTilt].
    rewrite Hl. reflexivity.
  - exfalso. revert E. apply (find_not_None _ _ loc Hin).
    apply nearLocation_self. lra.
Qed.

(** X14.  Choosing a catalogued location in the selector stores its
    latitude and longitude, keeps its name as the label (the view update
    that follows does not reset it to "Custom"), changes no other setting
    and moves the marker there. *)
Theorem select_catalogued_location (loc : Location) (sim : RingSimulator) :
  In loc locations ->
  let sim' := handle (GuiSelectLocation (name loc)) sim in
  settings sim'
  = with_location (loc_latitude loc) (loc_longitude loc)
      (with_selectedLocation (name loc) (settings sim))
  /\ selectedLocation (settings sim') = name loc
  /\ locationMarker sim' = placedMarker (settings sim').
Proof.
  intros Hin sim'. unfold sim'. cbn [handle].
  pose proof (settings_onSelectLocation loc sim Hin) as Hs.
  split; [exact Hs |]. split; [rewrite Hs; reflexivity |].
  rewrite Hs. destruct (find_by_name loc Hin) as [Hfind Hcustom].
  unfold onSelectLocation. rewrite Hcustom, Hfind.
  rewrite locationMarker_updateView.
  fold (placedMarker
          (settings
             (map_settings
                (with_location (loc_latitude loc) (loc_longitude loc))
                (map_settings (with_selectedLocation (name loc)) sim)))).
  apply placedMarker_ext; reflexivity.
Qed.

Lemma select_catalogued_location_witness :
  let loc := mkLocation "Reykjavik" 64.1466 21.9426 in
  let sim' := handle (GuiSelectLocation (name loc)) constructed in
  settings sim'
  = with_location (loc_latitude loc) (loc_longitude loc)
      (with_selectedLocation (name loc) (settings constructed))
  /\ selectedLocation (settings sim') = name loc
  /\ locationMarker sim' = placedMarker (settings sim').
Proof.
  intros loc. apply (select_catalogued_location loc constructed).
  unfold locations, loc. cbn [In]. do 6 right. left. reflexivity.
Defined.

(** X15.  Choosing a value that names no catalogued location, "Custom"
    among them, changes the label only: the other settings and the marker
    stay as they are. *)
Theorem select_unknown_location (value : string) (sim : RingSimulator) :
  (forall loc, In loc locations -> name loc <> value) ->
  let sim' := handle (GuiSelectLocation value) sim in
  settings sim' = with_selectedLocation value (settings sim)
  /\ locationMarker sim' = locationMarker sim
  /\ pipCamera sim' = pipCamera sim.
Proof.
  intros Hno sim'. unfold sim'. cbn [handle]. unfold onSelectLocation.
  destruct (value =? "Custom")%string.
  - repeat split; reflexivity.
  - destruct (find (fun loc => (name loc =? value)%string) locations)
      as [loc |] eqn:E.
    + apply find_some in E. destruct E as [Hin Heq].
      apply String.eqb_eq in Heq. exfalso. exact (Hno loc Hin Heq).
    + repeat split; reflexivity.
Qed.

Lemma select_unknown_location_witness :
  let sim' := handle (GuiSelectLocation "Atlantis") constructed in
  settings sim' = with_selectedLocation "Atlantis" (settings constructed)
  /\ locationMarker sim' = locationMarker constructed
  /\ pipCamera sim' = pipCamera constructed.
Proof.
  apply (select_unknown_location "Atlantis" constructed).
  intros loc Hin. unfold locations in Hin. cbn [In] in Hin.
  repeat (destruct Hin as [<- | Hin]; [discriminate |]).
  contradiction.
Defined.

Lemma findClosestLocation_catalogued (loc : Location) :
  In loc locations ->
  findClosestLocation (loc_latitude loc) (loc_longitude loc) = Some loc.
Proof.
  intros Hin. unfold findClosestLocation.
  destruct (find (nearLocation 2 (loc_latitude loc) (loc_longitude loc))
              locations) as [loc' |] eqn:E.
  - apply find_some in E. destruct E as [Hin' Hnear].
    apply nearLocation_withinTolerance in Hnear.
    f_equal. apply (withinTolerance_unique (loc_latitude loc)
                      (loc_longitude loc)); try assumption.
    apply nearLocation_withinTolerance, nearLocation_self. lra.
  - exfalso. revert E. apply (find_not_None _ _ loc Hin).
    apply nearLocation_self. lra.
Qed.

Lemma settings_onEarthClick_label (p : Vector3) (sim : RingSimulator) :
  hasDragged sim = false ->
  settings (onEarthClick (Some p) sim)
  = with_selectedLocation
      (match findClosestLocation (Picking.pickLatitude p (settings sim))
               (Picking.pickLongitude p (settings sim)) with
       | Some loc => name loc
       | None => "Custom"%string
       end)
      (with_location (Picking.pickLatitude p (settings sim))
         (Picking.pickLongitude p (settings sim)) (settings sim)).
Proof.
  intros Hd. unfold onEarthClick. rewrite Hd.
  set (sim1 := map_settings _ sim).
  destruct (findClosestLocation _ _) as [loc |].
  - cbn [settings map_settings].
    destruct (settings_updateView sim1) as [-> | ->]; reflexivity.
  - destruct (settings_updateView sim1) as [-> | ->]; reflexivity.
Qed.

Lemma hasDragged_updatePictureInPicture (sim : RingSimulator) :
  hasDragged (updatePictureInPicture sim) = hasDragged sim.
Proof.
  unfold updatePictureInPicture.
  destruct (negb (pipContainer sim)); [reflexivity |].
  destruct (negb (pipEnabled (settings sim))); reflexivity.
Qed.

Lemma hasDragged_updateView (sim : RingSimulator) :
  hasDragged (updateView sim) = hasDragged sim.
Proof.
  pose proof (updateView_cases sim) as H. cbv zeta in H.
  destruct H as [-> | ->];
    cbn [hasDragged map_settings with_earth_rotation];
    (destruct (pipEnabled (settings sim));
     [rewrite hasDragged_updatePictureInPicture |]; reflexivity).
Qed.

(** X16.  Round trip through the catalogue: after a catalogued location is
    chosen in the selector, a click on the marker placed there picks the
    same latitude and longitude, finds the same name, and so leaves every
    setting as the selection left it. *)
Theorem select_then_click_marker (loc : Location) (sim : RingSimulator) :
  In loc locations ->
  hasDragged sim = false ->
  let sim1 := handle (GuiSelectLocation (name loc)) sim in
  let sim2 :=
    handle (CanvasClick (Some (position (locationMarker sim1)))) sim1 in
  settings sim2 = settings sim1
  /\ locationMarker sim2 = locationMarker sim1.
Proof.
  intros Hin Hd sim1 sim2.
  destruct (find_by_name loc Hin) as [Hfind Hcustom].
  destruct (catalogue_in_range loc Hin) as [Hlat Hlon].
  pose proof (settings_onSelectLocation loc sim Hin) as Hs1.
  change (settings (onSelectLocation (name loc) sim))
    with (settings sim1) in Hs1.
  assert (Hm1 : locationMarker sim1 = placedMarker (settings sim1)).
  { rewrite Hs1. unfold sim1. cbn [handle]. unfold onSelectLocation.
    rewrite Hcustom, Hfind, locationMarker_updateView.
    fold (placedMarker
            (settings
               (map_settings
                  (with_location (loc_latitude loc) (loc_longitude loc))
                  (map_settings (with_selectedLocation (name loc)) sim)))).
    apply placedMarker_ext; reflexivity. }
  assert (Hd1 : hasDragged sim1 = false).
  { unfold sim1. cbn [handle]. unfold onSelectLocation.
    rewrite Hcustom, Hfind, hasDragged_updateView. exact Hd. }
  assert (Hpick : Picking.pickLatitude (position (locationMarker sim1))
                    (settings sim1) = loc_latitude loc
                  /\ Picking.pickLongitude (position (locationMarker sim1))
                       (settings sim1) = loc_longitude loc).
  { rewrite Hm1. unfold placedMarker. cbn [position].
    destruct (pick_placed_exact
                (MarkerPlacement.markerPosition (settings sim1))
                (settings sim1)
                (EARTH_RADIUS * MarkerPlacement.surfaceOffset))
      as [Ha Hb].
    - apply offset_radius_pos.
    - rewrite Hs1. cbn [latitude with_location]. exact Hlat.
    - rewrite Hs1. cbn [longitude with_location]. exact Hlon.
    - apply untiltedPoint_markerPosition.
    - rewrite Ha, Hb, Hs1. split; reflexivity. }
  destruct Hpick as [Hplat Hplon].
  assert (Hs2 : settings sim2 = settings sim1).
  { unfold sim2. cbn [handle].
    rewrite (settings_onEarthClick_label _ sim1 Hd1), Hplat, Hplon.
    rewrite (findClosestLocation_catalogued loc Hin), Hs1. reflexivity. }
  split; [exact Hs2 |].
  unfold sim2. cbn [handle].
  rewrite (locationMarker_onEarthClick _ sim1 Hd1), Hplat, Hplon, Hm1.
  apply placedMarker_ext; rewrite Hs1; reflexivity.
Qed.

Lemma select_then_click_marker_witness :
  let loc := mkLocation "Sydney" (-33.8688) (-151.2093) in
  let sim1 := handle (GuiSelectLocation (name loc)) constructed in
  let sim2 :=
    handle (CanvasClick (Some (position (locationMarker sim1)))) sim1 in
  settings sim2 = settings sim1
  /\ locationMarker sim2 = locationMarker sim1.
Proof.
  intros loc. apply (select_then_click_marker loc constructed).
  - unfold locations, loc. cbn [In]. do 3 right. left. reflexivity.
  - reflexivity.
Defined.

(** X17.  After [updateView] the label is "Custom" unless some catalogued
    location lies within a tenth of a degree of the coordinates in latitude
    and in longitude: a label that the coordinates no longer match, such as
    one given by a click up to two degrees away, does not survive the next
    view update. *)
Theorem updateView_label (sim : RingSimulator) :
  let s' := settings (updateView sim) in
  (selectedLocation s' = "Custom"%string
   \/ (selectedLocation s' = selectedLocation (settings sim)
       /\ exists loc,
            In loc locations
            /\ Rabs (loc_latitude loc - latitude s') < 0.1
            /\ Rabs (loc_longitude loc - longitude s') < 0.1))
  /\ ((forall loc, In loc locations ->
         ~ (Rabs (loc_latitude loc - latitude (settings sim)) < 0.1
            /\ Rabs (loc_longitude loc - longitude (settings sim)) < 0.1)) ->
      selectedLocation s' = "Custom"%string).
Proof.
  cbv zeta. rewrite selectedLocation_updateView.
  assert (Hlat : latitude (settings (updateView sim))
                 = latitude (settings sim))
    by (destruct (settings_updateView sim) as [-> | ->]; reflexivity).
  assert (Hlon : longitude (settings (updateView sim))
                 = longitude (settings sim))
    by (destruct (settings_updateView sim) as [-> | ->]; reflexivity).
  rewrite Hlat, Hlon.
  destruct (selectedLocation (settings sim) =? "Custom")%string eqn:Ec;
    cbn [negb].
  - apply String.eqb_eq in Ec. split; [left; exact Ec | intros _; exact Ec].
  - destruct (find _ locations) as [loc |] eqn:E.
    + apply find_some in E. destruct E as [Hin Hnear].
      unfold nearLocation, MathJS.abs in Hnear.
      rewrite andb_true_iff, !Rltb_true in Hnear.
      split.
      * right. split; [reflexivity |]. exists loc. tauto.
      * intros Hno. exfalso. exact (Hno loc Hin Hnear).
    + split; [left; reflexivity | intros _; reflexivity].
Qed.

Lemma updateView_label_witness :
  let sim := map_settings (with_selectedLocation "Tokyo") constructed in
  let s' := settings (updateView sim) in
  (selectedLocation s' = "Custom"%string
   \/ (selectedLocation s' = selectedLocation (settings sim)
       /\ exists loc,
            In loc locations
            /\ Rabs (loc_latitude loc - latitude s') < 0.1
            /\ Rabs (loc_longitude loc - longitude s') < 0.1))
  /\ ((forall loc, In loc locations ->
         ~ (Rabs (loc_latitude loc - latitude (settings sim)) < 0.1
            /\ Rabs (loc_longitude loc - longitude (settings sim)) < 0.1)) ->
      selectedLocation s' = "Custom"%string).
Proof.
  intros sim. apply (updateView_label sim).
Defined.

(** ** The settings stay within the ranges of the panel *)

Lemma settingsInRange_ext (s1 s2 : Settings) :
  sameGeometry s1 s2 -> settingsInRange s1 -> settingsInRange s2.
Proof.
  intros (Hlat & Hlon & Htod & Hen & Hfov & Hh & Htex & Htilt & Hrot & Hpt).
  unfold settingsInRange.
  rewrite Hlat, Hlon, Htod, Hfov, Hh, Htex, Htilt, Hpt. tauto.
Qed.

Ltac same_geometry :=
  unfold sameGeometry;
  repeat match goal with |- _ /\ _ => split end; reflexivity.

Lemma settingsInRange_updateView (sim : RingSimulator) :
  settingsInRange (settings sim) -> settingsInRange (settings (updateView sim)).
Proof.
  intros H. destruct (settings_updateView sim) as [-> | ->];
    [exact H |].
  apply (settingsInRange_ext (settings sim)); [same_geometry | exact H].
Qed.

Lemma Rmax_Rmin_range (lo hi x : R) :
  lo <= hi -> lo <= Rmax lo (Rmin hi x) <= hi.
Proof.
  intros H. split; [apply Rmax_l |].
  apply Rmax_lub; [exact H | apply Rmin_l].
Qed.

Ltac minmax :=
  unfold MathJS.max, MathJS.min, Rmax, Rmin;
  repeat match goal with
         | |- context [Rle_dec ?a ?b] => destruct (Rle_dec a b)
         end;
  lra.

Ltac range_goal H :=
  unfold settingsInRange in *; reduce_state;
  decompose [and] H; clear H;
  repeat match goal with |- _ /\ _ => split end;
  first [assumption | lra | minmax].

(** Every handler keeps the settings within the ranges, when the event
    comes with a value within them. *)
Lemma settingsInRange_handle (e : Event) (sim : RingSimulator) :
  inPanelRange e ->
  settingsInRange (settings sim) ->
  settingsInRange (settings (handle e sim)).
Proof.
  intros He H. destruct e; cbn [handle inPanelRange] in *.
  - exact H.
  - unfold onPipMouseMove.
    destruct (negb (isDragging (pipDrag sim))); [exact H |].
    rewrite settings_updatePictureInPicture.
    match goal with
    | |- context [MathJS.max 10 (MathJS.min 170 ?x)] =>
        pose proof (clamp_10_170 x) as [Hlo Hhi]
    end.
    range_goal H.
  - unfold stopDragging. destruct (isDragging _); exact H.
  - unfold stopDragging. destruct (isDragging _); exact H.
  - unfold stopDragging. reduce_state. destruct (isDragging _); exact H.
  - unfold onPipWheel. rewrite settings_updatePictureInPicture.
    match goal with
    | |- context [MathJS.max 20 (MathJS.min 120 ?x)] =>
        pose proof (Rmax_Rmin_range 20 120 x ltac:(lra)) as [Hlo Hhi]
    end.
    unfold MathJS.max, MathJS.min in *. range_goal H.
  - unfold onKeyDown.
    destruct (negb (pipEnabled (settings sim)) || inInputField);
      [exact H |].
    destruct key; try exact H; rewrite settings_updatePictureInPicture;
      range_goal H.
  - unfold onSelectLocation.
    destruct (value =? "Custom")%string;
      [apply (settingsInRange_ext (settings sim));
       [same_geometry | exact H] |].
    destruct (find _ locations) as [loc |] eqn:E;
      [| apply (settingsInRange_ext (settings sim));
         [same_geometry | exact H]].
    apply find_some in E. destruct E as [Hin _].
    destruct (catalogue_in_range loc Hin) as [Hlat Hlon].
    apply settingsInRange_updateView. range_goal H.
  - apply settingsInRange_updateView. range_goal H.
  - apply settingsInRange_updateView. range_goal H.
  - apply settingsInRange_updateView. range_goal H.
  - rewrite settings_updatePictureInPicture. range_goal H.
  - rewrite settings_updatePictureInPicture. range_goal H.
  - rewrite settings_updatePictureInPicture. range_goal H.
  - apply settingsInRange_updateView. range_goal H.
  - apply settingsInRange_updateView. range_goal H.
  - exact H.
  - unfold onCanvasMouseMove. destruct (isDraggingOrbit sim); exact H.
  - destruct (hasDragged sim) eqn:Hd.
    + unfold onEarthClick. rewrite Hd. exact H.
    + destruct hit as [p |];
        [| unfold onEarthClick; rewrite Hd; exact H].
      rewrite (settings_onEarthClick_label p sim Hd).
      pose proof (pickLatitude_range p (settings sim)) as Hlat.
      pose proof (radToDeg_range _
                    (atan2_range
                       (vz (Picking.untiltedPoint p (settings sim)))
                       (vx (Picking.untiltedPoint p (settings sim)))))
        as Hlon.
      fold (Picking.pickLongitude p (settings sim)) in Hlon.
      range_goal H.
  - apply settingsInRange_updateView. exact H.
  - unfold animate. destruct (pipEnabled (settings sim));
      [rewrite settings_updatePictureInPicture |]; exact H.
Qed.

Lemma settingsInRange_constructed : settingsInRange (settings constructed).
Proof.
  unfold constructed, animate.
  destruct (pipEnabled _); [rewrite settings_updatePictureInPicture |];
    unfold setupPictureInPicture, createLocationMarker, createEarth, blank,
      initialSettings, settingsInRange; reduce_state;
    pose proof PI_RGT_0;
    repeat match goal with |- _ /\ _ => split end; lra.
Qed.

Lemma settingsInRange_run (events : list Event) (sim : RingSimulator) :
  Forall inPanelRange events ->
  settingsInRange (settings sim) ->
  settingsInRange (settings (run events sim)).
Proof.
  intros Hall. revert sim.
  induction Hall as [| e events He _ IH]; intros sim H; cbn [run].
  - exact H.
  - apply IH, settingsInRange_handle; assumption.
Qed.

(** X18.  No sequence of events takes a setting out of the range that the
    panel gives it: starting from the constructor, whatever is clicked,
    dragged, scrolled, typed or selected, with slider values within their
    bounds, the latitude stays between -90 and 90, the longitude between
    -180 and 180, the time between 0 and 24, the field of view between 20
    and 120, the height at most 5, the texture rotation between 0 and two
    pi, the tilt of the planet between -90 and 90 and the tilt of the
    preview between 10 and 170.  (The lower bound -2 of the height is not
    kept: see the next property.) *)
Theorem settings_stay_in_range (events : list Event) :
  Forall inPanelRange events ->
  settingsInRange (settings (run events constructed)).
Proof.
  intros Hall. apply settingsInRange_run;
    [exact Hall | apply settingsInRange_constructed].
Qed.

Lemma settings_stay_in_range_witness :
  settingsInRange
    (settings
       (run [GuiLatitude 80; KeyDown KeyW false; PipWheel 5000;
             CanvasClick (Some (vec3 1 2 3)); KeyDown KeyE false;
             GuiSelectLocation "Dubai"; PipMouseDown 0 0;
             PipMouseMove 3 900]
          constructed)).
Proof.
  apply settings_stay_in_range.
  repeat (apply Forall_cons; [cbn [inPanelRange]; try exact I; lra |]).
  apply Forall_nil.
Defined.

(** X19.  The height keys, with the preview enabled: W multiplies the
    height by 1.1 and caps it at 5, S multiplies it by 0.9 and floors it at
    -2.  So at height 0 neither key does anything; above the surface S
    lowers the camera without reaching the surface and W raises it, to 5
    at most; below the surface S raises the camera without reaching the
    surface and W lowers it, without a bound: from -2 it goes to -2.2. *)
Theorem height_keys (sim : RingSimulator) :
  pipEnabled (settings sim) = true ->
  let h := pipHeight (settings sim) in
  let w := pipHeight (settings (handle (KeyDown KeyW false) sim)) in
  let d := pipHeight (settings (handle (KeyDown KeyS false) sim)) in
  (h = 0 -> w = 0 /\ d = 0)
  /\ (0 < h -> 0 < d < h /\ (h <= 5 -> h <= w <= 5))
  /\ (h < 0 -> w < h /\ h < d < 0)
  /\ (h = -2 -> w = -2.2).
Proof.
  intros He h w d.
  assert (Hw : w = Rmin 5 (h * 1.1)).
  { unfold w. cbn [handle]. unfold onKeyDown. rewrite He. cbn [negb orb].
    rewrite settings_updatePictureInPicture. reflexivity. }
  assert (Hd : d = Rmax (-2) (h * 0.9)).
  { unfold d. cbn [handle]. unfold onKeyDown. rewrite He. cbn [negb orb].
    rewrite settings_updatePictureInPicture. reflexivity. }
  rewrite Hw, Hd. clearbody h. clear.
  unfold Rmin, Rmax.
  destruct (Rle_dec 5 (h * 1.1)), (Rle_dec (-2) (h * 0.9));
    repeat split; intros; lra.
Qed.

Lemma height_keys_witness :
  let sim := map_settings (with_pipHeight (-2)) constructed in
  let h := pipHeight (settings sim) in
  let w := pipHeight (settings (handle (KeyDown KeyW false) sim)) in
  let d := pipHeight (settings (handle (KeyDown KeyS false) sim)) in
  (h = 0 -> w = 0 /\ d = 0)
  /\ (0 < h -> 0 < d < h /\ (h <= 5 -> h <= w <= 5))
  /\ (h < 0 -> w < h /\ h < d < 0)
  /\ (h = -2 -> w = -2.2).
Proof.
  intros sim. apply (height_keys sim).
  unfold sim. cbn [settings map_settings pipEnabled with_pipHeight].
  unfold constructed, animate.
  change (pipEnabled
            (settings
               (setupPictureInPicture
                  (createLocationMarker (createEarth blank))))) with true.
  cbv iota. rewrite settings_updatePictureInPicture. reflexivity.
Defined.

(** ** The time of day *)

Lemma sin_plus_2PI (x : R) : sin (x + 2 * PI) = sin x.
Proof. rewrite sin_plus, cos_2PI, sin_2PI. ring. Qed.

Lemma cos_plus_2PI (x : R) : cos (x + 2 * PI) = cos x.
Proof. rewrite cos_plus, cos_2PI, sin_2PI. ring. Qed.

Lemma pipCamera_updatePictureInPicture (sim : RingSimulator) :
  pipCamera (updatePictureInPicture sim)
  = if pipContainer sim && pipEnabled (settings sim) then
      mkCamera
        (SurfaceCamera.cameraPos (position (locationMarker sim))
           (settings sim))
        (SurfaceCamera.surfaceNormal (position (locationMarker sim)))
        (pipFov (settings sim))
        (Some
           (SurfaceCamera.target (position (locationMarker sim))
              (settings sim)))
    else pipCamera sim.
Proof.
  unfold updatePictureInPicture.
  destruct (pipContainer sim), (pipEnabled (settings sim)); reflexivity.
Qed.

Lemma pipCamera_updateView (sim : RingSimulator) :
  pipCamera (updateView sim)
  = if pipContainer sim && pipEnabled (settings sim)
    then surfaceCameraOf (settings sim)
    else pipCamera sim.
Proof.
  pose proof (updateView_cases sim) as H. cbv zeta in H.
  destruct H as [-> | ->];
    cbn [pipCamera map_settings with_earth_rotation];
    (destruct (pipEnabled (settings sim)) eqn:He;
     [ rewrite pipCamera_updatePictureInPicture;
       cbn [pipContainer settings updateLocationMarker with_locationMarker
              locationMarker position];
       rewrite He; reflexivity
     | rewrite andb_false_r; reflexivity ]).
Qed.

(** A day later the surface camera is the same. *)
Lemma surfaceCameraOf_next_day (s : Settings) (t : R) :
  surfaceCameraOf (with_timeOfDay (t + 24) s)
  = surfaceCameraOf (with_timeOfDay t s).
Proof.
  assert (Hv : forall markerPos,
             SurfaceCamera.viewDirection markerPos (with_timeOfDay (t + 24) s)
             = SurfaceCamera.viewDirection markerPos (with_timeOfDay t s)).
  { intros markerPos. rewrite !viewDirection_tangent.
    unfold SurfaceCamera.tangentViewDirection, SurfaceCamera.totalRotation,
      SurfaceCamera.hourAngle.
    cbn [timeOfDay pipRotation with_timeOfDay].
    replace ((t + 24) / 24 * PI * 2 + pipRotation s)
      with (t / 24 * PI * 2 + pipRotation s + 2 * PI) by field.
    rewrite sin_plus_2PI, cos_plus_2PI. reflexivity. }
  assert (Hp : MarkerPlacement.markerPosition (with_timeOfDay (t + 24) s)
               = MarkerPlacement.markerPosition (with_timeOfDay t s))
    by (apply marker_depends_on_four; reflexivity).
  unfold surfaceCameraOf, SurfaceCamera.target, SurfaceCamera.lookDirection,
    SurfaceCamera.cameraPos, SurfaceCamera.planeFactor,
    SurfaceCamera.tiltFactor, SurfaceCamera.tiltRad.
  cbv zeta. rewrite Hp, Hv. reflexivity.
Qed.

(** X20.  The scene has a period of one day in the time of day: setting the
    time to [t + 24] gives the planet mesh the same matrix, the marker the
    same pose and the surface camera the same pose as setting it to [t]; in
    particular the two ends of the slider, 0 and 24, show the same
    scene. *)
Theorem time_of_day_periodic (t : R) (sim : RingSimulator) :
  let a := handle (GuiTimeOfDay t) sim in
  let b := handle (GuiTimeOfDay (t + 24)) sim in
  earthMatrix b = earthMatrix a
  /\ locationMarker b = locationMarker a
  /\ pipCamera b = pipCamera a.
Proof.
  cbv zeta. cbn [handle]. split; [| split].
  - unfold earthMatrix. rewrite !earth_rotation_updateView.
    cbn [settings map_settings earth_rotation textureRotation
           with_timeOfDay].
    unfold SurfaceCamera.hourAngle. cbn [timeOfDay with_timeOfDay].
    unfold Rot.makeRotationFromEuler. cbn [ex ey ez].
    replace (textureRotation (settings sim) + (t + 24) / 24 * PI * 2)
      with (textureRotation (settings sim) + t / 24 * PI * 2 + 2 * PI)
      by field.
    rewrite sin_plus_2PI, cos_plus_2PI. reflexivity.
  - rewrite !locationMarker_updateView.
    fold (placedMarker
            (settings (map_settings (with_timeOfDay (t + 24)) sim))).
    fold (placedMarker (settings (map_settings (with_timeOfDay t) sim))).
    apply placedMarker_ext; reflexivity.
  - rewrite !pipCamera_updateView.
    cbn [settings map_settings pipContainer pipCamera pipEnabled
           with_timeOfDay].
    rewrite surfaceCameraOf_next_day. reflexivity.
Qed.

(** ** Rings, stars, export sizes and the orbit camera *)

Lemma ringV_range (v3 : Vector3) : 0 <= Rings.ringV v3 <= 1.
Proof.
  unfold Rings.ringV. cbv zeta.
  pose proof (atan2_range (vy v3) (vx v3)) as [Hlo Hhi].
  pose proof PI_RGT_0 as Hpi.
  set (a := MathJS.atan2 (vy v3) (vx v3)) in *. clearbody a.
  split.
  - apply Rmult_le_pos; [lra |].
    apply Rlt_le, Rinv_0_lt_compat. lra.
  - apply (Rmult_le_reg_r (PI * 2)); [lra |].
    unfold Rdiv. rewrite Rmult_assoc, Rinv_l by lra. lra.
Qed.

Lemma ringU_range (ringScale : R) (v3 : Vector3) :
  0 < ringScale ->
  Rings.RING_INNER_RADIUS * ringScale <= V3.length v3
    <= Rings.RING_OUTER_RADIUS * ringScale ->
  0 <= Rings.ringU ringScale v3 <= 1.
Proof.
  intros Hs [Hlo Hhi]. unfold Rings.ringU. cbv zeta.
  assert (Hd : 0 < Rings.RING_OUTER_RADIUS * ringScale
                   - Rings.RING_INNER_RADIUS * ringScale).
  { unfold Rings.RING_OUTER_RADIUS, Rings.RING_INNER_RADIUS, EARTH_RADIUS.
    nra. }
  set (den := Rings.RING_OUTER_RADIUS * ringScale
              - Rings.RING_INNER_RADIUS * ringScale) in *.
  split.
  - apply Rmult_le_pos; [lra |]. apply Rlt_le, Rinv_0_lt_compat. exact Hd.
  - apply (Rmult_le_reg_r den); [exact Hd |].
    unfold Rdiv. rewrite Rmult_assoc, Rinv_l by lra. unfold den. lra.
Qed.

(** X21.  Texture coordinates of the rings: for a positive ring scale and
    vertices between the inner and the outer radius of the scaled ring,
    the loop of [createRings] writes two numbers per vertex, all between 0
    and 1; the first is 0 for a vertex on the inner edge and 1 for a
    vertex on the outer edge. *)
Theorem ring_uv_in_unit_square (ringScale : R) (pos : list Vector3) :
  0 < ringScale ->
  Forall
    (fun v3 =>
       Rings.RING_INNER_RADIUS * ringScale <= V3.length v3
         <= Rings.RING_OUTER_RADIUS * ringScale) pos ->
  List.length (Rings.ringUV ringScale pos) = (2 * List.length pos)%nat
  /\ Forall (fun c => 0 <= c <= 1) (Rings.ringUV ringScale pos)
  /\ (forall v3,
        V3.length v3 = Rings.RING_INNER_RADIUS * ringScale ->
        Rings.ringU ringScale v3 = 0)
  /\ (forall v3,
        V3.length v3 = Rings.RING_OUTER_RADIUS * ringScale ->
        Rings.ringU ringScale v3 = 1).
Proof.
  intros Hs Hall. split; [| split; [| split]].
  - clear Hall. induction pos as [| v3 rest IH]; [reflexivity |].
    cbn [Rings.ringUV List.length]. rewrite IH. cbn. lia.
  - induction Hall as [| v3 rest Hv _ IH]; [constructor |].
    cbn [Rings.ringUV]. constructor; [now apply ringU_range |].
    constructor; [apply ringV_range | exact IH].
  - intros v3 Hv. unfold Rings.ringU. cbv zeta. rewrite Hv.
    unfold Rings.RING_OUTER_RADIUS, Rings.RING_INNER_RADIUS, EARTH_RADIUS.
    field. lra.
  - intros v3 Hv. unfold Rings.ringU. cbv zeta. rewrite Hv.
    unfold Rings.RING_OUTER_RADIUS, Rings.RING_INNER_RADIUS, EARTH_RADIUS.
    field. lra.
Qed.

Lemma ring_uv_in_unit_square_witness :
  let pos := [vec3 (6371 * 1.5) 0 0; vec3 0 (6371 * 2.5) 0] in
  List.length (Rings.ringUV 1 pos) = (2 * List.length pos)%nat
  /\ Forall (fun c => 0 <= c <= 1) (Rings.ringUV 1 pos)
  /\ (forall v3,
        V3.length v3 = Rings.RING_INNER_RADIUS * 1 ->
        Rings.ringU 1 v3 = 0)
  /\ (forall v3,
        V3.length v3 = Rings.RING_OUTER_RADIUS * 1 ->
        Rings.ringU 1 v3 = 1).
Proof.
  intros pos. apply (ring_uv_in_unit_square 1 pos); [lra |].
  assert (H1 : V3.length (vec3 (6371 * 1.5) 0 0) = 6371 * 1.5).
  { unfold V3.length. cbn [vx vy vz].
    replace (6371 * 1.5 * (6371 * 1.5) + 0 * 0 + 0 * 0)
      with (6371 * 1.5 * (6371 * 1.5)) by ring.
    rewrite sqrt_square; lra. }
  assert (H2 : V3.length (vec3 0 (6371 * 2.5) 0) = 6371 * 2.5).
  { unfold V3.length. cbn [vx vy vz].
    replace (0 * 0 + 6371 * 2.5 * (6371 * 2.5) + 0 * 0)
      with (6371 * 2.5 * (6371 * 2.5)) by ring.
    rewrite sqrt_square; lra. }
  unfold pos, Rings.RING_INNER_RADIUS, Rings.RING_OUTER_RADIUS,
    EARTH_RADIUS.
  constructor; [rewrite H1; lra |].
  constructor; [rewrite H2; lra | constructor].
Defined.

Lemma star_properties (random : nat -> R) (k : nat) :
  (forall n, 0 <= random n < 1) ->
  let st := fst (Stars.star random k) in
  V3.length (Stars.star_position st) = 500000
  /\ 0.8 <= vx (Stars.star_color st) <= 1
  /\ 0.8 <= vy (Stars.star_color st) <= 1
  /\ 0.6 <= vz (Stars.star_color st) <= 1.
Proof.
  intros Hr. cbv zeta. unfold Stars.star. cbv zeta.
  set (theta := random k * PI * 2).
  set (phi := acos (random (k + 1)%nat * 2 - 1)).
  assert (Hlen : V3.length
                   (vec3 (500000 * sin phi * cos theta)
                         (500000 * sin phi * sin theta)
                         (500000 * cos phi)) = 500000).
  { unfold V3.length. cbn [vx vy vz]. apply sqrt_lem_1; [nra | lra |].
    pose proof (sin2_cos2' phi) as Hp.
    pose proof (sin2_cos2' theta) as Ht.
    clearbody phi theta. nsatz. }
  pose proof (Hr (k + 3)%nat) as H3. pose proof (Hr (k + 4)%nat) as H4.
  destruct (Rlt_dec 0.9 (random (k + 2)%nat));
    cbn [fst Stars.star_position Stars.star_color vx vy vz];
    (split; [exact Hlen |]); repeat split; lra.
Qed.

Lemma stars_properties (random : nat -> R) (count k : nat) :
  (forall n, 0 <= random n < 1) ->
  List.length (Stars.stars random count k) = count
  /\ Forall
       (fun st =>
          V3.length (Stars.star_position st) = 500000
          /\ 0.8 <= vx (Stars.star_color st) <= 1
          /\ 0.8 <= vy (Stars.star_color st) <= 1
          /\ 0.6 <= vz (Stars.star_color st) <= 1)
       (Stars.stars random count k).
Proof.
  intros Hr. revert k.
  induction count as [| count IH]; intros k; cbn [Stars.stars].
  - split; [reflexivity | constructor].
  - pose proof (star_properties random k Hr) as Hst. cbv zeta in Hst.
    destruct (Stars.star random k) as [st k'].
    destruct (IH k') as [Hlen Hall].
    split; [cbn [List.length]; now rewrite Hlen |].
    constructor; [exact Hst | exact Hall].
Qed.

(** X22.  Whatever numbers below 1 and not below 0 [Math.random] returns,
    [createStars] makes [STARS_COUNT] stars, every one at distance 500000
    from the centre, with colour components between 0.6 and 1. *)
Theorem createStars_on_sphere (random : nat -> R) :
  (forall n, 0 <= random n < 1) ->
  List.length (Stars.createStars random) = Stars.STARS_COUNT
  /\ Forall
       (fun st =>
          V3.length (Stars.star_position st) = 500000
          /\ 0.8 <= vx (Stars.star_color st) <= 1
          /\ 0.8 <= vy (Stars.star_color st) <= 1
          /\ 0.6 <= vz (Stars.star_color st) <= 1)
       (Stars.createStars random).
Proof.
  intros Hr. unfold Stars.createStars. now apply stars_properties.
Qed.

Lemma createStars_on_sphere_witness :
  let random := fun n : nat => / (INR n + 2) in
  List.length (Stars.createStars random) = Stars.STARS_COUNT
  /\ Forall
       (fun st =>
          V3.length (Stars.star_position st) = 500000
          /\ 0.8 <= vx (Stars.star_color st) <= 1
          /\ 0.8 <= vy (Stars.star_color st) <= 1
          /\ 0.6 <= vz (Stars.star_color st) <= 1)
       (Stars.createStars random).
Proof.
  intros random. apply (createStars_on_sphere random).
  intros n. unfold random. pose proof (pos_INR n) as Hn.
  assert (Hp : 0 < INR n + 2) by lra.
  split.
  - apply Rlt_le, Rinv_0_lt_compat. exact Hp.
  - rewrite <- Rinv_1. apply Rinv_lt_contravar; lra.
Defined.

Lemma resolution_keys (size : string) (width height : Z) :
  ExportSizes.resolution size = ExportSizes.Entry width height ->
  In size ExportSizes.exportSizes.
Proof.
  unfold ExportSizes.resolution.
  destruct (find _ ExportSizes.resolutions) as [entry |] eqn:E.
  - intros _. apply find_some in E. destruct E as [Hin Heq].
    apply String.eqb_eq in Heq. subst size.
    unfold ExportSizes.resolutions in Hin. cbn [In] in Hin.
    unfold ExportSizes.exportSizes. cbn [In].
    repeat (destruct Hin as [<- | Hin]; [cbn [fst]; tauto |]).
    contradiction.
  - destruct (existsb _ ExportSizes.objectPrototype); discriminate.
Qed.

(** X23.  Every export size that the selector offers, the initial one
    among them, is a key of the table of [captureHighResImage], and its
    resolution has the ratio 16 to 9 that the method gives the camera.  The
    keys of the table are the offered sizes, in the order of the selector,
    and only they resolve to a resolution: under any other name the lookup
    gives [undefined] or, for a name of [Object.prototype] such as
    [constructor], a member inherited from it. *)
Theorem export_sizes_resolve (size : string) :
  In ExportSizes.initialExportSize ExportSizes.exportSizes
  /\ map fst ExportSizes.resolutions = ExportSizes.exportSizes
  /\ (In size ExportSizes.exportSizes ->
      exists width height : Z,
        ExportSizes.resolution size = ExportSizes.Entry width height
        /\ (width * 9 = height * 16)%Z
        /\ (0 < width)%Z)
  /\ (~ In size ExportSizes.exportSizes ->
      ExportSizes.resolution size = ExportSizes.Undefined
      \/ ExportSizes.resolution size = ExportSizes.Inherited)
  /\ ExportSizes.resolution "constructor" = ExportSizes.Inherited.
Proof.
  split; [| split; [| split; [| split]]].
  - unfold ExportSizes.exportSizes, ExportSizes.initialExportSize.
    cbn [In]. do 3 right. left. reflexivity.
  - reflexivity.
  - intros Hin. unfold ExportSizes.exportSizes in Hin. cbn [In] in Hin.
    repeat (destruct Hin as [<- | Hin];
            [eexists; eexists; split; [reflexivity | split; reflexivity] |]).
    contradiction.
  - intros Hnot.
    destruct (ExportSizes.resolution size) as [width height | |] eqn:E.
    + exfalso. exact (Hnot (resolution_keys size width height E)).
    + right. reflexivity.
    + left. reflexivity.
  - reflexivity.
Qed.

Lemma export_sizes_resolve_witness :
  (exists width height : Z,
     ExportSizes.resolution "8K" = ExportSizes.Entry width height
     /\ (width * 9 = height * 16)%Z
     /\ (0 < width)%Z)
  /\ (ExportSizes.resolution "toString" = ExportSizes.Undefined
      \/ ExportSizes.resolution "toString" = ExportSizes.Inherited).
Proof.
  split.
  - apply (export_sizes_resolve "8K").
    unfold ExportSizes.exportSizes. cbn [In]. do 4 right. left. reflexivity.
  - apply (export_sizes_resolve "toString").
    unfold ExportSizes.exportSizes. cbn [In].
    intros [H | [H | [H | [H | [H | []]]]]]; discriminate H.
Defined.

(** X24.  Changing the camera distance in the panel, outside the surface
    view, moves the orbit camera along its own direction to the distance
    [EARTH_RADIUS * value] from the centre, for a camera away from the
    centre and a positive value. *)
Theorem camera_distance_change (value : R) (cameraPosition : Vector3) :
  V3.length cameraPosition <> 0 ->
  0 < value ->
  let moved := onCameraDistanceChange value false cameraPosition in
  V3.length moved = EARTH_RADIUS * value
  /\ V3.normalize moved = V3.normalize cameraPosition.
Proof.
  intros Hp Hv moved. unfold moved, onCameraDistanceChange. cbn [negb].
  pose proof EARTH_RADIUS_pos as HR.
  assert (Hk : 0 < EARTH_RADIUS * value) by nra.
  pose proof (length_normalize cameraPosition Hp) as Hn.
  split.
  - rewrite length_multiplyScalar, Hn by lra. ring.
  - apply normalize_scaled_unit; assumption.
Qed.

Lemma camera_distance_change_witness :
  let cameraPosition := vec3 0 0 (6371 * 4) in
  let moved := onCameraDistanceChange 2 false cameraPosition in
  V3.length moved = EARTH_RADIUS * 2
  /\ V3.normalize moved = V3.normalize cameraPosition.
Proof.
  intros cameraPosition.
  apply (camera_distance_change 2 cameraPosition); [| lra].
  unfold cameraPosition, V3.length. cbn [vx vy vz].
  replace (0 * 0 + 0 * 0 + 6371 * 4 * (6371 * 4))
    with (6371 * 4 * (6371 * 4)) by ring.
  rewrite sqrt_square; lra.
Defined.

(** ** More on picking *)




(** X26.  The latitude makes the round trip on the whole closed range,
    poles included, and from the marker itself: picking the position of the
    marker placed at a latitude between -90 and 90 degrees, 1.02 radii from
    the centre, gives that latitude back within a thousandth of a degree,
    for every longitude, texture rotation and tilt, and under any settings
    with that texture rotation and tilt, whatever latitude and longitude
    they hold at the time of the pick. *)
Theorem pick_latitude_closed_range (s s' : Settings) :
  textureRotation s' = textureRotation s ->
  earthTilt s' = earthTilt s ->
  -90 <= latitude s <= 90 ->
  Rabs (Picking.pickLatitude (MarkerPlacement.markerPosition s) s'
        - latitude s) <= 0.001.
Proof.
  intros Htex Htilt Hlat.
  destruct (pick_ext (MarkerPlacement.markerPosition s) s s' Htex Htilt)
    as [-> _].
  pose proof (untiltedPoint_markerPosition s) as Hu.
  pose proof offset_radius_pos as Hk.
  rewrite (pickLatitude_spherical _ s _ _ _ Hk (phi_range s Hlat) Hu).
  unfold MarkerPlacement.phi. rewrite radToDeg_degToRad.
  replace (90 - (90 - latitude s) - latitude s) with 0 by ring.
  rewrite Rabs_R0. lra.
Qed.

Lemma pick_latitude_closed_range_witness :
  let s := mkSettings (-90) 120 "" 12 true 75 0.2 PI 23.5 0 70 in
  let s' := mkSettings 40.7128 74.0061 "New York" 6 false 40 1 PI 23.5 1 90 in
  Rabs (Picking.pickLatitude (MarkerPlacement.markerPosition s) s'
        - latitude s) <= 0.001.
Proof.
  intros s s'. apply (pick_latitude_closed_range s s').
  - reflexivity.
  - reflexivity.
  - cbn [latitude s]. lra.
Defined.

(** ** Dragging the preview *)

Lemma pipDrag_updatePictureInPicture (sim : RingSimulator) :
  pipDrag (updatePictureInPicture sim) = pipDrag sim.
Proof.
  unfold updatePictureInPicture.
  destruct (negb (pipContainer sim)); [reflexivity |].
  destruct (negb (pipEnabled (settings sim))); reflexivity.
Qed.

(** The state of the drag after a run of moves of the pointer. *)
Lemma drag_moves (moves : list (R * R)) (sim : RingSimulator) :
  isDragging (pipDrag sim) = true ->
  rotationAngle (pipDrag sim) = pipRotation (settings sim) ->
  let sim' :=
    run (map (fun m => PipMouseMove (fst m) (snd m)) moves) sim in
  isDragging (pipDrag sim') = true
  /\ rotationAngle (pipDrag sim') = pipRotation (settings sim')
  /\ pipRotation (settings sim')
     = pipRotation (settings sim)
       + (previousMouseX (pipDrag sim') - previousMouseX (pipDrag sim))
         * 0.01
  /\ (moves <> [] ->
      previousMouseX (pipDrag sim') = fst (last moves (0, 0))).
Proof.
  revert sim. induction moves as [| [x y] rest IH]; intros sim Hd Hr.
  - cbn [map run]. repeat split; try assumption; [ring | congruence].
  - cbn [map run fst snd]. cbv zeta.
    set (sim1 := handle (PipMouseMove x y) sim).
    assert (H1 : pipDrag sim1
                 = mkPipDrag true x y
                     (rotationAngle (pipDrag sim)
                      + (x - previousMouseX (pipDrag sim)) * 0.01)
                     (MathJS.max 10
                        (MathJS.min 170
                           (tiltAngle (pipDrag sim)
                            - (y - previousMouseY (pipDrag sim)) * 0.2)))
                 /\ pipRotation (settings sim1)
                    = rotationAngle (pipDrag sim)
                      + (x - previousMouseX (pipDrag sim)) * 0.01).
    { unfold sim1. cbn [handle]. unfold onPipMouseMove. rewrite Hd.
      cbn [negb]. rewrite pipDrag_updatePictureInPicture,
        settings_updatePictureInPicture. split; reflexivity. }
    destruct H1 as [Hdrag Hrot].
    specialize (IH sim1). cbv zeta in IH.
    destruct IH as (Ha & Hb & Hc & He).
    + rewrite Hdrag. reflexivity.
    + rewrite Hdrag, Hrot. reflexivity.
    + split; [exact Ha |]. split; [exact Hb |]. split.
      * rewrite Hc, Hrot, Hr, Hdrag. cbn [previousMouseX]. ring.
      * intros _. destruct rest as [| m rest'].
        -- cbn [map run last fst]. rewrite Hdrag. reflexivity.
        -- rewrite He by discriminate. reflexivity.
Qed.

(** X27.  While the preview is dragged, its rotation follows the net
    horizontal displacement of the pointer: from a reachable state, after
    a mouse-down at [x0] and any run of moves that ends at [x], the rotation
    is the one before the drag plus 0.01 times [x - x0], however the
    pointer got there; so bringing the pointer back restores the
    rotation. *)
Theorem drag_rotation_net_displacement
  (x0 y0 : R) (moves : list (R * R)) (sim : RingSimulator) :
  reachable sim ->
  moves <> [] ->
  let sim' :=
    run (PipMouseDown x0 y0
         :: map (fun m => PipMouseMove (fst m) (snd m)) moves) sim in
  pipRotation (settings sim')
  = pipRotation (settings sim) + (fst (last moves (0, 0)) - x0) * 0.01.
Proof.
  intros Hr Hne sim'.
  destruct (reachable_consistent sim Hr) as [(_ & _ & _ & Hrot & _) _].
  unfold sim'. cbn [run handle].
  set (sim0 := with_pipDrag _ sim).
  destruct (drag_moves moves sim0) as (_ & _ & Hc & He);
    [reflexivity | exact Hrot |].
  cbv zeta in Hc, He. rewrite Hc, (He Hne). reflexivity.
Qed.

Lemma drag_rotation_net_displacement_witness :
  let moves := [(30, 5); (80, -20); (10, 0)] in
  let sim' :=
    run (PipMouseDown 10 0
         :: map (fun m => PipMouseMove (fst m) (snd m)) moves) constructed in
  pipRotation (settings sim')
  = pipRotation (settings constructed)
    + (fst (last moves (0, 0)) - 10) * 0.01.
Proof.
  intros moves.
  apply (drag_rotation_net_displacement 10 0 moves constructed).
  - apply reachable_constructed.
  - discriminate.
Defined.
